(** * invoice-to-json: the result normalizer of [streamlit_app.py]

    A shallow embedding of [calculate_summary], [process_one_company] and
    [process_multiple_companies], of the Python built-ins they call
    ([str], [str.replace], [float], [round], float addition, the dict and
    list operations), and the properties of the normalizer stated in the
    specification; then of [encode_image_to_base64] with the standard
    Base64 encoding and of the page script, one run per interaction,
    with further properties of the whole.

    Python floats are IEEE 754 binary64 numbers.  They are modelled by
    the standard library's [spec_float]; every operation is defined as
    the correctly rounded (round-to-nearest, ties-to-even) image of the
    exact rational result, which is what binary64 addition, [float(s)]
    and [round(x, n)] compute in CPython.  NaNs carry no payload.

    Outside the model: text with code points above 255; the limit that
    CPython 3.11 puts on the number of digits of [str(n)] for an [int]
    (a decoded document holds no such integer, [json.loads] enforces the
    same limit); the recursion limit of [str] on deeply nested values;
    the construction of the client and the failures of the network. *)

From Stdlib Require Import ZArith QArith Qround Qpower Qabs Lia Lqa.
From Stdlib Require Import List String Ascii Bool.
From Stdlib Require Import Floats.SpecFloat.
Import ListNotations.

Local Open Scope Z_scope.

(** Closes a goal made of closed equations by evaluating both sides. *)
Ltac by_computation :=
  repeat match goal with
         | |- _ /\ _ => split
         | |- exists _, _ => eexists
         end;
  vm_compute; reflexivity.

(* ================================================================== *)
(** * Binary64 arithmetic *)
(* ================================================================== *)

Module Float.

Definition float := spec_float.

Definition prec : Z := 53.
Definition emax : Z := 1024.
(** Smallest exponent of a binary64 mantissa (subnormal numbers). *)
Definition emin : Z := -1074.

Definition pos_zero : float := S754_zero false.
Definition neg_zero : float := S754_zero true.

Definition is_valid (x : float) : bool := valid_binary prec emax x.

(** Magnitude and value of a float as exact rationals (0 for the
    non-finite ones, which the callers treat apart). *)
Definition Fabs2Q (x : float) : Q :=
  match x with
  | S754_finite _ m e => inject_Z (Zpos m) * 2 ^ e
  | _ => 0
  end%Q.

Definition F2Q (x : float) : Q :=
  match x with
  | S754_finite true _ _ => - Fabs2Q x
  | _ => Fabs2Q x
  end%Q.

(** Nearest integer, ties to even. *)
Definition Qrne (x : Q) : Z :=
  let f := Qfloor x in
  match (x - inject_Z f ?= 1 # 2)%Q with
  | Lt => f
  | Gt => f + 1
  | Eq => if Z.even f then f else f + 1
  end.

(** [Qlog2 x] is the integer [k] with [2^k <= x < 2^(k+1)], for [0 < x]. *)
Definition Qlog2 (x : Q) : Z :=
  let k := Z.log2 (Qnum x) - Z.log2 (Zpos (Qden x)) in
  if Qle_bool (2 ^ k) x then k else k - 1.

(** Exponent and mantissa of the binary64 number nearest to [0 < x]: the
    exponent leaves [prec] bits to the mantissa, and is never below
    [emin]. *)
Definition exponent_of (x : Q) : Z := Z.max (Qlog2 x - (prec - 1)) emin.
Definition mantissa_of (x : Q) : Z := Qrne (x / 2 ^ exponent_of x).

(** [nearest s x]: the binary64 number of sign [s] nearest to the
    magnitude [0 <= x], ties to even; overflow gives an infinity and a
    magnitude that rounds to nothing gives a signed zero. *)
Definition nearest (s : bool) (x : Q) : float :=
  if Qle_bool x 0 then S754_zero s
  else
    let '(m, e) := if mantissa_of x =? 2 ^ prec
                   then (2 ^ (prec - 1), exponent_of x + 1)
                   else (mantissa_of x, exponent_of x) in
    match m with
    | Zpos p => if e <=? emax - prec then S754_finite s p e else S754_infinity s
    | _ => S754_zero s
    end.

(** Rounding of a signed rational; an exact zero takes the sign [szero]. *)
Definition of_Q (x : Q) (szero : bool) : float :=
  match (x ?= 0)%Q with
  | Eq => S754_zero szero
  | Gt => nearest false x
  | Lt => nearest true (- x)
  end.

(** Binary64 addition, Python's [+] on floats (it never raises). *)
Definition fadd (x y : float) : float :=
  match x, y with
  | S754_nan, _ | _, S754_nan => S754_nan
  | S754_infinity sx, S754_infinity sy =>
      if Bool.eqb sx sy then x else S754_nan
  | S754_infinity _, _ => x
  | _, S754_infinity _ => y
  | S754_zero sx, S754_zero sy =>
      if Bool.eqb sx sy then x else S754_zero false
  | S754_zero _, _ => y
  | _, S754_zero _ => x
  | S754_finite _ _ _, S754_finite _ _ _ => of_Q (F2Q x + F2Q y) false
  end.

End Float.

Import Float.

(* ================================================================== *)
(** * Python text *)
(* ================================================================== *)

(** A Python [str] is modelled by a [string] holding one character per
    code point; the model covers the code points below 256 (Latin-1),
    which is where every character that [float] accepts lives apart from
    the non-Latin decimal digits and spaces. *)

Module Text.

Definition code (c : ascii) : Z := Z.of_N (N_of_ascii c).

Definition is_digit (c : ascii) : bool := (48 <=? code c) && (code c <=? 57).
Definition digit_val (c : ascii) : Z := code c - 48.
Definition digit_char (d : Z) : ascii := ascii_of_N (Z.to_N (d + 48)).

(** [Py_ISSPACE]: the ASCII white space. *)
Definition is_space (c : ascii) : bool :=
  ((9 <=? code c) && (code c <=? 13)) || (code c =? 32).

(** [Py_TOLOWER] on ASCII letters. *)
Definition to_lower (c : ascii) : ascii :=
  if (65 <=? code c) && (code c <=? 90)
  then ascii_of_N (Z.to_N (code c + 32)) else c.

Fixpoint map_string (f : ascii -> ascii) (s : string) : string :=
  match s with
  | EmptyString => EmptyString
  | String c r => String (f c) (map_string f r)
  end.

(** [s.replace(old, new)] for a one-character [old]. *)
Fixpoint str_replace (old : ascii) (new : string) (s : string) : string :=
  match s with
  | EmptyString => EmptyString
  | String c r =>
      if Ascii.eqb c old then (new ++ str_replace old new r)%string
      else String c (str_replace old new r)
  end.

(** Value of a run of decimal digits, most significant first. *)
Definition Z_of_digits (ds : list Z) : Z :=
  fold_left (fun a d => 10 * a + d) ds 0.

(** Decimal digits of [0 <= n], most significant first; [fuel] bounds the
    number of digits. *)
Fixpoint digits_acc (fuel : nat) (n : Z) (acc : list Z) : list Z :=
  match fuel with
  | O => n :: acc
  | S f => if n <? 10 then n :: acc else digits_acc f (n / 10) (n mod 10 :: acc)
  end.

Definition digits_of_Z (n : Z) : list Z :=
  digits_acc (Z.to_nat (Z.log2 n)) n [].

Fixpoint string_of_digits (ds : list Z) : string :=
  match ds with
  | [] => EmptyString
  | d :: r => String (digit_char d) (string_of_digits r)
  end.

(** [str(n)] for an [int]. *)
Definition str_of_Z (n : Z) : string :=
  if n <? 0 then String "-"%char (string_of_digits (digits_of_Z (- n)))
  else string_of_digits (digits_of_Z n).

(** A decimal digit. *)
Definition digit (d : Z) : Prop := 0 <= d <= 9.

End Text.

Import Text.

(* ================================================================== *)
(** * Python exceptions *)
(* ================================================================== *)

Inductive exn : Set :=
  | KeyError | TypeError | AttributeError | ValueError | OverflowError
  | JSONDecodeError.

Inductive result (A : Type) : Type :=
  | Ok (a : A)
  | Raise (e : exn).

Arguments Ok {A} a.
Arguments Raise {A} e.

Definition bind {A B : Type} (r : result A) (k : A -> result B) : result B :=
  match r with
  | Ok a => k a
  | Raise e => Raise e
  end.

Notation "x <- r ;; k" := (bind r (fun x => k))
  (at level 61, r at next level, right associativity).

Definition exn_eqb (a b : exn) : bool :=
  match a, b with
  | KeyError, KeyError | TypeError, TypeError
  | AttributeError, AttributeError | ValueError, ValueError
  | OverflowError, OverflowError | JSONDecodeError, JSONDecodeError => true
  | _, _ => false
  end.

(** [isinstance(e, E)]: [json.JSONDecodeError] is a subclass of
    [ValueError]; the other classes are unrelated. *)
Definition exn_isinstance (e E : exn) : bool :=
  exn_eqb e E
  || match e, E with
     | JSONDecodeError, ValueError => true
     | _, _ => false
     end.

(** [try: body except E: handler]. *)
Definition try_except {A : Type} (body : result A) (E : exn)
  (handler : result A) : result A :=
  match body with
  | Ok a => Ok a
  | Raise e => if exn_isinstance e E then handler else Raise e
  end.

(* ================================================================== *)
(** * The built-ins [float], [repr] of a float and [round] *)
(* ================================================================== *)

Module Builtins.

Local Open Scope string_scope.
Local Open Scope Z_scope.

(** ** [float(s)] *)

(** [_PyUnicode_TransformDecimalAndSpaceToASCII] on Latin-1: the two
    non-ASCII spaces become a blank, any other non-ASCII character
    becomes a question mark. *)
Definition to_ascii (c : ascii) : ascii :=
  if code c <? 128 then c
  else if (code c =? 133) || (code c =? 160) then " "%char else "?"%char.

(** [_Py_string_to_number_with_underscores]: an underscore is accepted
    between two digits only, and is dropped. *)
Fixpoint drop_underscores (prev : ascii) (s : string) : option string :=
  match s with
  | EmptyString => if Ascii.eqb prev "_" then None else Some EmptyString
  | String c r =>
      if Ascii.eqb c "_" then
        if is_digit prev then drop_underscores c r else None
      else if Ascii.eqb prev "_" && negb (is_digit c) then None
      else option_map (String c) (drop_underscores c r)
  end.

Fixpoint lstrip (s : string) : string :=
  match s with
  | String c r => if is_space c then lstrip r else s
  | EmptyString => s
  end.

(** Removal of trailing white space; the first character is kept. *)
Fixpoint rstrip (s : string) : string :=
  match s with
  | EmptyString => EmptyString
  | String c r =>
      match rstrip r with
      | EmptyString => if is_space c then EmptyString else String c EmptyString
      | r' => String c r'
      end
  end.

Definition strip (s : string) : string :=
  match lstrip s with
  | EmptyString => EmptyString
  | String c r => String c (rstrip r)
  end.

Fixpoint span_digits (s : string) : list Z * string :=
  match s with
  | String c r =>
      if is_digit c then
        let '(ds, rest) := span_digits r in (digit_val c :: ds, rest)
      else ([], s)
  | EmptyString => ([], s)
  end.

Definition parse_sign (s : string) : bool * string :=
  match s with
  | String "-" r => (true, r)
  | String "+" r => (false, r)
  | _ => (false, s)
  end.

(** What follows the mantissa: nothing, or a complete exponent. *)
Definition parse_exponent (s : string) : option Z :=
  match s with
  | EmptyString => Some 0
  | String c r =>
      if Ascii.eqb (to_lower c) "e" then
        let '(neg, r1) := parse_sign r in
        match span_digits r1 with
        | (d :: ds, EmptyString) =>
            Some (if neg then - Z_of_digits (d :: ds) else Z_of_digits (d :: ds))
        | _ => None
        end
      else None
  end.

(** The decimal grammar of [_Py_dg_strtod], after the sign: digits with
    an optional point, at least one digit, an optional exponent.  The
    result is the integer digits, the fraction digits and the exponent. *)
Definition parse_decimal (s : string) : option (list Z * list Z * Z) :=
  let '(ip, r) := span_digits s in
  let '(fp, r') := match r with
                   | String "." r1 => span_digits r1
                   | _ => ([], r)
                   end in
  match (ip ++ fp)%list with
  | [] => None
  | _ => option_map (fun e => (ip, fp, e)) (parse_exponent r')
  end.

(** [_Py_parse_inf_or_nan], after the sign. *)
Definition parse_inf_nan (neg : bool) (s : string) : option float :=
  let l := map_string to_lower s in
  if String.eqb l "inf" || String.eqb l "infinity" then Some (S754_infinity neg)
  else if String.eqb l "nan" then Some S754_nan
  else None.

(** The value [c * 10^q]. *)
Definition dec2Q (c q : Z) : Q := (inject_Z c * 10 ^ q)%Q.

Definition parse_float (s : string) : option float :=
  let '(neg, r) := parse_sign s in
  match parse_decimal r with
  | Some (ip, fp, e) =>
      Some (nearest neg (dec2Q (Z_of_digits (ip ++ fp)%list)
                               (e - Z.of_nat (List.length fp))))
  | None => parse_inf_nan neg r
  end.

(** [float(s)] for a [str]: [ValueError] when the text is not a number;
    out-of-range numbers give an infinity or a zero without an error. *)
Definition py_float (s : string) : result float :=
  match drop_underscores Ascii.zero (map_string to_ascii s) with
  | None => Raise ValueError
  | Some s1 =>
      match parse_float (strip s1) with
      | Some x => Ok x
      | None => Raise ValueError
      end
  end.

(** ** [repr(x)] for a float *)

Definition feqb (x y : float) : bool :=
  match x, y with
  | S754_zero a, S754_zero b => Bool.eqb a b
  | S754_infinity a, S754_infinity b => Bool.eqb a b
  | S754_nan, S754_nan => true
  | S754_finite a m e, S754_finite b m' e' =>
      Bool.eqb a b && Pos.eqb m m' && Z.eqb e e'
  | _, _ => false
  end.

(** The finite decimal expansion of [m * 2^e], as [c * 10^q]. *)
Definition exact_decimal (m : positive) (e : Z) : Z * Z :=
  if 0 <=? e then (Zpos m * 2 ^ e, 0) else (Zpos m * 5 ^ (- e), e).

(** The decimal with [d] significant digits that reads back as the
    magnitude [y], if there is one: of the two decimals around [y] that
    do, the closer one (the even one on a tie).  [ds] and [q] are the
    exact expansion of [y]. *)
Definition shortest_at (y : float) (ds : list Z) (q : Z) (d : nat)
  : option (Z * Z) :=
  let lo := Z_of_digits (firstn d ds) in
  let q' := q + Z.of_nat (List.length ds - d)%nat in
  let reads_back c := feqb (nearest false (dec2Q c q')) y in
  match reads_back lo, reads_back (lo + 1) with
  | true, false => Some (lo, q')
  | false, true => Some (lo + 1, q')
  | false, false => None
  | true, true =>
      match (Fabs2Q y - dec2Q lo q' ?= dec2Q (lo + 1) q' - Fabs2Q y)%Q with
      | Lt => Some (lo, q')
      | Gt => Some (lo + 1, q')
      | Eq => Some (if Z.even lo then lo else lo + 1, q')
      end
  end.

(** Search for the shortest decimal that reads back as [y], from [d]
    digits on.  Seventeen digits always suffice for a binary64 number;
    the exact expansion closes the search. *)
Fixpoint shortest_from (y : float) (ds : list Z) (q : Z) (d fuel : nat)
  : Z * Z :=
  match fuel with
  | O => (Z_of_digits ds, q)
  | S f =>
      if (List.length ds <=? d)%nat then (Z_of_digits ds, q)
      else match shortest_at y ds q d with
           | Some r => r
           | None => shortest_from y ds q (S d) f
           end
  end.

Definition repr_decimal (m : positive) (e : Z) : Z * Z :=
  let '(c, q) := exact_decimal m e in
  shortest_from (S754_finite false m e) (digits_of_Z c) q 1 17.

Fixpoint drop_zeros (rev_ds : list Z) : list Z :=
  match rev_ds with
  | 0 :: r => drop_zeros r
  | _ => rev_ds
  end.

Definition strip_trailing_zeros (ds : list Z) : list Z :=
  rev (drop_zeros (rev ds)).

Definition zeros (n : Z) : list Z := repeat 0 (Z.to_nat n).

(** The exponent of the scientific form, ["%+.02d"]. *)
Definition exp_str (e : Z) : string :=
  let ds := digits_of_Z (Z.abs e) in
  String (if e <? 0 then "-"%char else "+"%char)
         (string_of_digits (match ds with [d] => [0; d] | _ => ds end)).

(** [format_float_short] with format code ['r']: the digits [ds] with
    the decimal point after the first [decpt] of them; scientific form
    when [decpt <= -4] or [16 < decpt]. *)
Definition render (ds : list Z) (decpt : Z) : string :=
  let n := Z.of_nat (List.length ds) in
  if (decpt <=? -4) || (16 <? decpt) then
    match ds with
    | [] => ""
    | [d] => string_of_digits [d] ++ "e" ++ exp_str (decpt - 1)
    | d :: rest =>
        string_of_digits [d] ++ "." ++ string_of_digits rest
          ++ "e" ++ exp_str (decpt - 1)
    end
  else if decpt <=? 0 then
    "0." ++ string_of_digits (zeros (- decpt) ++ ds)%list
  else if decpt <? n then
    string_of_digits (firstn (Z.to_nat decpt) ds) ++ "."
      ++ string_of_digits (skipn (Z.to_nat decpt) ds)
  else
    string_of_digits (ds ++ zeros (decpt - n))%list ++ ".0".

Definition float_repr (x : float) : string :=
  match x with
  | S754_nan => "nan"
  | S754_infinity s => if s then "-inf" else "inf"
  | S754_zero s => if s then "-0.0" else "0.0"
  | S754_finite s m e =>
      let '(c, q) := repr_decimal m e in
      let ds := digits_of_Z c in
      (if s then "-" else "")
        ++ render (strip_trailing_zeros ds) (Z.of_nat (List.length ds) + q)
  end.

(** ** [round(x, ndigits)] for a float *)

(** [float.__round__] with [ndigits] given: the decimal with [ndigits]
    fraction digits nearest to [x] (ties to even, on the exact value of
    [x]), read back as a float; [OverflowError] when reading back
    overflows.  Non-finite numbers round to themselves. *)
Definition py_round (x : float) (ndigits : Z) : result float :=
  match x with
  | S754_finite s m e =>
      if 323 <? ndigits then Ok x
      else if ndigits <? -308 then Ok (S754_zero s)
      else
        let n := Qrne (Fabs2Q x * 10 ^ ndigits) in
        match nearest s (dec2Q n (- ndigits)) with
        | S754_infinity _ => Raise OverflowError
        | y => Ok y
        end
  | _ => Ok x
  end.

(** ** Shapes of text, for the facts about reading a float back *)

(** The text does not start with a digit. *)
Definition no_digit_head (s : string) : Prop :=
  match s with
  | String c _ => is_digit c = false
  | EmptyString => True
  end.

(** The characters of a float's text: digits, point, exponent mark,
    signs and the letters of [inf] and [nan]. *)
Definition is_plain (c : ascii) : bool :=
  is_digit c
  || existsb (Ascii.eqb c) ["."; "e"; "+"; "-"; "i"; "n"; "f"; "a"]%char.

Fixpoint all_plain (s : string) : bool :=
  match s with
  | EmptyString => true
  | String c r => is_plain c && all_plain r
  end.

End Builtins.

Import Builtins.

(* ================================================================== *)
(** * Python values, as [json.loads] builds them *)
(* ================================================================== *)

(** A decoded JSON document is a tree of fresh objects: no list or dict
    is shared between two places.  In-place mutation of such a tree is
    therefore modelled by rebuilding it.  A [dict] keeps its keys in
    insertion order. *)

#[local] Set Warnings "-register-all".

Inductive value : Type :=
  | VNone
  | VBool (b : bool)
  | VInt (n : Z)
  | VFloat (x : float)
  | VStr (s : string)
  | VList (l : list value)
  | VDict (d : list (string * value)).

Definition dict : Type := list (string * value).

Module Dict.

Fixpoint get (k : string) (d : dict) : option value :=
  match d with
  | [] => None
  | (k', v) :: r => if String.eqb k' k then Some v else get k r
  end.

(** [d[k] = v]: the value of an existing key is replaced in place, a new
    key goes to the end. *)
Fixpoint set (k : string) (v : value) (d : dict) : dict :=
  match d with
  | [] => [(k, v)]
  | (k', v') :: r =>
      if String.eqb k' k then (k', v) :: r else (k', v') :: set k v r
  end.

Definition keys (d : dict) : list string := map fst d.

End Dict.

Module Obj.

Local Open Scope string_scope.
Local Open Scope Z_scope.

Definition hex_digit (n : Z) : ascii :=
  if n <? 10 then digit_char n else ascii_of_N (Z.to_N (n + 87)).

(** [str.isprintable] on Latin-1. *)
Definition is_printable (c : ascii) : bool :=
  ((32 <=? code c) && (code c <=? 126))
  || ((161 <=? code c) && negb (code c =? 173)).

Definition dquote : ascii := ascii_of_N 34.
Definition squote : ascii := ascii_of_N 39.
Definition backslash : ascii := ascii_of_N 92.

Fixpoint contains (c : ascii) (s : string) : bool :=
  match s with
  | EmptyString => false
  | String c' r => Ascii.eqb c c' || contains c r
  end.

Fixpoint escape (quote : ascii) (s : string) : string :=
  match s with
  | EmptyString => EmptyString
  | String c r =>
      (if Ascii.eqb c backslash || Ascii.eqb c quote
       then String backslash (String c EmptyString)
       else if code c =? 9 then String backslash "t"
       else if code c =? 10 then String backslash "n"
       else if code c =? 13 then String backslash "r"
       else if is_printable c then String c EmptyString
       else String backslash
              (String "x" (String (hex_digit (code c / 16))
                             (String (hex_digit (code c mod 16)) EmptyString))))
      ++ escape quote r
  end.

(** [repr(s)] for a [str]: single quotes, unless the text holds a single
    quote and no double quote. *)
Definition str_repr (s : string) : string :=
  let q := if contains squote s && negb (contains dquote s)
           then dquote else squote in
  String q (escape q s ++ String q EmptyString).

Definition join (sep : string) (l : list string) : string :=
  match l with
  | [] => EmptyString
  | x :: r => fold_left (fun acc y => acc ++ sep ++ y) r x
  end.

Fixpoint py_repr (v : value) : string :=
  match v with
  | VNone => "None"
  | VBool b => if b then "True" else "False"
  | VInt n => str_of_Z n
  | VFloat x => float_repr x
  | VStr s => str_repr s
  | VList l => "[" ++ join ", " (map py_repr l) ++ "]"
  | VDict d =>
      "{" ++ join ", " (map (fun kv => str_repr (fst kv) ++ ": "
                                       ++ py_repr (snd kv)) d) ++ "}"
  end.

(** [str(v)]. *)
Definition py_str (v : value) : string :=
  match v with
  | VStr s => s
  | _ => py_repr v
  end.

(** [o.get(k, default)]: only a dict has the method. *)
Definition py_get (o : value) (k : string) (default : value) : result value :=
  match o with
  | VDict d => Ok (match Dict.get k d with Some v => v | None => default end)
  | _ => Raise AttributeError
  end.

(** [o[k]] for a [str] key [k]. *)
Definition py_getitem (o : value) (k : string) : result value :=
  match o with
  | VDict d => match Dict.get k d with Some v => Ok v | None => Raise KeyError end
  | _ => Raise TypeError
  end.

(** [o[k] = v] for a [str] key [k]; the result is the object afterwards. *)
Definition py_setitem (o : value) (k : string) (v : value) : result value :=
  match o with
  | VDict d => Ok (VDict (Dict.set k v d))
  | _ => Raise TypeError
  end.

(** The items that [for x in o] visits. *)
Definition py_iter (o : value) : result (list value) :=
  match o with
  | VList l => Ok l
  | VStr s => Ok (map (fun c => VStr (String c EmptyString)) (list_ascii_of_string s))
  | VDict d => Ok (map VStr (Dict.keys d))
  | _ => Raise TypeError
  end.

End Obj.

Import Obj.

(* ================================================================== *)
(** * [calculate_summary] *)
(* ================================================================== *)

Module App.

Local Open Scope string_scope.

(** One of the two [try] blocks of the loop body, for the field [key]
    and its running total:
<<
    try:
        x = float(str(inv.get(key, "0")).replace(",", ""))
        inv[key] = round(x, 2)
        total += x
    except ValueError:
        inv[key] = 0.0
>>
    The result is the invoice and the running total afterwards. *)
Definition normalize_field (key : string) (inv : value) (total : float)
  : result (value * float) :=
  try_except
    (v <- py_get inv key (VStr "0") ;;
     x <- py_float (str_replace "," "" (py_str v)) ;;
     r <- py_round x 2 ;;
     inv' <- py_setitem inv key (VFloat r) ;;
     Ok (inv', fadd total x))
    ValueError
    (inv' <- py_setitem inv key (VFloat pos_zero) ;;
     Ok (inv', total)).

(** The [for inv in ...] loop: the invoices afterwards, in order, and
    the two running totals. *)
Fixpoint normalize_invoices (invs : list value) (total_pre_vat total_wht : float)
  : result (list value * float * float) :=
  match invs with
  | [] => Ok ([], total_pre_vat, total_wht)
  | inv :: rest =>
      r1 <- normalize_field "Pre_VAT_Amount" inv total_pre_vat ;;
      r2 <- normalize_field "WHT" (fst r1) total_wht ;;
      r3 <- normalize_invoices rest (snd r1) (snd r2) ;;
      Ok (fst r2 :: fst (fst r3), snd (fst r3), snd r3)
  end.

(** The loop mutates the invoices inside [data]: when the iterated object
    is the list stored under ["Invoices"], [data] holds the normalized
    invoices afterwards.  (The default [[]] of [get] is not stored, and
    iterating a [str] or the keys of a [dict] visits fresh objects.) *)
Definition store_invoices (data invoices : value) (items : list value) : value :=
  match data, invoices with
  | VDict d, VList _ =>
      match Dict.get "Invoices" d with
      | Some _ => VDict (Dict.set "Invoices" (VList items) d)
      | None => data
      end
  | _, _ => data
  end.

(** [data["Summary"][slot] = round(total, 2)]: the right-hand side is
    evaluated first, then [data["Summary"]], then the store. *)
Definition set_total (data : value) (slot : string) (total : float)
  : result value :=
  r <- py_round total 2 ;;
  summary <- py_getitem data "Summary" ;;
  summary' <- py_setitem summary slot (VFloat r) ;;
  py_setitem data "Summary" summary'.

Definition calculate_summary (data : value) : result value :=
  invoices <- py_get data "Invoices" (VList []) ;;
  items <- py_iter invoices ;;
  r <- normalize_invoices items pos_zero pos_zero ;;
  let data1 := store_invoices data invoices (fst (fst r)) in
  data2 <- set_total data1 "Total_Pre_VAT_Amount" (snd (fst r)) ;;
  set_total data2 "Total_WHT" (snd r).

End App.

Import App.

(* ================================================================== *)
(** * [process_one_company] and [process_multiple_companies] *)
(* ================================================================== *)

Module Batch.

Local Open Scope string_scope.

(** An uploaded file, by its bytes. *)
Definition file : Type := string.

Inductive content_part : Type :=
  | TextPart (text : string)
  | ImageUrl (url : string).

(** What the chat-completion call returns, as far as the code reads it:
    the text of the first choice and the token counts, when present. *)
Record completion : Type := {
  message_content : string;
  usage : option (Z * Z * Z)
}.

Inductive message : Type :=
  | WaitingForGPT
  | TokensUsed (prompt_tokens completion_tokens total_tokens : Z)
  | InvalidJSON
  | ProcessingCompany (idx : nat) (n_files : nat).

(** What the user and the endpoint observe, in order. *)
Inductive event : Type :=
  | StWrite (m : message)
  | StError (m : message)
  | StText (raw : string)
  | Stdout (m : message)
  | Request (content : list content_part).

Definition world : Type := list event.

(** The requests sent so far. *)
Fixpoint requests (w : world) : list (list content_part) :=
  match w with
  | [] => []
  | Request c :: r => c :: requests r
  | _ :: r => requests r
  end.

Section Collaborators.

(** [base64.b64encode(...).decode("utf-8")]. *)
Variable b64encode : string -> string.
(** [client.chat.completions.create]: the reply to a request, which may
    depend on the requests answered before. *)
Variable create : list (list content_part) -> list content_part -> completion.
(** [json.loads]: [None] stands for [json.JSONDecodeError]. *)
Variable json_loads : string -> option value.

Definition encode_image_to_base64 (f : file) : string := b64encode f.

Definition request_of (uploaded_files : list file) : list content_part :=
  TextPart "Extract structured JSON from these invoices."
  :: map (fun f => ImageUrl ("data:image/png;base64," ++ encode_image_to_base64 f))
         uploaded_files.

Definition report_usage (r : completion) : list event :=
  match usage r with
  | Some (p, c, t) => [Stdout (TokensUsed p c t); StWrite (TokensUsed p c t)]
  | None => []
  end.

(** The result and the world afterwards; the events are appended in the
    order in which they happen. *)
Definition process_one_company (uploaded_files : list file) (w : world)
  : result value * world :=
  let content := request_of uploaded_files in
  let w1 := (w ++ [StWrite WaitingForGPT])%list in
  let response := create (requests w1) content in
  let w2 := (w1 ++ Request content :: report_usage response)%list in
  let raw_output := message_content response in
  match json_loads raw_output with
  | None => (Raise JSONDecodeError, (w2 ++ [StError InvalidJSON; StText raw_output])%list)
  | Some data => (calculate_summary data, w2)
  end.

(** The loop of [process_multiple_companies], from company number [idx]
    on, with the list [companies] built so far. *)
Fixpoint process_from (idx : nat) (invoice_sets : list (list file))
  (companies : list value) (w : world) : result (list value) * world :=
  match invoice_sets with
  | [] => (Ok companies, w)
  | files :: rest =>
      let w1 := (w ++ [StWrite (ProcessingCompany idx (List.length files))])%list in
      match process_one_company files w1 with
      | (Ok company_data, w2) =>
          process_from (S idx) rest (companies ++ [company_data])%list w2
      | (Raise e, w2) => (Raise e, w2)
      end
  end.

Definition process_multiple_companies (invoice_sets : list (list file))
  (w : world) : result value * world :=
  match process_from 1 invoice_sets [] w with
  | (Ok companies, w') => (Ok (VDict [("companies", VList companies)]), w')
  | (Raise e, w') => (Raise e, w')
  end.

End Collaborators.

(** Sample collaborators: an endpoint that answers its first request
    with a document and every later request with text that is not JSON,
    and a decoder that knows that one document. *)
Definition sample_create (previous : list (list content_part))
  (content : list content_part) : completion :=
  match previous with
  | [] => {| message_content := "document"; usage := Some (12, 34, 46) |}
  | _ => {| message_content := "Sorry, I cannot read these images.";
            usage := None |}
  end.

Definition sample_json_loads (s : string) : option value :=
  if String.eqb s "document"
  then Some (VDict [("Invoices", VList [VDict [("WHT", VStr "1,500")]]);
                    ("Summary", VDict [])])
  else None.

End Batch.

Import Batch.

(* ================================================================== *)
(** * What the normalizer computes, field by field *)
(* ================================================================== *)

Module Spec.

Local Open Scope string_scope.

(** The text-to-number conversion of one monetary value:
    [float(str(v).replace(",", ""))]. *)
Definition amount (v : value) : result float :=
  py_float (str_replace "," "" (py_str v)).

(** [inv.get(key, "0")]. *)
Definition field (key : string) (inv : dict) : value :=
  match Dict.get key inv with
  | Some v => v
  | None => VStr "0"
  end.

(** [round(x, 2)], as a total function; [x] itself stands for the
    overflow that [round] reports by an exception. *)
Definition round2 (x : float) : float :=
  match py_round x 2 with
  | Ok r => r
  | Raise _ => x
  end.

(** The number stored back in a monetary field. *)
Definition normalized (v : value) : float :=
  match amount v with
  | Ok x => round2 x
  | Raise _ => pos_zero
  end.

Definition normalize_invoice (inv : dict) : dict :=
  let inv1 :=
    Dict.set "Pre_VAT_Amount" (VFloat (normalized (field "Pre_VAT_Amount" inv))) inv in
  Dict.set "WHT" (VFloat (normalized (field "WHT" inv1))) inv1.

(** One step of a running total: the parsed amount is added as it was
    parsed, and a value that does not parse adds nothing. *)
Definition add_amount (key : string) (total : float) (inv : dict) : float :=
  match amount (field key inv) with
  | Ok x => fadd total x
  | Raise _ => total
  end.

Definition total_of (key : string) (invs : list dict) : float :=
  fold_left (add_amount key) invs pos_zero.

(** The float sum, in order, of the numbers stored in the field [key] of
    the invoices [invs]. *)
Definition stored_total (key : string) (invs : list value) : float :=
  fold_left (fun acc inv => match inv with
                            | VDict d => match Dict.get key d with
                                         | Some (VFloat y) => fadd acc y
                                         | _ => acc
                                         end
                            | _ => acc
                            end) invs pos_zero.

(** The input contract on ["Invoices"]: absent, or a list of dicts. *)
Definition invoices_are (d : dict) (invs : list dict) : Prop :=
  Dict.get "Invoices" d = Some (VList (map VDict invs))
  \/ (Dict.get "Invoices" d = None /\ invs = []).

(** [data] after the loop. *)
Definition with_invoices (d : dict) (invs : list dict) : dict :=
  match Dict.get "Invoices" d with
  | Some _ => Dict.set "Invoices" (VList (map VDict invs)) d
  | None => d
  end.

Definition with_totals (sm : dict) (total_pre_vat total_wht : float) : dict :=
  Dict.set "Total_WHT" (VFloat total_wht)
    (Dict.set "Total_Pre_VAT_Amount" (VFloat total_pre_vat) sm).

(** Readers of a result. *)
Definition invoices_of (data : value) : list value :=
  match data with
  | VDict d => match Dict.get "Invoices" d with
               | Some (VList l) => l
               | _ => []
               end
  | _ => []
  end.

Definition summary_slot (slot : string) (data : value) : option value :=
  match data with
  | VDict d => match Dict.get "Summary" d with
               | Some (VDict sm) => Dict.get slot sm
               | _ => None
               end
  | _ => None
  end.

Definition is_negative (x : float) : bool :=
  match x with
  | S754_zero s | S754_infinity s | S754_finite s _ _ => s
  | S754_nan => false
  end.

Definition is_finite (x : float) : bool :=
  match x with
  | S754_zero _ | S754_finite _ _ _ => true
  | _ => false
  end.

(** Two invoices of 1.004 each, with 0.004 withheld on each. *)
Definition rounding_example : value :=
  VDict [("Receiver", VStr "ABC");
         ("Invoices",
          VList [VDict [("Invoice_No", VStr "INV-Temp");
                        ("Pre_VAT_Amount", VStr "1.004"); ("WHT", VStr "0.004")];
                 VDict [("Invoice_No", VStr "INV-Temp");
                        ("Pre_VAT_Amount", VStr "1.004"); ("WHT", VStr "0.004")]]);
         ("Summary",
          VDict [("Total_Pre_VAT_Amount", VFloat pos_zero);
                 ("Total_WHT", VFloat pos_zero)])].

(** One invoice with a negative amount and an infinite withholding. *)
Definition negative_example : value :=
  VDict [("Invoices",
          VList [VDict [("Pre_VAT_Amount", VStr "-5"); ("WHT", VStr "inf")]]);
         ("Summary",
          VDict [("Total_Pre_VAT_Amount", VFloat pos_zero);
                 ("Total_WHT", VFloat pos_zero)])].

(** The three invoices of the prompt's example, with a thousands
    separator in the first amount and a withholding that is not a
    number in the second. *)
Definition prompt_invoices : list dict :=
  [[("Invoice_No", VStr "INV-Temp"); ("Pre_VAT_Amount", VStr "50,000");
    ("WHT", VInt 1500)];
   [("Invoice_No", VStr "INV-Temp"); ("Pre_VAT_Amount", VInt 60000);
    ("WHT", VStr "N/A")];
   [("Invoice_No", VStr "INV-Temp"); ("Pre_VAT_Amount", VInt 80000);
    ("WHT", VInt 2400)]].

Definition prompt_summary : dict :=
  [("Total_Pre_VAT_Amount", VFloat pos_zero); ("Total_WHT", VFloat pos_zero)].

Definition prompt_example : dict :=
  [("Receiver", VStr "ABC Company");
   ("Invoices", VList (map VDict prompt_invoices));
   ("Summary", VDict prompt_summary)].

End Spec.

Import Spec.

(* ================================================================== *)
(** * Kinds of values and of events *)
(* ================================================================== *)

Module Kinds.

Definition is_dict (v : value) : bool :=
  match v with
  | VDict _ => true
  | _ => false
  end.

(** What a [for] loop accepts. *)
Definition is_iterable (v : value) : bool :=
  match v with
  | VStr _ | VList _ | VDict _ => true
  | _ => false
  end.

(** The values whose text may be a number. *)
Definition is_numeric_or_text (v : value) : bool :=
  match v with
  | VInt _ | VFloat _ | VStr _ => true
  | _ => false
  end.

(** The two events by which [process_one_company] reports a reply that
    is not JSON. *)
Definition is_error_event (ev : event) : bool :=
  match ev with
  | StError _ | StText _ => true
  | _ => false
  end.

(** A monetary value that rounding to two decimals leaves as it is, or
    that does not parse. *)
Definition two_decimal (v : value) : Prop :=
  match amount v with
  | Ok x => round2 x = x
  | Raise _ => True
  end.

(** [float(n)] for an integer [n], rounded to nearest. *)
Definition float_of_Z (n : Z) : float :=
  nearest (n <? 0) (inject_Z (Z.abs n)).

Definition Zsum (ns : list Z) : Z := fold_right Z.add 0 ns.

End Kinds.

Import Kinds.

(* ================================================================== *)
(** * [base64.b64encode] *)
(* ================================================================== *)

(** The standard Base64 encoding (RFC 4648) that
    [encode_image_to_base64] applies to the bytes of a file; the result
    is ASCII, so that [.decode("utf-8")] is the text with the same
    characters. *)

Module Base64.

Local Open Scope string_scope.
Local Open Scope Z_scope.

Definition alphabet : string :=
  "ABCDEFGHIJKLMNOPQRSTUVWXYZabcdefghijklmnopqrstuvwxyz0123456789+/".

(** The character of the 6-bit value [n]. *)
Definition b64_char (n : Z) : ascii :=
  match String.get (Z.to_nat n) alphabet with
  | Some c => c
  | None => "="%char
  end.

Fixpoint b64encode (s : string) : string :=
  match s with
  | EmptyString => EmptyString
  | String a EmptyString =>
      String (b64_char (code a / 4))
        (String (b64_char (code a mod 4 * 16)) "==")
  | String a (String b EmptyString) =>
      String (b64_char (code a / 4))
        (String (b64_char (code a mod 4 * 16 + code b / 16))
           (String (b64_char (code b mod 16 * 4)) "="))
  | String a (String b (String c r)) =>
      String (b64_char (code a / 4))
        (String (b64_char (code a mod 4 * 16 + code b / 16))
           (String (b64_char (code b mod 16 * 4 + code c / 64))
              (String (b64_char (code c mod 64)) (b64encode r))))
  end.

(** The 6-bit value of a character of the alphabet. *)
Definition b64_index (c : ascii) : option Z :=
  if (65 <=? code c) && (code c <=? 90) then Some (code c - 65)
  else if (97 <=? code c) && (code c <=? 122) then Some (code c - 71)
  else if (48 <=? code c) && (code c <=? 57) then Some (code c + 4)
  else if code c =? 43 then Some 62
  else if code c =? 47 then Some 63
  else None.

Definition byte (n : Z) : ascii := ascii_of_N (Z.to_N n).

(** The inverse of [b64encode], on texts that it produces. *)
Fixpoint b64decode (fuel : nat) (s : string) : option string :=
  match fuel, s with
  | _, EmptyString => Some EmptyString
  | S f, String c1 (String c2 (String c3 (String c4 r))) =>
      match b64_index c1, b64_index c2 with
      | Some s1, Some s2 =>
          let a := byte (s1 * 4 + s2 / 16) in
          match b64_index c3, b64_index c4, r with
          | Some s3, Some s4, _ =>
              match b64decode f r with
              | Some t =>
                  Some (String a (String (byte (s2 mod 16 * 16 + s3 / 4))
                                    (String (byte (s3 mod 4 * 64 + s4)) t)))
              | None => None
              end
          | Some s3, None, EmptyString =>
              if Ascii.eqb c4 "=" then
                Some (String a (String (byte (s2 mod 16 * 16 + s3 / 4)) EmptyString))
              else None
          | None, None, EmptyString =>
              if Ascii.eqb c3 "=" && Ascii.eqb c4 "=" then Some (String a EmptyString)
              else None
          | _, _, _ => None
          end
      | _, _ => None
      end
  | _, _ => None
  end.

(** The characters that an encoded text is made of. *)
Definition is_b64_char (c : ascii) : bool :=
  match b64_index c with
  | Some _ => true
  | None => Ascii.eqb c "="
  end.

Fixpoint string_forall (p : ascii -> bool) (s : string) : bool :=
  match s with
  | EmptyString => true
  | String c r => p c && string_forall p r
  end.

End Base64.

Import Base64.

(* ================================================================== *)
(** * The page: one run of the script *)
(* ================================================================== *)

(** Streamlit runs the script from its first line to its last on every
    interaction.  A run reads the session state and the widgets, may
    change the session state, and ends normally, by [st.rerun()] or by an
    exception.  What the widgets return in a run is given from outside. *)

Module Page.

Local Open Scope string_scope.

(** What a run reads from the browser: the three kinds of buttons and,
    for each company index, the files of its uploader. *)
Record inputs : Type := {
  add_clicked : bool;
  uploaded : nat -> list file;
  delete_clicked : nat -> bool;
  process_clicked : bool
}.

Inductive shown : Type :=
  | Title
  | Intro
  | CompanyHeader (number : nat)
  | FromBatch (e : event)
  | FinalHeader
  | StJson (result : value)
  | DownloadButton (data : string)
  | Warning.

Inductive failure : Type :=
  | NameError
  | Escaped (e : exn).

Inductive outcome : Type :=
  | Completed
  | Rerun
  | Failed (f : failure).

(** After a run: [st.session_state.invoice_sets] ([None] while the key
    is not in the session state), what the run has put on the page, with
    the events of the batch in the order in which they happened, the
    events of all batches so far, and how the run ended. *)
Record run_result : Type := {
  state : option (list (list file));
  page : list shown;
  history : world;
  outcome_of : outcome
}.

(** [st.secrets.get("OPENAI_API_KEY") or os.environ.get(...)], where
    [secret] is what [st.secrets.get] returns ([None] when the key is not
    among the secrets): the secret when it is a non-empty text.
    Otherwise the right operand is evaluated, and it names [os], which
    the script never imports: [None] stands for the resulting
    [NameError]. *)
Definition api_key (secret : option string) : option string :=
  match secret with
  | Some (String c r) => Some (String c r)
  | _ => None
  end.

(** The loop over the companies, from index [i] on: a non-empty upload
    replaces the files of its company, and the index of a clicked delete
    button is noted (the last one, should there be several).  The result
    is the groups afterwards, the headers shown and the index noted. *)
Fixpoint uploaders (i : nat) (groups : list (list file)) (inp : inputs)
  (to_delete : option nat) : list (list file) * list shown * option nat :=
  match groups with
  | [] => ([], [], to_delete)
  | invoice_files :: rest =>
      let files := match uploaded inp i with
                   | [] => invoice_files
                   | f :: more => f :: more
                   end in
      let to_delete' := if delete_clicked inp i then Some i else to_delete in
      let r := uploaders (S i) rest inp to_delete' in
      (files :: fst (fst r), CompanyHeader (S i) :: snd (fst r), snd r)
  end.

(** [del l[i]]. *)
Definition remove_at {A : Type} (i : nat) (l : list A) : list A :=
  (firstn i l ++ skipn (S i) l)%list.

(** [any(invoice_sets)]: some group holds a file. *)
Definition any_files (groups : list (list file)) : bool :=
  existsb (fun g => match g with [] => false | _ => true end) groups.

Section Script.

Variable b64encode : string -> string.
Variable create : list (list content_part) -> list content_part -> completion.
Variable json_loads : string -> option value.
(** [json.dumps(result, indent=2, ensure_ascii=False)]. *)
Variable json_dumps : value -> string.

Definition run (secret : option string) (ss : option (list (list file)))
  (w : world) (inp : inputs) : run_result :=
  match api_key secret with
  | None => {| state := ss; page := []; history := w;
               outcome_of := Failed NameError |}
  | Some _ =>
      let invoice_sets := match ss with
                          | None => [[]]
                          | Some groups => groups
                          end in
      if add_clicked inp then
        {| state := Some (invoice_sets ++ [[]])%list; page := [Title; Intro];
           history := w; outcome_of := Rerun |}
      else
        let r := uploaders 0 invoice_sets inp None in
        let groups := fst (fst r) in
        let top := ([Title; Intro] ++ snd (fst r))%list in
        match snd r with
        | Some i =>
            {| state := Some (match remove_at i groups with
                              | [] => [[]]
                              | remaining => remaining
                              end);
               page := top; history := w; outcome_of := Rerun |}
        | None =>
            if process_clicked inp then
              if any_files groups then
                let b := process_multiple_companies b64encode create json_loads
                           groups w in
                let batch := map FromBatch (skipn (List.length w) (snd b)) in
                match fst b with
                | Ok result =>
                    {| state := Some groups;
                       page := (top ++ batch
                                ++ [FinalHeader; StJson result;
                                    DownloadButton (json_dumps result)])%list;
                       history := snd b; outcome_of := Completed |}
                | Raise e =>
                    {| state := Some groups; page := (top ++ batch)%list;
                       history := snd b; outcome_of := Failed (Escaped e) |}
                end
              else
                {| state := Some groups; page := (top ++ [Warning])%list;
                   history := w; outcome_of := Completed |}
            else
              {| state := Some groups; page := top; history := w;
                 outcome_of := Completed |}
        end
  end.


(** [st.session_state.invoice_sets] once the script has passed its
    initialisation. *)
Definition session_groups (ss : option (list (list file))) : list (list file) :=
  match ss with
  | None => [[]]
  | Some groups => groups
  end.

(** A session: one run per interaction, each starting from the session
    state and the history that the previous one left. *)
Fixpoint session (secret : option string) (ss : option (list (list file)))
  (w : world) (interactions : list inputs) : option (list (list file)) * world :=
  match interactions with
  | [] => (ss, w)
  | inp :: rest =>
      let r := run secret ss w inp in
      session secret (state r) (history r) rest
  end.

End Script.

(** The number of interactions that click "Add another company". *)
Definition count_adds (interactions : list inputs) : nat :=
  List.length (filter add_clicked interactions).

(** The final output: header, JSON view and download button. *)
Definition is_output (s : shown) : bool :=
  match s with
  | FinalHeader | StJson _ | DownloadButton _ => true
  | _ => false
  end.

(** The groups after the uploads of a run, from index [i] on. *)
Fixpoint after_uploads (i : nat) (groups : list (list file)) (inp : inputs)
  : list (list file) :=
  match groups with
  | [] => []
  | g :: rest =>
      match uploaded inp i with
      | [] => g
      | f :: more => f :: more
      end :: after_uploads (S i) rest inp
  end.

(** The session state that the script itself can reach: not yet set, or
    at least one group. *)
Definition reachable (ss : option (list (list file))) : Prop :=
  match ss with
  | None => True
  | Some groups => groups <> []
  end.

(** No delete button below index [n] is clicked. *)
Definition no_delete (inp : inputs) (n : nat) : Prop :=
  forall i, (i < n)%nat -> delete_clicked inp i = false.

(** Sample inputs: nothing clicked, one file in the first uploader. *)
Definition idle : inputs :=
  {| add_clicked := false;
     uploaded := fun i => match i with O => ["a.png"] | _ => [] end;
     delete_clicked := fun _ => false;
     process_clicked := false |}.

Definition click_delete (i : nat) : inputs :=
  {| add_clicked := false;
     uploaded := fun _ => [];
     delete_clicked := Nat.eqb i;
     process_clicked := false |}.

Definition click_process : inputs :=
  {| add_clicked := false;
     uploaded := fun i => match i with O => ["a.png"] | _ => [] end;
     delete_clicked := fun _ => false;
     process_clicked := true |}.

End Page.

Import Page.

(* ================================================================== *)
(** * Facts about binary64 rounding *)
(* ================================================================== *)

Module FloatFacts.

Local Open Scope Q_scope.

Lemma pow2_pos (e : Z) : 0 < 2 ^ e.
Proof. apply Qpower_0_lt. reflexivity. Qed.

Lemma pow2_add (a b : Z) : 2 ^ (a + b) == 2 ^ a * 2 ^ b.
Proof. apply Qpower_plus. discriminate. Qed.

Lemma pow2_le (a b : Z) : (a <= b)%Z -> 2 ^ a <= 2 ^ b.
Proof. intros H. apply Qpower_le_compat_l; [exact H | discriminate]. Qed.

Lemma pow2_lt (a b : Z) : (a < b)%Z -> 2 ^ a < 2 ^ b.
Proof. intros H. apply Qpower_lt_compat_l; [exact H | reflexivity]. Qed.

Lemma pow2_inject (n : Z) : (0 <= n)%Z -> inject_Z (2 ^ n) == 2 ^ n.
Proof. intros H. rewrite Zpower_Qpower by exact H. reflexivity. Qed.

Lemma pow2_lt_inv (a b : Z) : 2 ^ a < 2 ^ b -> (a < b)%Z.
Proof.
  intros H. destruct (Z_lt_le_dec a b) as [Hlt | Hle]; [exact Hlt |].
  apply pow2_le in Hle. exfalso. exact (Qlt_not_le _ _ H Hle).
Qed.

(** ** Rounding to the nearest integer *)

Lemma Qrne_comp (x y : Q) : x == y -> Qrne x = Qrne y.
Proof.
  intros H. unfold Qrne. rewrite (Qfloor_comp _ _ H).
  assert (E : (x - inject_Z (Qfloor y) ?= 1 # 2) = (y - inject_Z (Qfloor y) ?= 1 # 2)).
  { apply Qcompare_comp; [rewrite H |]; reflexivity. }
  rewrite E. reflexivity.
Qed.

Lemma Qrne_bounds (x : Q) :
  inject_Z (Qrne x) - (1 # 2) <= x <= inject_Z (Qrne x) + (1 # 2).
Proof.
  unfold Qrne.
  pose proof (Qfloor_le x) as Hlo. pose proof (Qlt_floor x) as Hhi.
  rewrite inject_Z_plus in Hhi. change (inject_Z 1) with 1 in Hhi.
  destruct (Qcompare_spec (x - inject_Z (Qfloor x)) (1 # 2)) as [E | E | E];
    [destruct (Z.even (Qfloor x)) | |];
    rewrite ?inject_Z_plus; change (inject_Z 1) with 1; lra.
Qed.

Lemma Qrne_unique (x : Q) (n : Z) :
  inject_Z n - (1 # 2) < x < inject_Z n + (1 # 2) -> Qrne x = n.
Proof.
  intros [Hlo Hhi]. pose proof (Qrne_bounds x) as [Blo Bhi].
  assert (H1 : inject_Z (Qrne x) < inject_Z n + 1) by lra.
  assert (H2 : inject_Z n < inject_Z (Qrne x) + 1) by lra.
  change 1 with (inject_Z 1) in H1, H2. rewrite <- inject_Z_plus in H1, H2.
  rewrite <- Zlt_Qlt in H1, H2. lia.
Qed.

Lemma Qrne_inject (n : Z) : Qrne (inject_Z n) = n.
Proof. apply Qrne_unique. lra. Qed.

Lemma Qrne_le_inject (x : Q) (n : Z) : x <= inject_Z n -> (Qrne x <= n)%Z.
Proof.
  intros H. pose proof (Qrne_bounds x) as [Blo _].
  assert (H1 : inject_Z (Qrne x) < inject_Z n + 1) by lra.
  change 1 with (inject_Z 1) in H1. rewrite <- inject_Z_plus in H1.
  rewrite <- Zlt_Qlt in H1. lia.
Qed.

Lemma Qrne_ge_inject (x : Q) (n : Z) : inject_Z n <= x -> (n <= Qrne x)%Z.
Proof.
  intros H. pose proof (Qrne_bounds x) as [_ Bhi].
  assert (H1 : inject_Z n < inject_Z (Qrne x) + 1) by lra.
  change 1 with (inject_Z 1) in H1. rewrite <- inject_Z_plus in H1.
  rewrite <- Zlt_Qlt in H1. lia.
Qed.


(** ** The binary logarithm of a rational *)

Lemma Qmake_mult_den (p : Z) (q : positive) :
  (p # q) * inject_Z (Zpos q) == inject_Z p.
Proof. unfold Qeq, Qmult, inject_Z. simpl. lia. Qed.

Lemma Zlog2_pow2_bounds (n : Z) :
  (0 < n)%Z -> 2 ^ Z.log2 n <= inject_Z n /\ inject_Z n < 2 ^ (Z.log2 n + 1).
Proof.
  intros Hn. pose proof (Z.log2_spec n Hn) as [Hlo Hhi].
  pose proof (Z.log2_nonneg n) as Hnn.
  rewrite <- !pow2_inject by lia. rewrite <- Zle_Qle, <- Zlt_Qlt.
  replace (Z.succ (Z.log2 n)) with (Z.log2 n + 1)%Z in Hhi by lia. auto.
Qed.

Lemma Qlog2_spec (x : Q) :
  0 < x -> 2 ^ Qlog2 x <= x /\ x < 2 ^ (Qlog2 x + 1).
Proof.
  intros Hx. destruct x as [p q].
  assert (Hp : (0 < p)%Z) by (unfold Qlt in Hx; simpl in Hx; lia).
  unfold Qlog2. cbn [Qnum Qden].
  pose proof (Zlog2_pow2_bounds p Hp) as [Pa Pb].
  pose proof (Zlog2_pow2_bounds (Zpos q) eq_refl) as [Qa Qb].
  pose proof (Qmake_mult_den p q) as Hm.
  set (a := Z.log2 p) in *. set (b := Z.log2 (Zpos q)) in *.
  set (x := p # q) in *. set (P := inject_Z p) in *.
  set (D := inject_Z (Zpos q)) in *.
  assert (HD : 0 < D) by (pose proof (pow2_pos b); lra).
  destruct (Qle_bool (2 ^ (a - b)) x) eqn:Hb.
  - apply Qle_bool_iff in Hb. split; [exact Hb |].
    apply (Qmult_lt_r _ _ D HD). rewrite Hm.
    assert (E : 2 ^ (a - b + 1) * 2 ^ b == 2 ^ (a + 1)).
    { rewrite <- pow2_add. replace (a - b + 1 + b)%Z with (a + 1)%Z by lia. reflexivity. }
    assert (H1 : 2 ^ (a - b + 1) * 2 ^ b <= 2 ^ (a - b + 1) * D).
    { apply Qmult_le_l; [apply pow2_pos | exact Qa]. }
    lra.
  - assert (Hlt : x < 2 ^ (a - b)).
    { apply Qnot_le_lt. intros H. apply Qle_bool_iff in H. congruence. }
    split.
    + apply (Qmult_le_r _ _ D HD). rewrite Hm.
      assert (E : 2 ^ (a - b - 1) * 2 ^ (b + 1) == 2 ^ a).
      { rewrite <- pow2_add. replace (a - b - 1 + (b + 1))%Z with a by lia. reflexivity. }
      assert (H1 : 2 ^ (a - b - 1) * D <= 2 ^ (a - b - 1) * 2 ^ (b + 1)).
      { apply Qmult_le_l; [apply pow2_pos | lra]. }
      lra.
    + replace (a - b - 1 + 1)%Z with (a - b)%Z by lia. exact Hlt.
Qed.

Lemma Qlog2_unique (x : Q) (k : Z) :
  2 ^ k <= x -> x < 2 ^ (k + 1) -> Qlog2 x = k.
Proof.
  intros Hlo Hhi.
  assert (Hx : 0 < x) by (pose proof (pow2_pos k); lra).
  pose proof (Qlog2_spec x Hx) as [Slo Shi].
  assert (H1 : (k < Qlog2 x + 1)%Z) by (apply pow2_lt_inv; lra).
  assert (H2 : (Qlog2 x < k + 1)%Z) by (apply pow2_lt_inv; lra).
  lia.
Qed.

Lemma Qlog2_comp (x y : Q) : 0 < x -> x == y -> Qlog2 x = Qlog2 y.
Proof.
  intros Hx E. symmetry. pose proof (Qlog2_spec x Hx) as [Slo Shi].
  apply Qlog2_unique; rewrite <- E; assumption.
Qed.


(** ** Canonical mantissas *)

Lemma digits2_bounds (p : positive) :
  (2 ^ (Zpos (digits2_pos p) - 1) <= Zpos p < 2 ^ Zpos (digits2_pos p))%Z.
Proof.
  induction p as [p IH | p IH |]; cbn [digits2_pos]; [| | cbn; lia].
  all: rewrite Pos2Z.inj_succ;
    replace (Z.succ (Zpos (digits2_pos p)) - 1)%Z with (Z.succ (Zpos (digits2_pos p) - 1)) by lia;
    rewrite !Z.pow_succ_r by lia; lia.
Qed.

Lemma digits2_unique (p : positive) (d : Z) :
  (2 ^ (d - 1) <= Zpos p < 2 ^ d)%Z -> (1 <= d)%Z -> Zpos (digits2_pos p) = d.
Proof.
  intros [Hlo Hhi] Hd. pose proof (digits2_bounds p) as [Blo Bhi].
  set (k := Zpos (digits2_pos p)) in *.
  assert (Hk : (1 <= k)%Z) by (subst k; lia).
  destruct (Z.lt_trichotomy k d) as [H | [H | H]]; [| exact H |]; exfalso.
  - assert (2 ^ k <= 2 ^ (d - 1))%Z by (apply Z.pow_le_mono_r; lia). lia.
  - assert (2 ^ d <= 2 ^ (k - 1))%Z by (apply Z.pow_le_mono_r; lia). lia.
Qed.

Lemma bounded_normal (p : positive) (e : Z) :
  (2 ^ 52 <= Zpos p < 2 ^ 53)%Z -> (-1074 <= e <= 971)%Z ->
  bounded prec emax p e = true.
Proof.
  intros Hp He. unfold bounded, canonical_mantissa, fexp, SpecFloat.emin, prec, emax.
  rewrite (digits2_unique p 53) by (cbn; lia).
  apply andb_true_intro. split; [apply Z.eqb_eq | apply Z.leb_le]; lia.
Qed.

Lemma bounded_subnormal (p : positive) :
  (Zpos p < 2 ^ 52)%Z -> bounded prec emax p (-1074) = true.
Proof.
  intros Hp. unfold bounded, canonical_mantissa, fexp, SpecFloat.emin, prec, emax.
  pose proof (digits2_bounds p) as [Blo Bhi].
  assert (Hd : (Zpos (digits2_pos p) <= 52)%Z).
  { destruct (Z_le_gt_dec (Zpos (digits2_pos p)) 52) as [H | H]; [exact H | exfalso].
    assert (2 ^ 52 <= 2 ^ (Zpos (digits2_pos p) - 1))%Z by (apply Z.pow_le_mono_r; lia).
    lia. }
  apply andb_true_intro. split; [apply Z.eqb_eq | apply Z.leb_le]; lia.
Qed.

(** A valid finite float is normal or subnormal. *)
Lemma bounded_inv (p : positive) (e : Z) :
  bounded prec emax p e = true ->
  (e <= 971)%Z /\
  ((2 ^ 52 <= Zpos p < 2 ^ 53 /\ -1074 <= e)%Z
   \/ (Zpos p < 2 ^ 52 /\ e = -1074)%Z).
Proof.
  unfold bounded, canonical_mantissa, fexp, SpecFloat.emin, prec, emax.
  intros H. apply andb_prop in H as [Hc He].
  apply Z.eqb_eq in Hc. apply Z.leb_le in He.
  pose proof (digits2_bounds p) as [Blo Bhi].
  set (d := Zpos (digits2_pos p)) in *.
  assert (Hd : (1 <= d)%Z) by (subst d; lia).
  split; [lia |].
  destruct (Z_lt_le_dec d 53) as [Hlt | Hge].
  - right. split; [| lia].
    assert (2 ^ d <= 2 ^ 52)%Z by (apply Z.pow_le_mono_r; lia). lia.
  - left. assert (E : d = 53%Z) by lia.
    rewrite E in Blo, Bhi. cbn in Blo, Bhi. cbn. lia.
Qed.


(** ** Rounding to the nearest binary64 number *)

Lemma scaled_ge (x : Q) (k e : Z) : 2 ^ k <= x -> 2 ^ (k - e) <= x / 2 ^ e.
Proof.
  intros H. rewrite Qpower_minus by discriminate. unfold Qdiv.
  apply Qmult_le_r; [apply Qinv_lt_0_compat, pow2_pos | exact H].
Qed.

Lemma scaled_lt (x : Q) (k e : Z) : x < 2 ^ k -> x / 2 ^ e < 2 ^ (k - e).
Proof.
  intros H. rewrite Qpower_minus by discriminate. unfold Qdiv.
  apply Qmult_lt_r; [apply Qinv_lt_0_compat, pow2_pos | exact H].
Qed.

Lemma scaled_exact (m : Q) (e : Z) : m * 2 ^ e / 2 ^ e == m.
Proof. apply Qdiv_mult_l. pose proof (pow2_pos e). lra. Qed.

Lemma nearest_unfold (s : bool) (x : Q) :
  0 < x ->
  nearest s x =
    let '(m, e) := if (mantissa_of x =? 2 ^ prec)%Z
                   then (2 ^ (prec - 1), exponent_of x + 1)%Z
                   else (mantissa_of x, exponent_of x) in
    match m with
    | Zpos p => if (e <=? emax - prec)%Z then S754_finite s p e else S754_infinity s
    | _ => S754_zero s
    end.
Proof.
  intros Hx. unfold nearest.
  destruct (Qle_bool x 0) eqn:E; [apply Qle_bool_iff in E; lra | reflexivity].
Qed.

Lemma mantissa_bounds (x : Q) :
  0 < x ->
  (0 <= mantissa_of x <= 2 ^ 53)%Z
  /\ ((-1074 <= Qlog2 x - 52)%Z -> (2 ^ 52 <= mantissa_of x)%Z)
  /\ ((Qlog2 x - 52 < -1074)%Z -> (mantissa_of x <= 2 ^ 52)%Z).
Proof.
  intros Hx. pose proof (Qlog2_spec x Hx) as [Slo Shi].
  unfold mantissa_of, exponent_of, prec, emin.
  set (L := Qlog2 x) in *. set (e := Z.max (L - (53 - 1)) (-1074)).
  pose proof (scaled_ge x L e Slo) as Hlo.
  pose proof (scaled_lt x (L + 1) e Shi) as Hhi.
  assert (Hpos : 0 <= x / 2 ^ e) by (pose proof (pow2_pos (L - e)); lra).
  repeat split.
  - apply (Qrne_ge_inject _ 0). exact Hpos.
  - apply Qrne_le_inject. rewrite pow2_inject by lia.
    assert (2 ^ (L + 1 - e) <= 2 ^ 53) by (apply pow2_le; lia). lra.
  - intros Hn. apply Qrne_ge_inject. rewrite pow2_inject by lia.
    assert (2 ^ 52 <= 2 ^ (L - e)) by (apply pow2_le; lia). lra.
  - intros Hs. apply Qrne_le_inject. rewrite pow2_inject by lia.
    assert (2 ^ (L + 1 - e) <= 2 ^ 52) by (apply pow2_le; lia). lra.
Qed.

Lemma exponent_ge_emin (x : Q) : (-1074 <= exponent_of x)%Z.
Proof. unfold exponent_of, emin. lia. Qed.

Theorem nearest_valid (s : bool) (x : Q) : is_valid (nearest s x) = true.
Proof.
  unfold nearest. destruct (Qle_bool x 0) eqn:E; [reflexivity |].
  assert (Hx : 0 < x).
  { apply Qnot_le_lt. intros H. apply Qle_bool_iff in H. congruence. }
  pose proof (mantissa_bounds x Hx) as (Hm & Hn & Hs).
  pose proof (exponent_ge_emin x) as He.
  fold (exponent_of x). fold (mantissa_of x).
  destruct (Z.eqb_spec (mantissa_of x) (2 ^ prec)) as [E53 | N53].
  - cbn [Z.pow Z.pow_pos Pos.iter Z.mul Pos.mul prec Z.sub Z.add Z.opp Z.pos_sub].
    change (2 ^ (53 - 1))%Z with 4503599627370496%Z. cbv beta iota.
    destruct (Z.leb_spec (exponent_of x + 1) (emax - prec)) as [Hle | Hgt];
      [| reflexivity].
    unfold is_valid, valid_binary. apply bounded_normal; [cbn; lia |].
    unfold emax, prec in Hle. lia.
  - destruct (mantissa_of x) as [| p | p] eqn:Em; [reflexivity | | reflexivity].
    destruct (Z.leb_spec (exponent_of x) (emax - prec)) as [Hle | Hgt];
      [| reflexivity].
    unfold is_valid, valid_binary. unfold emax, prec in Hle, N53.
    destruct (Z_le_gt_dec (-1074) (Qlog2 x - 52)) as [Hnorm | Hsub].
    + apply bounded_normal; [| lia]. specialize (Hn Hnorm). 
      change (2 ^ 53)%Z with 9007199254740992%Z in *. 
      change (2 ^ 52)%Z with 4503599627370496%Z in *. lia.
    + assert (Hs' : (Zpos p <= 2 ^ 52)%Z) by (apply Hs; lia).
      assert (Ee : exponent_of x = (-1074)%Z) by (unfold exponent_of, prec, emin; lia).
      rewrite Ee. destruct (Z.eq_dec (Zpos p) (2 ^ 52)) as [E52 | N52].
      * apply bounded_normal; [rewrite E52; cbn; lia | lia].
      * apply bounded_subnormal. lia.
Qed.

Lemma nearest_comp (s : bool) (x y : Q) : x == y -> nearest s x = nearest s y.
Proof.
  intros E. unfold nearest. rewrite (Qleb_comp x y E 0 0 (Qeq_refl 0)).
  destruct (Qle_bool y 0) eqn:Hy; [reflexivity |].
  assert (Hx : 0 < x).
  { rewrite E. apply Qnot_le_lt. intros H. apply Qle_bool_iff in H. congruence. }
  assert (Ee : exponent_of x = exponent_of y).
  { unfold exponent_of. rewrite (Qlog2_comp x y Hx E). reflexivity. }
  assert (Em : mantissa_of x = mantissa_of y).
  { unfold mantissa_of. rewrite Ee. apply Qrne_comp. rewrite E. reflexivity. }
  rewrite Ee, Em. reflexivity.
Qed.

(** A binary64 number is the nearest one to its own value. *)
Theorem nearest_id (s : bool) (m : positive) (e : Z) :
  is_valid (S754_finite s m e) = true ->
  nearest s (Fabs2Q (S754_finite s m e)) = S754_finite s m e.
Proof.
  unfold is_valid, valid_binary. intros Hv.
  apply bounded_inv in Hv as [He Hcases]. cbn [Fabs2Q].
  set (x := inject_Z (Zpos m) * 2 ^ e).
  assert (Hm : 0 < inject_Z (Zpos m)) by (rewrite <- (Zlt_Qlt 0); lia).
  assert (Hx : 0 < x).
  { unfold x. apply Qmult_lt_0_compat; [exact Hm | apply pow2_pos]. }
  assert (Ee : exponent_of x = e).
  { unfold exponent_of, prec, emin. destruct Hcases as [[[Hlo Hhi] Hge] | [Hlt Ee]].
    - assert (EL : Qlog2 x = (52 + e)%Z).
      { apply Qlog2_unique; unfold x.
        - rewrite pow2_add. apply Qmult_le_r; [apply pow2_pos |].
          rewrite <- pow2_inject by lia. rewrite <- Zle_Qle. exact Hlo.
        - replace (52 + e + 1)%Z with (53 + e)%Z by lia.
          rewrite pow2_add. apply Qmult_lt_r; [apply pow2_pos |].
          rewrite <- pow2_inject by lia. rewrite <- Zlt_Qlt. exact Hhi. }
      rewrite EL. lia.
    - pose proof (Qlog2_spec x Hx) as [Slo _].
      assert (Hxlt : x < 2 ^ (52 + e)).
      { unfold x. rewrite pow2_add. apply Qmult_lt_r; [apply pow2_pos |].
        rewrite <- pow2_inject by lia. rewrite <- Zlt_Qlt. exact Hlt. }
      assert (Qlog2 x < 52 + e)%Z by (apply pow2_lt_inv; lra).
      lia. }
  assert (Em : mantissa_of x = Zpos m).
  { unfold mantissa_of. rewrite Ee. unfold x.
    rewrite (Qrne_comp _ _ (scaled_exact _ _)). apply Qrne_inject. }
  rewrite (nearest_unfold s x Hx), Em, Ee.
  assert (N53 : (Zpos m =? 2 ^ prec)%Z = false).
  { apply Z.eqb_neq. unfold prec. change (2 ^ 53)%Z with 9007199254740992%Z.
    change (2 ^ 52)%Z with 4503599627370496%Z in Hcases. 
    change (2 ^ 53)%Z with 9007199254740992%Z in Hcases. lia. }
  rewrite N53. 
  destruct (Z.leb_spec e (emax - prec)) as [_ | Hgt]; [reflexivity |].
  unfold emax, prec in Hgt. lia.
Qed.


(** The value of a rounded number and the rounding error. *)
Lemma nearest_finite_inv (s : bool) (x : Q) (s' : bool) (p : positive) (e : Z) :
  nearest s x = S754_finite s' p e ->
  0 < x /\ s' = s /\ (exponent_of x <= e)%Z
  /\ inject_Z (Zpos p) * 2 ^ e == inject_Z (mantissa_of x) * 2 ^ exponent_of x.
Proof.
  intros H.
  assert (Hx : 0 < x).
  { apply Qnot_le_lt. intros Hle. apply Qle_bool_iff in Hle.
    unfold nearest in H. rewrite Hle in H. discriminate. }
  split; [exact Hx |]. rewrite (nearest_unfold s x Hx) in H.
  destruct (Z.eqb_spec (mantissa_of x) (2 ^ prec)) as [E53 | N53].
  - change (2 ^ (prec - 1))%Z with (Zpos 4503599627370496) in H. cbv beta iota in H.
    destruct (exponent_of x + 1 <=? emax - prec)%Z; [| discriminate].
    injection H as <- <- <-. split; [reflexivity | split; [lia |]].
    rewrite E53, pow2_add. unfold prec.
    change (inject_Z (2 ^ 53)) with (inject_Z 4503599627370496 * 2 ^ 1). ring.
  - destruct (mantissa_of x) as [| q | q]; [discriminate | | discriminate].
    destruct (exponent_of x <=? emax - prec)%Z; [| discriminate].
    injection H as <- <- <-. split; [reflexivity | split; [lia | reflexivity]].
Qed.

Lemma nearest_error (s : bool) (x : Q) (s' : bool) (p : positive) (e : Z) :
  nearest s x = S754_finite s' p e ->
  inject_Z (Zpos p) * 2 ^ e - 2 ^ (e - 1) <= x
  /\ x <= inject_Z (Zpos p) * 2 ^ e + 2 ^ (e - 1).
Proof.
  intros H. apply nearest_finite_inv in H as (Hx & _ & He & Hv).
  rewrite Hv. unfold mantissa_of in *.
  set (E := exponent_of x) in *.
  pose proof (Qrne_bounds (x / 2 ^ E)) as [Blo Bhi].
  set (M := inject_Z (Qrne (x / 2 ^ E))) in *.
  pose proof (pow2_pos E) as HE.
  assert (Hx' : x == x / 2 ^ E * 2 ^ E) by (field; lra).
  assert (Hh : 2 ^ E == 2 * 2 ^ (E - 1)).
  { change 2 with (2 ^ 1) at 2. rewrite <- pow2_add. 
    replace (1 + (E - 1))%Z with E by lia. reflexivity. }
  assert (Hle : 2 ^ (E - 1) <= 2 ^ (e - 1)) by (apply pow2_le; lia).
  assert (L1 : (M - (1 # 2)) * 2 ^ E <= x / 2 ^ E * 2 ^ E).
  { apply Qmult_le_r; [exact HE | exact Blo]. }
  assert (L2 : x / 2 ^ E * 2 ^ E <= (M + (1 # 2)) * 2 ^ E).
  { apply Qmult_le_r; [exact HE | exact Bhi]. }
  set (t := x / 2 ^ E * 2 ^ E) in *. 
  assert (D1 : (M - (1 # 2)) * 2 ^ E == M * 2 ^ E - 2 ^ (E - 1)) by (rewrite Hh; ring).
  assert (D2 : (M + (1 # 2)) * 2 ^ E == M * 2 ^ E + 2 ^ (E - 1)) by (rewrite Hh; ring).
  split; lra.
Qed.

Lemma nearest_not_infinity (s : bool) (x : Q) (s' : bool) :
  x < 2 ^ 1000 -> nearest s x <> S754_infinity s'.
Proof.
  intros Hlt. unfold nearest. destruct (Qle_bool x 0) eqn:E; [discriminate |].
  assert (Hx : 0 < x).
  { apply Qnot_le_lt. intros H. apply Qle_bool_iff in H. congruence. }
  fold (exponent_of x). fold (mantissa_of x).
  pose proof (Qlog2_spec x Hx) as [Slo _].
  assert (HL : (Qlog2 x < 1000)%Z) by (apply pow2_lt_inv; lra).
  assert (He : (exponent_of x + 1 <= emax - prec)%Z).
  { unfold exponent_of, emax, prec, emin. lia. }
  destruct (mantissa_of x =? 2 ^ prec)%Z.
  - change (2 ^ (prec - 1))%Z with (Zpos 4503599627370496). cbv beta iota.
    destruct (Z.leb_spec (exponent_of x + 1) (emax - prec)); [discriminate | lia].
  - destruct (mantissa_of x); try discriminate.
    destruct (Z.leb_spec (exponent_of x) (emax - prec)); [discriminate | lia].
Qed.


#[global] Instance Qrne_Proper : Proper (Qeq ==> eq) Qrne.
Proof. intros x y E. apply Qrne_comp, E. Qed.

#[global] Instance nearest_Proper : Proper (eq ==> Qeq ==> eq) nearest.
Proof. intros s s' <- x y E. apply nearest_comp, E. Qed.

#[global] Instance dec2Q_Proper : Proper (eq ==> eq ==> Qeq) dec2Q.
Proof. intros c c' <- q q' <-. reflexivity. Qed.

(** ** [round(x, 2)] *)

Lemma ten_pow_2 : 10 ^ 2 == 100.
Proof. reflexivity. Qed.

Lemma dec2Q_cents (n : Z) : dec2Q n (- (2)) == inject_Z n / 100.
Proof. unfold dec2Q. change (10 ^ (- (2))) with (/ (10 ^ 2)). rewrite ten_pow_2. reflexivity. Qed.

(** The hundredfold of a float whose exponent is at least -2 is an integer. *)
Lemma cents_integral (p : positive) (e : Z) :
  (-2 <= e)%Z ->
  inject_Z (Zpos p) * 2 ^ e * 10 ^ 2 == inject_Z (Zpos p * 25 * 2 ^ (e + 2)).
Proof.
  intros He. rewrite !inject_Z_mult, pow2_inject by lia.
  rewrite pow2_add, ten_pow_2. change (2 ^ 2) with 4. change (inject_Z 25) with 25. ring.
Qed.

Lemma round_cents_exact (s : bool) (p : positive) (e : Z) (k : Z) :
  is_valid (S754_finite s p e) = true ->
  inject_Z (Zpos p) * 2 ^ e * 10 ^ 2 == inject_Z k ->
  nearest s (dec2Q (Qrne (inject_Z (Zpos p) * 2 ^ e * 10 ^ 2)) (- (2)))
  = S754_finite s p e.
Proof.
  intros Hv Hk. rewrite Hk, Qrne_inject, dec2Q_cents, <- Hk, ten_pow_2.
  rewrite <- (nearest_id s p e Hv). apply nearest_comp. cbn [Fabs2Q]. field.
Qed.

Lemma pow2_m8 : 2 ^ (-8) == 1 # 256.
Proof. reflexivity. Qed.

Lemma round_cents_small (s : bool) (X : Q) (n : Z) (p : positive) (e : Z) :
  nearest s X = S754_finite s p e ->
  X == dec2Q n (- (2)) ->
  (e <= -7)%Z ->
  nearest s (dec2Q (Qrne (inject_Z (Zpos p) * 2 ^ e * 10 ^ 2)) (- (2)))
  = S754_finite s p e.
Proof.
  intros H HX He. pose proof (nearest_error _ _ _ _ _ H) as [Elo Ehi].
  assert (Hu : 2 ^ (e - 1) <= 1 # 256).
  { rewrite <- pow2_m8. apply pow2_le. lia. }
  rewrite HX, dec2Q_cents in Elo, Ehi.
  assert (En : Qrne (inject_Z (Zpos p) * 2 ^ e * 10 ^ 2) = n).
  { apply Qrne_unique. rewrite ten_pow_2.
    set (V := inject_Z (Zpos p) * 2 ^ e) in *. set (u := 2 ^ (e - 1)) in *.
    set (N := inject_Z n) in *.
    assert (N / 100 * 100 == N) by (field).
    split; lra. }
  rewrite En, <- HX. exact H.
Qed.


Lemma round_cents_middle_at (s : bool) (p : positive) (e : Z) (c lo hi : Q) :
  2 ^ e == c -> 2 ^ (52 + e) == lo -> 2 ^ (52 + e + 1) == hi ->
  lo == 4503599627370496 * c -> hi == 9007199254740992 * c ->
  (1 # 64) <= c -> c <= 1 ->
  (-1074 <= e <= 971)%Z ->
  (2 ^ 52 < Zpos p < 2 ^ 53)%Z ->
  nearest s (dec2Q (Qrne (inject_Z (Zpos p) * 2 ^ e * 10 ^ 2)) (- (2)))
  = S754_finite s p e.
Proof.
  intros Ec Elo Ehi Dlo Dhi Hc1 Hc2 He [Hp1 Hp2].
  pose proof (Qrne_bounds (inject_Z (Zpos p) * 2 ^ e * 10 ^ 2)) as [Blo Bhi].
  set (n := Qrne (inject_Z (Zpos p) * 2 ^ e * 10 ^ 2)) in *.
  rewrite ten_pow_2, Ec in Blo, Bhi.
  assert (P1 : 4503599627370496 + 1 <= inject_Z (Zpos p)).
  { change (4503599627370496 + 1) with (inject_Z (2 ^ 52 + 1)).
    rewrite <- Zle_Qle. lia. }
  assert (P2 : inject_Z (Zpos p) <= 9007199254740992 - 1).
  { change (9007199254740992 - 1) with (inject_Z (2 ^ 53 - 1)).
    rewrite <- Zle_Qle. lia. }
  set (P := inject_Z (Zpos p)) in *. set (N := inject_Z n) in *.
  set (Y := dec2Q n (- (2))).
  assert (EY : Y == N / 100) by apply dec2Q_cents.
  assert (EY' : Y * 100 == N) by (rewrite EY; field).
  assert (M1 : (4503599627370496 + 1) * c <= P * c).
  { apply Qmult_le_r; [lra | exact P1]. }
  assert (M2 : P * c <= (9007199254740992 - 1) * c).
  { apply Qmult_le_r; [lra | exact P2]. }
  set (Pc := P * c) in *.
  assert (EPc : P * c * 100 == Pc * 100) by reflexivity.
  assert (HYlo : lo <= Y) by lra.
  assert (HYhi : Y < hi) by lra.
  assert (HY : 0 < Y) by lra.
  assert (EL : Qlog2 Y = (52 + e)%Z).
  { apply Qlog2_unique; [rewrite Elo | rewrite Ehi]; assumption. }
  assert (Ee : exponent_of Y = e).
  { unfold exponent_of, prec, emin. rewrite EL. lia. }
  assert (Em : mantissa_of Y = Zpos p).
  { unfold mantissa_of. rewrite Ee. apply Qrne_unique. fold P.
    rewrite Ec.
    assert (Hc0 : 0 < c) by lra.
    assert (Hd : Y / c * c == Y) by (field; lra).
    split; apply (proj1 (Qmult_lt_r _ _ c Hc0)); rewrite Hd; unfold Pc in *; lra. }
  rewrite (nearest_unfold s Y HY), Em, Ee.
  assert (N53 : (Zpos p =? 2 ^ prec)%Z = false) by (apply Z.eqb_neq; unfold prec; lia).
  rewrite N53.
  destruct (Z.leb_spec e (emax - prec)) as [_ | Hgt]; [reflexivity |].
  unfold emax, prec in Hgt. lia.
Qed.

Lemma round_cents_middle (s : bool) (p : positive) (e : Z) :
  is_valid (S754_finite s p e) = true ->
  (-6 <= e <= -3)%Z ->
  nearest s (dec2Q (Qrne (inject_Z (Zpos p) * 2 ^ e * 10 ^ 2)) (- (2)))
  = S754_finite s p e.
Proof.
  intros Hv He. pose proof Hv as Hb. unfold is_valid, valid_binary in Hb.
  apply bounded_inv in Hb as [_ [[[Hp1 Hp2] _] | [_ Ee]]]; [| lia].
  destruct (Z.eq_dec (Zpos p) (2 ^ 52)) as [E52 | N52].
  - assert (Ep : p = 4503599627370496%positive) by (cbn in E52; lia).
    subst p.
    assert (C : e = (-6)%Z \/ e = (-5)%Z \/ e = (-4)%Z \/ e = (-3)%Z) by lia.
    destruct C as [-> | [-> | [-> | ->]]].
    + apply (round_cents_exact s _ _ 7036874417766400 Hv). reflexivity.
    + apply (round_cents_exact s _ _ 14073748835532800 Hv). reflexivity.
    + apply (round_cents_exact s _ _ 28147497671065600 Hv). reflexivity.
    + apply (round_cents_exact s _ _ 56294995342131200 Hv). reflexivity.
  - assert (C : e = (-6)%Z \/ e = (-5)%Z \/ e = (-4)%Z \/ e = (-3)%Z) by lia.
    destruct C as [-> | [-> | [-> | ->]]].
    + apply (round_cents_middle_at s p _ (1 # 64) 70368744177664 140737488355328);
        try reflexivity; try lra; lia.
    + apply (round_cents_middle_at s p _ (1 # 32) 140737488355328 281474976710656);
        try reflexivity; try lra; lia.
    + apply (round_cents_middle_at s p _ (1 # 16) 281474976710656 562949953421312);
        try reflexivity; try lra; lia.
    + apply (round_cents_middle_at s p _ (1 # 8) 562949953421312 1125899906842624);
        try reflexivity; try lra; lia.
Qed.


Lemma py_round_2_unfold (s : bool) (m : positive) (e : Z) :
  py_round (S754_finite s m e) 2 =
    match nearest s (dec2Q (Qrne (inject_Z (Zpos m) * 2 ^ e * 10 ^ 2)) (- (2))) with
    | S754_infinity _ => Raise OverflowError
    | y => Ok y
    end.
Proof. reflexivity. Qed.

(** [round(x, 2)] never overflows: it returns a float. *)
Theorem py_round_2_total (x : float) :
  is_valid x = true -> exists r, py_round x 2 = Ok r /\ is_valid r = true.
Proof.
  intros Hv. destruct x as [s | s | | s m e]; try (eexists; split; [reflexivity | exact Hv]).
  rewrite py_round_2_unfold.
  set (n := Qrne (inject_Z (Zpos m) * 2 ^ e * 10 ^ 2)).
  assert (Hfin : forall s', nearest s (dec2Q n (- (2))) <> S754_infinity s').
  { intros s'. destruct (Z_le_gt_dec 0 e) as [Hge | Hlt].
    - unfold n. rewrite (round_cents_exact s m e _ Hv (cents_integral m e ltac:(lia))).
      discriminate.
    - apply nearest_not_infinity. rewrite dec2Q_cents.
      pose proof Hv as Hb. unfold is_valid, valid_binary in Hb.
      apply bounded_inv in Hb as [_ Hb].
      assert (Hm : inject_Z (Zpos m) <= inject_Z (2 ^ 53)).
      { rewrite <- Zle_Qle. change (2 ^ 52)%Z with 4503599627370496%Z in Hb.
        change (2 ^ 53)%Z with 9007199254740992%Z in *. lia. }
      assert (Hp : 2 ^ e <= 1).
      { change 1 with (2 ^ 0). apply pow2_le. lia. }
      pose proof (pow2_pos e) as Hp0.
      assert (Hle : inject_Z (Zpos m) * 2 ^ e * 10 ^ 2 <= inject_Z (2 ^ 53 * 100)).
      { rewrite ten_pow_2, inject_Z_mult. change (inject_Z 100) with 100.
        apply Qmult_le_compat_r; [| lra].
        assert (Hq : inject_Z (Zpos m) * 2 ^ e <= inject_Z (2 ^ 53) * 1).
        { apply Qmult_le_compat_nonneg; split; try lra.
          rewrite <- (Zle_Qle 0). lia. }
        lra. }
      apply Qrne_le_inject in Hle. fold n in Hle.
      rewrite Zle_Qle in Hle.
      assert (H1000 : inject_Z (2 ^ 53 * 100) * (1 # 100) < 2 ^ 1000) by reflexivity.
      unfold Qdiv. change (/ 100) with (1 # 100).
      clear - Hle H1000.
      set (N := inject_Z n) in *. set (B := inject_Z (2 ^ 53 * 100)) in *.
      set (T := 2 ^ 1000) in *. clearbody N B T. lra. }
  assert (Hval := nearest_valid s (dec2Q n (- (2)))).
  destruct (nearest s (dec2Q n (- (2)))) as [s' | s' | | s' m' e'] eqn:E.
  - eexists; split; [reflexivity | exact Hval].
  - exfalso. exact (Hfin s' eq_refl).
  - eexists; split; [reflexivity | exact Hval].
  - eexists; split; [reflexivity | exact Hval].
Qed.

(** A float that [round(., 2)] returns is rounded to itself. *)
Theorem py_round_2_fixed (x r : float) :
  is_valid x = true -> py_round x 2 = Ok r -> py_round r 2 = Ok r.
Proof.
  intros Hv H. destruct x as [s | s | | s m e];
    try (injection H as <-; reflexivity).
  rewrite py_round_2_unfold in H.
  set (n := Qrne (inject_Z (Zpos m) * 2 ^ e * 10 ^ 2)) in *.
  assert (Hval := nearest_valid s (dec2Q n (- (2)))).
  destruct (nearest s (dec2Q n (- (2)))) as [s' | s' | | s' m' e'] eqn:E;
    try discriminate; injection H as <-; try reflexivity.
  pose proof (nearest_finite_inv _ _ _ _ _ E) as (_ & -> & _).
  rewrite py_round_2_unfold.
  assert (Hfix : nearest s (dec2Q (Qrne (inject_Z (Zpos m') * 2 ^ e' * 10 ^ 2)) (- (2)))
                 = S754_finite s m' e').
  { destruct (Z_le_gt_dec (-2) e') as [Hhi | Hlo].
    - apply (round_cents_exact s m' e' _ Hval (cents_integral m' e' Hhi)).
    - destruct (Z_le_gt_dec e' (-7)) as [Hsmall | Hmid].
      + apply (round_cents_small s _ n _ _ E); [reflexivity | exact Hsmall].
      + apply round_cents_middle; [exact Hval | lia]. }
  rewrite Hfix. reflexivity.
Qed.

(** ** Closure of the valid floats *)

Lemma of_Q_valid (x : Q) (sz : bool) : is_valid (of_Q x sz) = true.
Proof. unfold of_Q. destruct (x ?= 0); [reflexivity | |]; apply nearest_valid. Qed.

Theorem fadd_valid (x y : float) :
  is_valid x = true -> is_valid y = true -> is_valid (fadd x y) = true.
Proof.
  intros Hx Hy.
  destruct x as [sx | sx | | sx mx ex], y as [sy | sy | | sy my ey]; cbn [fadd];
    try reflexivity; try assumption; try (destruct (Bool.eqb _ _); reflexivity).
  apply of_Q_valid.
Qed.

Theorem py_float_valid (s : string) (x : float) :
  py_float s = Ok x -> is_valid x = true.
Proof.
  unfold py_float. destruct (drop_underscores _ _) as [s1 |]; [| discriminate].
  unfold parse_float. destruct (parse_sign (strip s1)) as [neg r].
  destruct (parse_decimal r) as [[[ip fp] e] |].
  - intros H. injection H as <-. apply nearest_valid.
  - unfold parse_inf_nan.
    destruct (_ || _); [intros H; injection H as <-; reflexivity |].
    destruct (String.eqb _ _); [intros H; injection H as <-; reflexivity | discriminate].
Qed.


Lemma nearest_shape (s : bool) (x : Q) :
  nearest s x = S754_zero s \/ nearest s x = S754_infinity s
  \/ exists p e, nearest s x = S754_finite s p e.
Proof.
  unfold nearest. destruct (Qle_bool x 0); [left; reflexivity |].
  destruct (mantissa_of x =? 2 ^ prec)%Z.
  - change (2 ^ (prec - 1))%Z with (Zpos 4503599627370496). cbv beta iota.
    destruct (_ <=? _)%Z; [right; right; eauto | right; left; reflexivity].
  - destruct (mantissa_of x); [left; reflexivity | | left; reflexivity].
    destruct (_ <=? _)%Z; [right; right; eauto | right; left; reflexivity].
Qed.

End FloatFacts.

Import FloatFacts.

(* ================================================================== *)
(** * Facts about the text of numbers *)
(* ================================================================== *)

Module TextFacts.

Lemma digit_char_is_digit (d : Z) : digit d -> is_digit (digit_char d) = true.
Proof.
  intros H. assert (C : d = 0 \/ d = 1 \/ d = 2 \/ d = 3 \/ d = 4 \/ d = 5
                        \/ d = 6 \/ d = 7 \/ d = 8 \/ d = 9) by (unfold digit in H; lia).
  repeat (destruct C as [-> | C]; [reflexivity |]). subst d. reflexivity.
Qed.

Lemma digit_val_char (d : Z) : digit d -> digit_val (digit_char d) = d.
Proof.
  intros H. assert (C : d = 0 \/ d = 1 \/ d = 2 \/ d = 3 \/ d = 4 \/ d = 5
                        \/ d = 6 \/ d = 7 \/ d = 8 \/ d = 9) by (unfold digit in H; lia).
  repeat (destruct C as [-> | C]; [reflexivity |]). subst d. reflexivity.
Qed.

(** ** Digit lists *)

Lemma fold_digits (ds : list Z) (a : Z) :
  fold_left (fun a d => 10 * a + d) ds a
  = a * 10 ^ Z.of_nat (List.length ds) + Z_of_digits ds.
Proof.
  unfold Z_of_digits. revert a. induction ds as [| d r IH]; intros a.
  - cbn. lia.
  - cbn [fold_left List.length]. rewrite IH, (IH (10 * 0 + d)).
    rewrite Nat2Z.inj_succ, Z.pow_succ_r by lia. ring.
Qed.

Lemma Z_of_digits_app (a b : list Z) :
  Z_of_digits (a ++ b) = Z_of_digits a * 10 ^ Z.of_nat (List.length b) + Z_of_digits b.
Proof. unfold Z_of_digits at 1. rewrite fold_left_app, fold_digits. reflexivity. Qed.

Lemma Z_of_digits_cons (d : Z) (r : list Z) :
  Z_of_digits (d :: r) = d * 10 ^ Z.of_nat (List.length r) + Z_of_digits r.
Proof. apply (Z_of_digits_app [d] r). Qed.

Lemma Z_of_digits_zeros (n : Z) : Z_of_digits (zeros n) = 0.
Proof.
  unfold zeros. induction (Z.to_nat n) as [| k IH]; [reflexivity |].
  cbn [repeat]. rewrite Z_of_digits_cons, IH. lia.
Qed.

Lemma length_zeros (n : Z) : 0 <= n -> Z.of_nat (List.length (zeros n)) = n.
Proof. intros H. unfold zeros. rewrite repeat_length. lia. Qed.

Lemma zeros_digits (n : Z) : Forall digit (zeros n).
Proof.
  unfold zeros. induction (Z.to_nat n); constructor; [unfold digit; lia | assumption].
Qed.

Lemma digits_acc_value (fuel : nat) (n : Z) (acc : list Z) :
  Z_of_digits (digits_acc fuel n acc)
  = n * 10 ^ Z.of_nat (List.length acc) + Z_of_digits acc.
Proof.
  revert n acc. induction fuel as [| f IH]; intros n acc; cbn [digits_acc].
  - apply Z_of_digits_cons.
  - destruct (n <? 10); [apply Z_of_digits_cons |].
    rewrite IH, Z_of_digits_cons. cbn [List.length].
    rewrite Nat2Z.inj_succ, Z.pow_succ_r by lia.
    pose proof (Z.div_mod n 10 ltac:(lia)). 
    set (q := n / 10) in *. set (r := n mod 10) in *. 
    set (p := 10 ^ Z.of_nat (List.length acc)). 
    transitivity ((10 * q + r) * p + Z_of_digits acc); [fold p; ring |].
    f_equal. f_equal. lia.
Qed.

Lemma digits_of_Z_value (n : Z) : Z_of_digits (digits_of_Z n) = n.
Proof. unfold digits_of_Z. rewrite digits_acc_value. cbn. lia. Qed.

Lemma digits_acc_valid (fuel : nat) (n : Z) (acc : list Z) :
  0 <= n < 10 ^ (Z.of_nat fuel + 1) -> Forall digit acc ->
  Forall digit (digits_acc fuel n acc).
Proof.
  revert n acc. induction fuel as [| f IH]; intros n acc Hn Hacc; cbn [digits_acc].
  - constructor; [cbn in Hn; unfold digit; lia | exact Hacc].
  - destruct (Z.ltb_spec n 10) as [Hlt | Hge].
    + constructor; [unfold digit; lia | exact Hacc].
    + apply IH.
      * rewrite Nat2Z.inj_succ in Hn.
        replace (Z.succ (Z.of_nat f) + 1) with (Z.succ (Z.of_nat f + 1)) in Hn by lia.
        rewrite Z.pow_succ_r in Hn by lia. split.
        -- apply Z.div_pos; lia.
        -- apply Z.div_lt_upper_bound; lia.
      * constructor; [| exact Hacc]. pose proof (Z.mod_pos_bound n 10 ltac:(lia)).
        unfold digit. lia.
Qed.

Lemma digits_of_Z_valid (n : Z) : 0 <= n -> Forall digit (digits_of_Z n).
Proof.
  intros Hn. unfold digits_of_Z. apply digits_acc_valid; [| constructor].
  split; [exact Hn |]. destruct (Z.eq_dec n 0) as [-> | Hnz]; [cbn; lia |].
  pose proof (Z.log2_spec n ltac:(lia)) as [_ Hhi].
  pose proof (Z.log2_nonneg n) as Hl. rewrite Z2Nat.id by lia.
  assert (2 ^ (Z.log2 n + 1) <= 10 ^ (Z.log2 n + 1)) by (apply Z.pow_le_mono_l; lia).
  lia.
Qed.

Lemma digits_acc_nonempty (fuel : nat) (n : Z) (acc : list Z) :
  digits_acc fuel n acc <> [].
Proof.
  revert n acc. induction fuel as [| f IH]; intros n acc; cbn [digits_acc];
    [discriminate |]. destruct (n <? 10); [discriminate | apply IH].
Qed.

Lemma digits_of_Z_nonempty (n : Z) : digits_of_Z n <> [].
Proof. apply digits_acc_nonempty. Qed.


Lemma Z_of_digits_pos_nonempty (ds : list Z) : Z_of_digits ds <> 0 -> ds <> [].
Proof. intros H ->. apply H. reflexivity. Qed.

(** ** Trailing zeros *)

Lemma drop_zeros_decompose (l : list Z) :
  exists k, l = (repeat 0 k ++ drop_zeros l)%list.
Proof.
  induction l as [| d r [k IH]]; [exists O; reflexivity |].
  destruct d as [| p | p]; [| exists O; reflexivity | exists O; reflexivity].
  exists (S k). cbn [drop_zeros repeat app]. rewrite <- IH. reflexivity.
Qed.

Lemma rev_repeat_zero (k : nat) : rev (repeat 0 k) = repeat 0 k.
Proof.
  induction k as [| k IH]; [reflexivity |].
  cbn [repeat rev]. rewrite IH. symmetry. apply repeat_cons.
Qed.

Lemma strip_trailing_zeros_decompose (ds : list Z) :
  exists k, ds = (strip_trailing_zeros ds ++ repeat 0 k)%list.
Proof.
  destruct (drop_zeros_decompose (rev ds)) as [k Hk]. exists k.
  unfold strip_trailing_zeros. rewrite <- rev_repeat_zero, <- rev_app_distr, <- Hk.
  symmetry. apply rev_involutive.
Qed.

(** ** Decimal values *)

Local Open Scope Q_scope.

Lemma pow10_pos (q : Z) : 0 < 10 ^ q.
Proof. apply Qpower_0_lt. reflexivity. Qed.

Lemma dec2Q_shift (c q k : Z) :
  (0 <= k)%Z -> dec2Q (c * 10 ^ k) q == dec2Q c (q + k).
Proof.
  intros Hk. unfold dec2Q. rewrite inject_Z_mult, Zpower_Qpower by exact Hk.
  rewrite (Qpower_plus 10 q k) by discriminate.
  change (inject_Z 10) with 10. ring.
Qed.

Lemma exact_decimal_value (m : positive) (e : Z) :
  dec2Q (fst (exact_decimal m e)) (snd (exact_decimal m e))
  == inject_Z (Zpos m) * 2 ^ e.
Proof.
  unfold exact_decimal. destruct (Z.leb_spec 0 e) as [Hge | Hlt]; cbn [fst snd]; unfold dec2Q.
  - rewrite inject_Z_mult, Zpower_Qpower by exact Hge.
    change (10 ^ 0) with 1. change (inject_Z 2) with 2. ring.
  - rewrite inject_Z_mult, Zpower_Qpower by lia. change (inject_Z 5) with 5.
    assert (E10 : 10 ^ e == 2 ^ e * 5 ^ e).
    { rewrite <- Qmult_power. reflexivity. }
    assert (E5 : 5 ^ (- e) * 5 ^ e == 1).
    { rewrite <- Qpower_plus by discriminate. replace (- e + e)%Z with 0%Z by lia.
      reflexivity. }
    rewrite E10.
    transitivity (inject_Z (Zpos m) * 2 ^ e * (5 ^ (- e) * 5 ^ e)); [ring |].
    rewrite E5. ring.
Qed.


(** ** The shortest decimal reads back *)

Lemma feqb_eq (x y : float) : feqb x y = true -> x = y.
Proof.
  destruct x as [a | a | | a m e], y as [b | b | | b m' e']; cbn; try discriminate;
    try reflexivity.
  - intros H. apply Bool.eqb_prop in H. congruence.
  - intros H. apply Bool.eqb_prop in H. congruence.
  - intros H. apply andb_prop in H as [H He]. apply andb_prop in H as [Hs Hm].
    apply Bool.eqb_prop in Hs. apply Pos.eqb_eq in Hm. apply Z.eqb_eq in He.
    congruence.
Qed.

Lemma shortest_at_reads_back (y : float) (ds : list Z) (q : Z) (d : nat) (c q' : Z) :
  shortest_at y ds q d = Some (c, q') -> nearest false (dec2Q c q') = y.
Proof.
  unfold shortest_at.
  set (lo := Z_of_digits (firstn d ds)). set (qq := (q + Z.of_nat (List.length ds - d))%Z).
  destruct (feqb (nearest false (dec2Q lo qq)) y) eqn:Elo;
    destruct (feqb (nearest false (dec2Q (lo + 1) qq)) y) eqn:Ehi;
    try discriminate.
  - apply feqb_eq in Elo, Ehi.
    destruct (_ ?= _); intros H; injection H as <- <-; try assumption.
    destruct (Z.even lo); assumption.
  - apply feqb_eq in Elo. intros H; injection H as <- <-. exact Elo.
  - apply feqb_eq in Ehi. intros H; injection H as <- <-. exact Ehi.
Qed.

Lemma shortest_from_reads_back (y : float) (ds : list Z) (q : Z) (d fuel : nat) :
  nearest false (dec2Q (Z_of_digits ds) q) = y ->
  nearest false (dec2Q (fst (shortest_from y ds q d fuel))
                       (snd (shortest_from y ds q d fuel))) = y.
Proof.
  intros Hex. revert d. induction fuel as [| f IH]; intros d; cbn [shortest_from];
    [exact Hex |].
  destruct (List.length ds <=? d)%nat; [exact Hex |].
  destruct (shortest_at y ds q d) as [[c q'] |] eqn:E; [| apply IH].
  cbn [fst snd]. apply (shortest_at_reads_back _ _ _ _ _ _ E).
Qed.

Lemma is_valid_sign (s s' : bool) (m : positive) (e : Z) :
  is_valid (S754_finite s m e) = is_valid (S754_finite s' m e).
Proof. reflexivity. Qed.

Theorem repr_decimal_reads_back (m : positive) (e : Z) :
  is_valid (S754_finite false m e) = true ->
  nearest false (dec2Q (fst (repr_decimal m e)) (snd (repr_decimal m e)))
  = S754_finite false m e.
Proof.
  intros Hv. unfold repr_decimal.
  pose proof (exact_decimal_value m e) as Hex.
  destruct (exact_decimal m e) as [c q]. cbn [fst snd] in Hex.
  apply shortest_from_reads_back. rewrite digits_of_Z_value.
  rewrite (nearest_comp _ _ _ Hex). apply (nearest_id false m e Hv).
Qed.

Lemma nearest_set_sign (s : bool) (x : Q) (m : positive) (e : Z) :
  nearest false x = S754_finite false m e -> nearest s x = S754_finite s m e.
Proof.
  unfold nearest. destruct (Qle_bool x 0); [discriminate |].
  destruct (if (mantissa_of x =? 2 ^ prec)%Z then _ else _) as [mm ee].
  destruct mm; try discriminate. destruct (_ <=? _)%Z; [| discriminate].
  intros H. injection H as <- <-. reflexivity.
Qed.

Lemma nearest_finite_positive (s s' : bool) (c q : Z) (m : positive) (e : Z) :
  nearest s (dec2Q c q) = S754_finite s' m e -> (0 < c)%Z.
Proof.
  intros H. apply nearest_finite_inv in H as [Hx _]. unfold dec2Q in Hx.
  destruct (Z_lt_le_dec 0 c) as [Hc | Hc]; [exact Hc | exfalso].
  assert (inject_Z c <= 0).
  { change 0 with (inject_Z 0). rewrite <- Zle_Qle. exact Hc. }
  pose proof (pow10_pos q) as Hp.
  assert (inject_Z c * 10 ^ q <= 0 * 10 ^ q).
  { apply Qmult_le_compat_r; [assumption | lra]. }
  lra.
Qed.


(** ** Reading digits back *)

Local Open Scope string_scope.
Local Open Scope Z_scope.

Lemma string_of_digits_app (a b : list Z) :
  string_of_digits (a ++ b)%list = string_of_digits a ++ string_of_digits b.
Proof. induction a as [| d r IH]; [reflexivity |]. cbn. rewrite IH. reflexivity. Qed.

Lemma append_empty (s : string) : s ++ "" = s.
Proof. induction s as [| c r IH]; [reflexivity |]. cbn. rewrite IH. reflexivity. Qed.

Lemma append_assoc (a b c : string) : (a ++ b) ++ c = a ++ (b ++ c).
Proof. induction a as [| x r IH]; [reflexivity |]. cbn. rewrite IH. reflexivity. Qed.

Lemma span_digits_digits (ds : list Z) (rest : string) :
  Forall digit ds -> no_digit_head rest ->
  span_digits (string_of_digits ds ++ rest) = (ds, rest).
Proof.
  intros Hd Hr. induction Hd as [| d r Hd _ IH]; cbn.
  - destruct rest as [| c r]; [reflexivity |]. cbn in Hr. cbn. rewrite Hr. reflexivity.
  - rewrite (digit_char_is_digit d Hd), IH, (digit_val_char d Hd). reflexivity.
Qed.

Lemma span_digits_all (ds : list Z) :
  Forall digit ds -> span_digits (string_of_digits ds) = (ds, "").
Proof.
  intros Hd. rewrite <- (append_empty (string_of_digits ds)).
  apply span_digits_digits; [exact Hd | exact I].
Qed.

Lemma parse_exponent_exp_str (x : Z) :
  parse_exponent (String "e" (exp_str x)) = Some x.
Proof.
  unfold exp_str.
  set (ds := digits_of_Z (Z.abs x)).
  set (pad := match ds with [d] => [0; d] | _ => ds end).
  assert (Hds : Forall digit ds) by (apply digits_of_Z_valid; lia).
  assert (Hpad : Forall digit pad).
  { unfold pad. destruct ds as [| d [| d' r]]; try exact Hds.
    constructor; [unfold digit; lia | exact Hds]. }
  assert (Hval : Z_of_digits pad = Z.abs x).
  { unfold pad. rewrite <- (digits_of_Z_value (Z.abs x)). fold ds.
    destruct ds as [| d [| d' r]]; try reflexivity. }
  assert (Hne : pad <> []).
  { unfold pad. pose proof (digits_of_Z_nonempty (Z.abs x)) as H. fold ds in H.
    destruct ds as [| d [| d' r]]; [congruence | discriminate | discriminate]. }
  unfold parse_exponent. cbn [to_lower]. change (Ascii.eqb (to_lower "e") "e") with true.
  cbv beta iota.
  destruct (Z.ltb_spec x 0) as [Hneg | Hpos]; cbn [parse_sign];
    rewrite (span_digits_all pad Hpad); destruct pad as [| d r]; try congruence;
    rewrite Hval; f_equal; lia.
Qed.

Lemma is_digit_not_sign (c : ascii) :
  is_digit c = true -> c <> "-"%char /\ c <> "+"%char.
Proof. intros H. split; intros ->; discriminate. Qed.

Lemma parse_sign_digit (c : ascii) (r : string) :
  is_digit c = true -> parse_sign (String c r) = (false, String c r).
Proof.
  intros H. unfold parse_sign.
  destruct c as [[] [] [] [] [] [] [] []]; try reflexivity; discriminate.
Qed.


Lemma parse_decimal_int (ip : list Z) (tail : string) (ex : Z) :
  Forall digit ip -> ip <> [] ->
  parse_exponent (String "e" tail) = Some ex ->
  parse_decimal (string_of_digits ip ++ String "e" tail) = Some (ip, [], ex).
Proof.
  intros Hip Hne Hex. unfold parse_decimal.
  rewrite (span_digits_digits ip (String "e" tail) Hip eq_refl).
  cbv beta iota. rewrite app_nil_r. destruct ip; [congruence |].
  rewrite Hex. reflexivity.
Qed.

Lemma parse_decimal_point (ip fp : list Z) (tail : string) (ex : Z) :
  Forall digit ip -> Forall digit fp -> (ip ++ fp)%list <> [] ->
  no_digit_head tail -> parse_exponent tail = Some ex ->
  parse_decimal (string_of_digits ip ++ String "." (string_of_digits fp ++ tail))
  = Some (ip, fp, ex).
Proof.
  intros Hip Hfp Hne Ht Hex. unfold parse_decimal.
  rewrite (span_digits_digits ip (String "." (string_of_digits fp ++ tail)) Hip eq_refl).
  cbv beta iota. rewrite (span_digits_digits fp tail Hfp Ht).
  destruct (ip ++ fp)%list; [congruence |]. rewrite Hex. reflexivity.
Qed.

Lemma parse_decimal_point_end (ip fp : list Z) :
  Forall digit ip -> Forall digit fp -> (ip ++ fp)%list <> [] ->
  parse_decimal (string_of_digits ip ++ String "." (string_of_digits fp))
  = Some (ip, fp, 0).
Proof.
  intros Hip Hfp Hne. rewrite <- (append_empty (string_of_digits fp)).
  apply parse_decimal_point; try assumption; [exact I | reflexivity].
Qed.

Lemma string_of_digits_head (ds : list Z) (tail : string) :
  Forall digit ds -> ds <> [] ->
  exists c r, string_of_digits ds ++ tail = String c r /\ is_digit c = true.
Proof.
  intros Hd Hne. destruct Hd as [| d r Hd _]; [congruence |].
  exists (digit_char d), (string_of_digits r ++ tail). split; [reflexivity |].
  apply digit_char_is_digit, Hd.
Qed.

Lemma Forall_digit_firstn (k : nat) (ds : list Z) :
  Forall digit ds -> Forall digit (firstn k ds).
Proof.
  intros H. rewrite Forall_forall in *. intros x Hx. apply H.
  rewrite <- (firstn_skipn k ds). apply in_or_app. left. exact Hx.
Qed.

Lemma Forall_digit_skipn (k : nat) (ds : list Z) :
  Forall digit ds -> Forall digit (skipn k ds).
Proof.
  intros H. rewrite Forall_forall in *. intros x Hx. apply H.
  rewrite <- (firstn_skipn k ds). apply in_or_app. right. exact Hx.
Qed.

(** What [float] reads in the text that [repr] writes for the digits
    [ds] and the decimal point position [decpt]. *)
Theorem parse_decimal_render (ds : list Z) (decpt : Z) :
  Forall digit ds -> ds <> [] ->
  exists ip fp ex,
    parse_decimal (render ds decpt) = Some (ip, fp, ex)
    /\ (dec2Q (Z_of_digits (ip ++ fp)) (ex - Z.of_nat (List.length fp))
        == dec2Q (Z_of_digits ds) (decpt - Z.of_nat (List.length ds)))%Q
    /\ exists c r, render ds decpt = String c r /\ is_digit c = true.
Proof.
  intros Hd Hne. unfold render.
  destruct ((decpt <=? -4) || (16 <? decpt)) eqn:Eexp.
  - (* scientific form *)
    destruct ds as [| d [| d2 rest]]; [congruence | |].
    + exists [d], [], (decpt - 1). split; [| split].
      * apply (parse_decimal_int [d] (exp_str (decpt - 1))); [exact Hd | discriminate |].
        apply parse_exponent_exp_str.
      * cbn [app List.length Z.of_nat]. 
        replace (decpt - 1 - 0) with (decpt - 1) by lia. reflexivity.
      * apply (string_of_digits_head [d]); [exact Hd | discriminate].
    + exists [d], (d2 :: rest), (decpt - 1). split; [| split].
      * apply (parse_decimal_point [d] (d2 :: rest) (String "e" (exp_str (decpt - 1)))).
        -- constructor; [exact (Forall_inv Hd) | constructor].
        -- exact (Forall_inv_tail Hd).
        -- discriminate.
        -- reflexivity.
        -- apply parse_exponent_exp_str.
      * cbn [app]. 
        replace (decpt - 1 - Z.of_nat (List.length (d2 :: rest)))
          with (decpt - Z.of_nat (List.length (d :: d2 :: rest)))
          by (cbn [List.length]; lia).
        reflexivity.
      * apply (string_of_digits_head [d]); 
          [constructor; [exact (Forall_inv Hd) | constructor] | discriminate].
  - apply orb_false_elim in Eexp as [E1 E2].
    apply Z.leb_gt in E1. apply Z.ltb_ge in E2.
    destruct (Z.leb_spec decpt 0) as [Hle | Hgt].
    + (* 0.000ddd *)
      exists [0], (zeros (- decpt) ++ ds)%list, 0. split; [| split].
      * apply (parse_decimal_point_end [0] (zeros (- decpt) ++ ds)).
        -- constructor; [unfold digit; lia | constructor].
        -- apply Forall_app. split; [apply zeros_digits | exact Hd].
        -- discriminate.
      * cbn [app]. rewrite Z_of_digits_cons, Z_of_digits_app, Z_of_digits_zeros.
        rewrite length_app, Nat2Z.inj_add, length_zeros by lia.
        replace (0 * 10 ^ _ + (0 * 10 ^ Z.of_nat (List.length ds) + Z_of_digits ds))
          with (Z_of_digits ds) by lia.
        replace (0 - (- decpt + Z.of_nat (List.length ds)))
          with (decpt - Z.of_nat (List.length ds)) by lia.
        reflexivity.
      * eexists _, _. split; reflexivity.
    + destruct (Z.ltb_spec decpt (Z.of_nat (List.length ds))) as [Hin | Hout].
      * (* ddd.ddd *)
        exists (firstn (Z.to_nat decpt) ds), (skipn (Z.to_nat decpt) ds), 0.
        split; [| split].
        -- apply parse_decimal_point_end;
             [apply Forall_digit_firstn, Hd | apply Forall_digit_skipn, Hd |].
           rewrite firstn_skipn. exact Hne.
        -- rewrite firstn_skipn, length_skipn.
           replace (0 - Z.of_nat (List.length ds - Z.to_nat decpt))
             with (decpt - Z.of_nat (List.length ds)) by lia.
           reflexivity.
        -- apply string_of_digits_head; [apply Forall_digit_firstn, Hd |].
           destruct ds as [| d r]; [congruence |].
           destruct (Z.to_nat decpt) eqn:E; [lia | discriminate].
      * (* ddd000.0 *)
        exists (ds ++ zeros (decpt - Z.of_nat (List.length ds)))%list, [0], 0.
        split; [| split].
        -- apply (parse_decimal_point_end _ [0]).
           ++ apply Forall_app. split; [exact Hd | apply zeros_digits].
           ++ constructor; [unfold digit; lia | constructor].
           ++ destruct ds; [congruence | discriminate].
        -- rewrite !Z_of_digits_app, Z_of_digits_zeros, length_zeros by lia.
           cbn [List.length Z.of_nat]. 
           set (k := decpt - Z.of_nat (List.length ds)).
           replace ((Z_of_digits ds * 10 ^ k + 0) * 10 ^ Z.pos (Pos.of_succ_nat 0)
                    + Z_of_digits [0])
             with (Z_of_digits ds * 10 ^ (k + 1))
             by (rewrite Z.pow_add_r by lia; cbn; lia).
           rewrite dec2Q_shift by lia. 
           replace (0 - Z.pos (Pos.of_succ_nat 0) + (k + 1)) with k by lia.
           reflexivity.
        -- apply string_of_digits_head; 
             [apply Forall_app; split; [exact Hd | apply zeros_digits] |].
           destruct ds; [congruence | discriminate].
Qed.


(** ** The text of a float is read as it is written *)

Lemma is_plain_inv (c : ascii) :
  is_plain c = true ->
  Ascii.eqb c "," = false /\ to_ascii c = c /\ Ascii.eqb c "_" = false
  /\ is_space c = false.
Proof.
  destruct c as [[] [] [] [] [] [] [] []]; intros H; try discriminate H;
    repeat split; reflexivity.
Qed.

Lemma all_plain_app (a b : string) :
  all_plain (a ++ b) = all_plain a && all_plain b.
Proof.
  induction a as [| c r IH]; [reflexivity |]. cbn. rewrite IH.
  apply andb_assoc.
Qed.

Lemma all_plain_digits (ds : list Z) :
  Forall digit ds -> all_plain (string_of_digits ds) = true.
Proof.
  intros H. induction H as [| d r Hd _ IH]; [reflexivity |]. cbn.
  rewrite IH. unfold is_plain. rewrite (digit_char_is_digit d Hd). reflexivity.
Qed.

Lemma plain_no_commas (s : string) :
  all_plain s = true -> str_replace "," "" s = s.
Proof.
  induction s as [| c r IH]; [reflexivity |]. cbn. intros H.
  apply andb_prop in H as [Hc Hr]. apply is_plain_inv in Hc as (E & _).
  rewrite E, (IH Hr). reflexivity.
Qed.

Lemma plain_to_ascii (s : string) :
  all_plain s = true -> map_string to_ascii s = s.
Proof.
  induction s as [| c r IH]; [reflexivity |]. cbn. intros H.
  apply andb_prop in H as [Hc Hr]. apply is_plain_inv in Hc as (_ & E & _).
  rewrite E, (IH Hr). reflexivity.
Qed.

Lemma plain_no_underscores (s : string) (prev : ascii) :
  all_plain s = true -> Ascii.eqb prev "_" = false ->
  drop_underscores prev s = Some s.
Proof.
  revert prev. induction s as [| c r IH]; intros prev H Hp; cbn.
  - rewrite Hp. reflexivity.
  - cbn in H. apply andb_prop in H as [Hc Hr].
    apply is_plain_inv in Hc as (_ & _ & E & _).
    rewrite E, Hp. cbn. rewrite (IH c Hr E). reflexivity.
Qed.

Lemma plain_lstrip (s : string) : all_plain s = true -> lstrip s = s.
Proof.
  destruct s as [| c r]; [reflexivity |]. cbn. intros H.
  apply andb_prop in H as [Hc _]. apply is_plain_inv in Hc as (_ & _ & _ & E).
  rewrite E. reflexivity.
Qed.

Lemma plain_rstrip (s : string) : all_plain s = true -> rstrip s = s.
Proof.
  induction s as [| c r IH]; [reflexivity |]. cbn. intros H.
  apply andb_prop in H as [Hc Hr]. apply is_plain_inv in Hc as (_ & _ & _ & E).
  rewrite (IH Hr), E. destruct r; reflexivity.
Qed.

Lemma plain_strip (s : string) : all_plain s = true -> strip s = s.
Proof.
  intros H. unfold strip. rewrite (plain_lstrip s H).
  destruct s as [| c r]; [reflexivity |]. cbn in H.
  apply andb_prop in H as [_ Hr]. rewrite (plain_rstrip r Hr). reflexivity.
Qed.

(** On plain text, [float] after the removal of commas is the parser of
    float literals. *)
Lemma py_float_plain (s : string) :
  all_plain s = true ->
  py_float (str_replace "," "" s)
  = match parse_float s with Some x => Ok x | None => Raise ValueError end.
Proof.
  intros H. rewrite (plain_no_commas s H). unfold py_float.
  rewrite (plain_to_ascii s H), (plain_no_underscores s Ascii.zero H eq_refl).
  rewrite (plain_strip s H). reflexivity.
Qed.

Lemma all_plain_exp_str (x : Z) : all_plain (exp_str x) = true.
Proof.
  unfold exp_str. cbn [all_plain].
  assert (Hds : Forall digit (digits_of_Z (Z.abs x))) by (apply digits_of_Z_valid; lia).
  apply andb_true_intro. split; [destruct (x <? 0); reflexivity |].
  apply all_plain_digits. destruct (digits_of_Z (Z.abs x)) as [| d [| d' r]]; try exact Hds.
  constructor; [unfold digit; lia | exact Hds].
Qed.

Lemma all_plain_render (ds : list Z) (decpt : Z) :
  Forall digit ds -> all_plain (render ds decpt) = true.
Proof.
  intros Hd. unfold render. destruct (_ || _).
  - destruct ds as [| d [| d2 rest]]; [reflexivity | |];
      rewrite ?all_plain_app, ?all_plain_exp_str, ?andb_true_r.
    + rewrite (all_plain_digits [d] Hd). reflexivity.
    + rewrite (all_plain_digits [d]), (all_plain_digits (d2 :: rest)); 
        [reflexivity | exact (Forall_inv_tail Hd) |].
      constructor; [exact (Forall_inv Hd) | constructor].
  - destruct (decpt <=? 0).
    + rewrite all_plain_app, all_plain_digits; [reflexivity |].
      apply Forall_app. split; [apply zeros_digits | exact Hd].
    + destruct (decpt <? _).
      * rewrite !all_plain_app, !all_plain_digits;
          [reflexivity | apply Forall_digit_skipn, Hd | apply Forall_digit_firstn, Hd].
      * rewrite all_plain_app, all_plain_digits; [reflexivity |].
        apply Forall_app. split; [exact Hd | apply zeros_digits].
Qed.


Lemma Z_of_digits_repeat_zero (k : nat) : Z_of_digits (repeat 0 k) = 0.
Proof.
  induction k as [| k IH]; [reflexivity |].
  cbn [repeat]. rewrite Z_of_digits_cons, IH. lia.
Qed.

(** [float(repr(y))] is [y], and the text of [repr(y)] holds no comma. *)
Theorem float_text_roundtrip (y : float) :
  is_valid y = true -> py_float (str_replace "," "" (float_repr y)) = Ok y.
Proof.
  intros Hv. destruct y as [s | s | | s m e];
    [destruct s; reflexivity | destruct s; reflexivity | reflexivity |].
  pose proof (repr_decimal_reads_back m e Hv) as Hback.
  unfold float_repr. destruct (repr_decimal m e) as [c q]. cbn [fst snd] in Hback.
  pose proof (nearest_finite_positive _ _ _ _ _ _ Hback) as Hc.
  set (ds0 := digits_of_Z c).
  assert (Hd0 : Forall digit ds0) by (apply digits_of_Z_valid; lia).
  assert (Hv0 : Z_of_digits ds0 = c) by apply digits_of_Z_value.
  destruct (strip_trailing_zeros_decompose ds0) as [k Hk].
  set (ds := strip_trailing_zeros ds0) in *.
  assert (Hd : Forall digit ds).
  { rewrite Hk in Hd0. apply Forall_app in Hd0. apply Hd0. }
  assert (Hval : c = Z_of_digits ds * 10 ^ Z.of_nat k).
  { rewrite <- Hv0, Hk, Z_of_digits_app, Z_of_digits_repeat_zero, repeat_length. lia. }
  assert (Hne : ds <> []).
  { intros E. rewrite E in Hval. cbn in Hval. lia. }
  assert (Hlen : Z.of_nat (List.length ds0) = Z.of_nat (List.length ds) + Z.of_nat k).
  { rewrite Hk at 1. rewrite length_app, repeat_length. lia. }
  set (decpt := Z.of_nat (List.length ds0) + q).
  destruct (parse_decimal_render ds decpt Hd Hne)
    as (ip & fp & ex & Hp & Hq & ch & r & Hhead & Hdig).
  assert (Hplain : all_plain ((if s then "-" else "") ++ render ds decpt) = true).
  { rewrite all_plain_app, (all_plain_render ds decpt Hd). destruct s; reflexivity. }
  rewrite (py_float_plain _ Hplain). unfold parse_float.
  assert (Hsign : parse_sign ((if s then "-" else "") ++ render ds decpt)
                  = (s, render ds decpt)).
  { destruct s; [reflexivity |]. cbn [append]. rewrite Hhead.
    apply parse_sign_digit, Hdig. }
  rewrite Hsign, Hp. f_equal.
  rewrite (nearest_comp _ _ _ Hq). apply nearest_set_sign.
  rewrite <- Hback. apply nearest_comp.
  rewrite Hval, dec2Q_shift by lia. unfold decpt.
  replace (Z.of_nat (List.length ds0) + q - Z.of_nat (List.length ds))
    with (q + Z.of_nat k) by lia.
  reflexivity.
Qed.

End TextFacts.

Import TextFacts.

(* ================================================================== *)
(** * Facts about dicts and about the normalizer *)
(* ================================================================== *)

Module DictFacts.

Lemma get_set_same (k : string) (v : value) (d : dict) :
  Dict.get k (Dict.set k v d) = Some v.
Proof.
  induction d as [| [k' v'] r IH]; cbn.
  - rewrite String.eqb_refl. reflexivity.
  - destruct (String.eqb k' k) eqn:E; cbn; rewrite E; [reflexivity | exact IH].
Qed.

Lemma get_set_other (k k' : string) (v : value) (d : dict) :
  k <> k' -> Dict.get k' (Dict.set k v d) = Dict.get k' d.
Proof.
  intros Hne. induction d as [| [k0 v0] r IH]; cbn.
  - destruct (String.eqb_spec k k'); [contradiction | reflexivity].
  - destruct (String.eqb_spec k0 k) as [-> | Hk]; cbn.
    + destruct (String.eqb_spec k k'); [contradiction | reflexivity].
    + rewrite IH. reflexivity.
Qed.

Lemma set_set (k : string) (v1 v2 : value) (d : dict) :
  Dict.set k v2 (Dict.set k v1 d) = Dict.set k v2 d.
Proof.
  induction d as [| [k0 v0] r IH]; cbn.
  - rewrite String.eqb_refl. reflexivity.
  - destruct (String.eqb k0 k) eqn:E; cbn; rewrite E; [reflexivity |].
    rewrite IH. reflexivity.
Qed.

Lemma keys_set_present (k : string) (v : value) (d : dict) :
  Dict.get k d <> None -> Dict.keys (Dict.set k v d) = Dict.keys d.
Proof.
  unfold Dict.keys. induction d as [| [k0 v0] r IH]; cbn; [congruence |].
  destruct (String.eqb k0 k) eqn:E; cbn; [reflexivity |].
  intros H. rewrite (IH H). reflexivity.
Qed.

Lemma keys_set_absent (k : string) (v : value) (d : dict) :
  Dict.get k d = None -> Dict.keys (Dict.set k v d) = (Dict.keys d ++ [k])%list.
Proof.
  unfold Dict.keys. induction d as [| [k0 v0] r IH]; cbn; [reflexivity |].
  destruct (String.eqb k0 k) eqn:E; cbn; [discriminate |].
  intros H. rewrite (IH H). reflexivity.
Qed.

Lemma set_get_same (k : string) (v : value) (d : dict) :
  Dict.get k d = Some v -> Dict.set k v d = d.
Proof.
  induction d as [| [k0 v0] r IH]; cbn; [discriminate |].
  destruct (String.eqb k0 k) eqn:E.
  - intros H. injection H as ->. reflexivity.
  - intros H. rewrite (IH H). reflexivity.
Qed.

Lemma set_comm_present (k k' : string) (v v' : value) (d : dict) :
  k <> k' -> Dict.get k d <> None ->
  Dict.set k v (Dict.set k' v' d) = Dict.set k' v' (Dict.set k v d).
Proof.
  intros Hne. induction d as [| [k0 v0] r IH]; cbn; [congruence |].
  destruct (String.eqb_spec k0 k) as [-> | Hk]; cbn.
  - intros _. destruct (String.eqb_spec k k') as [-> | _]; [contradiction |].
    cbn. rewrite String.eqb_refl. reflexivity.
  - intros H. destruct (String.eqb_spec k0 k') as [-> | Hk']; cbn.
    + destruct (String.eqb_spec k' k); [congruence |].
      reflexivity.
    + destruct (String.eqb_spec k0 k); [contradiction |]. cbn.
      destruct (String.eqb_spec k0 k'); [contradiction |].
      rewrite (IH H). reflexivity.
Qed.

End DictFacts.

Import DictFacts.

Module NormalizerFacts.

Local Open Scope string_scope.

Lemma py_float_raises (s : string) (e : exn) :
  py_float s = Raise e -> e = ValueError.
Proof.
  unfold py_float. destruct (drop_underscores _ _); [| congruence].
  destruct (parse_float _); congruence.
Qed.

Lemma amount_valid (v : value) (x : float) :
  amount v = Ok x -> is_valid x = true.
Proof. apply py_float_valid. Qed.

Lemma round2_ok (x : float) :
  is_valid x = true -> py_round x 2 = Ok (round2 x) /\ is_valid (round2 x) = true.
Proof.
  intros Hv. destruct (py_round_2_total x Hv) as (r & Hr & Hvr).
  unfold round2. rewrite Hr. auto.
Qed.

Lemma normalized_valid (v : value) : is_valid (normalized v) = true.
Proof.
  unfold normalized. destruct (amount v) as [x |] eqn:E; [| reflexivity].
  apply round2_ok, (amount_valid v), E.
Qed.

Lemma round2_sign_finite (x : float) :
  is_valid x = true ->
  is_negative (round2 x) = is_negative x /\ is_finite (round2 x) = is_finite x.
Proof.
  intros Hv. destruct (round2_ok x Hv) as [Hr _].
  destruct x as [s | s | | s m e]; try (split; reflexivity).
  rewrite py_round_2_unfold in Hr.
  destruct (nearest_shape s (dec2Q (Qrne (inject_Z (Zpos m) * 2 ^ e * 10 ^ 2)) (- (2))))
    as [E | [E | (p & e' & E)]]; rewrite E in Hr; try discriminate;
    injection Hr as <-; split; reflexivity.
Qed.

Lemma round2_fixed (x : float) :
  is_valid x = true -> py_round (round2 x) 2 = Ok (round2 x).
Proof.
  intros Hv. apply (py_round_2_fixed x); [exact Hv | apply round2_ok, Hv].
Qed.

(** One [try] block, on an invoice that is a dict. *)
Lemma normalize_field_dict (key : string) (inv : dict) (total : float) :
  normalize_field key (VDict inv) total
  = Ok (VDict (Dict.set key (VFloat (normalized (field key inv))) inv),
        add_amount key total inv).
Proof.
  unfold normalize_field, normalized, add_amount. cbn [py_get bind].
  fold (field key inv). fold (amount (field key inv)).
  destruct (amount (field key inv)) as [x | e] eqn:E; cbn [bind].
  - destruct (round2_ok x (amount_valid _ _ E)) as [Hr _]. rewrite Hr. reflexivity.
  - apply py_float_raises in E. subst e. reflexivity.
Qed.

Lemma field_set_other (k k' : string) (v : value) (inv : dict) :
  k <> k' -> field k' (Dict.set k v inv) = field k' inv.
Proof. intros H. unfold field. rewrite get_set_other by exact H. reflexivity. Qed.

Lemma normalize_invoice_eq (inv : dict) :
  normalize_invoice inv
  = Dict.set "WHT" (VFloat (normalized (field "WHT" inv)))
      (Dict.set "Pre_VAT_Amount" (VFloat (normalized (field "Pre_VAT_Amount" inv))) inv).
Proof.
  unfold normalize_invoice. rewrite field_set_other by discriminate. reflexivity.
Qed.

(** The loop, on a list of dicts. *)
Lemma normalize_invoices_dicts (invs : list dict) (tp tw : float) :
  normalize_invoices (map VDict invs) tp tw
  = Ok (map VDict (map normalize_invoice invs),
        fold_left (add_amount "Pre_VAT_Amount") invs tp,
        fold_left (add_amount "WHT") invs tw).
Proof.
  revert tp tw. induction invs as [| inv rest IH]; intros tp tw; [reflexivity |].
  cbn [map normalize_invoices fold_left].
  rewrite normalize_field_dict. cbn [bind fst snd].
  rewrite normalize_field_dict. cbn [bind fst snd].
  rewrite IH. cbn [bind fst snd].
  set (inv1 := Dict.set "Pre_VAT_Amount" _ inv).
  assert (Ea : add_amount "WHT" tw inv1 = add_amount "WHT" tw inv).
  { unfold add_amount, inv1. rewrite field_set_other by discriminate. reflexivity. }
  rewrite Ea. reflexivity.
Qed.

Lemma add_amount_valid (key : string) (total : float) (inv : dict) :
  is_valid total = true -> is_valid (add_amount key total inv) = true.
Proof.
  intros Hv. unfold add_amount.
  destruct (amount (field key inv)) as [x |] eqn:E; [| exact Hv].
  apply fadd_valid; [exact Hv | exact (amount_valid _ _ E)].
Qed.

Lemma fold_add_amount_valid (key : string) (invs : list dict) (total : float) :
  is_valid total = true -> is_valid (fold_left (add_amount key) invs total) = true.
Proof.
  revert total. induction invs as [| inv rest IH]; intros total Hv; [exact Hv |].
  cbn [fold_left]. apply IH, add_amount_valid, Hv.
Qed.

Lemma total_of_valid (key : string) (invs : list dict) :
  is_valid (total_of key invs) = true.
Proof. apply fold_add_amount_valid. reflexivity. Qed.

Lemma set_total_dict (d sm : dict) (slot : string) (total : float) :
  is_valid total = true ->
  Dict.get "Summary" d = Some (VDict sm) ->
  set_total (VDict d) slot total
  = Ok (VDict (Dict.set "Summary" (VDict (Dict.set slot (VFloat (round2 total)) sm)) d)).
Proof.
  intros Hv Hs. unfold set_total. destruct (round2_ok total Hv) as [Hr _].
  rewrite Hr. cbn [bind py_getitem]. rewrite Hs. reflexivity.
Qed.

Lemma store_invoices_eq (d : dict) (invs invs' : list dict) :
  invoices_are d invs ->
  store_invoices (VDict d)
    (match Dict.get "Invoices" d with Some v => v | None => VList [] end)
    (map VDict invs')
  = VDict (with_invoices d invs').
Proof.
  unfold with_invoices. intros [H | [H ->]]; rewrite H; cbn; rewrite H; reflexivity.
Qed.

Lemma with_invoices_get (d : dict) (invs : list dict) (k : string) :
  k <> "Invoices" -> Dict.get k (with_invoices d invs) = Dict.get k d.
Proof.
  intros Hk. unfold with_invoices. destruct (Dict.get "Invoices" d); [| reflexivity].
  apply get_set_other. congruence.
Qed.

(** The whole function, on an input that meets the contract. *)




(** The whole function, on an input that meets the contract. *)
Lemma calculate_summary_contract (d : dict) (invs : list dict) (sm : dict) :
  invoices_are d invs ->
  Dict.get "Summary" d = Some (VDict sm) ->
  calculate_summary (VDict d)
  = Ok (VDict (Dict.set "Summary"
                 (VDict (with_totals sm (round2 (total_of "Pre_VAT_Amount" invs))
                                        (round2 (total_of "WHT" invs))))
                 (with_invoices d (map normalize_invoice invs)))).
Proof.
  intros Hi Hs. unfold calculate_summary. cbn [py_get bind].
  assert (Hit : py_iter (match Dict.get "Invoices" d with
                         | Some v => v | None => VList [] end)
                = Ok (map VDict invs)).
  { destruct Hi as [H | [H ->]]; rewrite H; reflexivity. }
  rewrite Hit. cbn [bind]. rewrite normalize_invoices_dicts. cbn [bind fst snd].
  rewrite (store_invoices_eq d invs _ Hi).
  fold (total_of "Pre_VAT_Amount" invs). fold (total_of "WHT" invs).
  rewrite (set_total_dict _ sm) by
    (try apply total_of_valid; rewrite with_invoices_get by discriminate; exact Hs).
  cbn [bind].
  rewrite (set_total_dict _ (Dict.set "Total_Pre_VAT_Amount"
             (VFloat (round2 (total_of "Pre_VAT_Amount" invs))) sm)) by
    (try apply total_of_valid; apply get_set_same).
  rewrite set_set. reflexivity.
Qed.

Lemma invoices_of_result (d : dict) (invs invs' : list dict) (v : value) :
  invoices_are d invs -> List.length invs' = List.length invs ->
  invoices_of (VDict (Dict.set "Summary" v (with_invoices d invs')))
  = map VDict invs'.
Proof.
  intros Hi Hl. unfold invoices_of. rewrite get_set_other by discriminate.
  unfold with_invoices. destruct Hi as [H | [H ->]]; rewrite H.
  - rewrite get_set_same. reflexivity.
  - rewrite H. destruct invs'; [reflexivity | discriminate].
Qed.

Lemma summary_slot_result (d sm : dict) (slot : string) :
  summary_slot slot (VDict (Dict.set "Summary" (VDict sm) d)) = Dict.get slot sm.
Proof. unfold summary_slot. rewrite get_set_same. reflexivity. Qed.

Lemma normalize_invoice_get_pre (inv : dict) :
  Dict.get "Pre_VAT_Amount" (normalize_invoice inv)
  = Some (VFloat (normalized (field "Pre_VAT_Amount" inv))).
Proof.
  rewrite normalize_invoice_eq, get_set_other by discriminate. apply get_set_same.
Qed.

Lemma normalize_invoice_get_wht (inv : dict) :
  Dict.get "WHT" (normalize_invoice inv)
  = Some (VFloat (normalized (field "WHT" inv))).
Proof. rewrite normalize_invoice_eq. apply get_set_same. Qed.

Lemma normalize_invoice_get (key : string) (inv : dict) :
  key = "Pre_VAT_Amount" \/ key = "WHT" ->
  Dict.get key (normalize_invoice inv) = Some (VFloat (normalized (field key inv))).
Proof.
  intros [-> | ->]; [apply normalize_invoice_get_pre | apply normalize_invoice_get_wht].
Qed.

Lemma normalize_invoice_get_other (key : string) (inv : dict) :
  key <> "Pre_VAT_Amount" -> key <> "WHT" ->
  Dict.get key (normalize_invoice inv) = Dict.get key inv.
Proof.
  intros H1 H2. rewrite normalize_invoice_eq.
  rewrite !get_set_other by congruence. reflexivity.
Qed.


(** ** A second application *)

Lemma normalized_fixed (v : value) :
  py_round (normalized v) 2 = Ok (normalized v).
Proof.
  unfold normalized. destruct (amount v) as [x |] eqn:E; [| reflexivity].
  apply round2_fixed, (amount_valid v), E.
Qed.

(** A stored amount is read back as it is. *)
Lemma amount_of_stored (y : float) : is_valid y = true -> amount (VFloat y) = Ok y.
Proof. apply float_text_roundtrip. Qed.

Lemma normalized_of_normalized (v : value) :
  normalized (VFloat (normalized v)) = normalized v.
Proof.
  unfold normalized at 1. rewrite (amount_of_stored _ (normalized_valid v)).
  unfold round2. rewrite normalized_fixed. reflexivity.
Qed.

Lemma field_of_normalized (key : string) (inv : dict) :
  key = "Pre_VAT_Amount" \/ key = "WHT" ->
  field key (normalize_invoice inv) = VFloat (normalized (field key inv)).
Proof. intros Hk. unfold field at 1. rewrite (normalize_invoice_get key inv Hk). reflexivity. Qed.

Lemma normalize_invoice_idempotent (inv : dict) :
  normalize_invoice (normalize_invoice inv) = normalize_invoice inv.
Proof.
  rewrite (normalize_invoice_eq (normalize_invoice inv)).
  rewrite !field_of_normalized by auto. rewrite !normalized_of_normalized.
  rewrite (set_get_same "Pre_VAT_Amount") by apply normalize_invoice_get_pre.
  apply set_get_same, normalize_invoice_get_wht.
Qed.

Lemma map_normalize_invoice_idempotent (invs : list dict) :
  map normalize_invoice (map normalize_invoice invs) = map normalize_invoice invs.
Proof.
  rewrite map_map. apply map_ext. intros inv. apply normalize_invoice_idempotent.
Qed.

(** After a first application the running totals add the stored amounts. *)
Lemma total_of_normalized (key : string) (invs : list dict) :
  key = "Pre_VAT_Amount" \/ key = "WHT" ->
  total_of key (map normalize_invoice invs)
  = stored_total key (map VDict (map normalize_invoice invs)).
Proof.
  intros Hk. unfold total_of, stored_total. generalize pos_zero.
  induction invs as [| inv rest IH]; intros acc; [reflexivity |].
  cbn [map fold_left]. rewrite <- IH. f_equal.
  unfold add_amount. rewrite (field_of_normalized key inv Hk).
  rewrite (amount_of_stored _ (normalized_valid _)).
  rewrite (normalize_invoice_get key inv Hk). reflexivity.
Qed.

Lemma with_totals_overwrite (sm : dict) (a0 b0 a b : float) :
  with_totals (with_totals sm a0 b0) a b = with_totals sm a b.
Proof.
  unfold with_totals.
  rewrite (set_comm_present "Total_Pre_VAT_Amount" "Total_WHT")
    by (try discriminate; rewrite get_set_same; discriminate).
  rewrite !set_set. reflexivity.
Qed.

Lemma with_invoices_again (d : dict) (invs : list dict) (v : value) :
  with_invoices (Dict.set "Summary" v (with_invoices d invs)) invs
  = Dict.set "Summary" v (with_invoices d invs).
Proof.
  unfold with_invoices at 1. destruct (Dict.get "Invoices" (Dict.set _ _ _)) eqn:E;
    [| reflexivity].
  apply set_get_same. rewrite get_set_other in * by discriminate.
  unfold with_invoices in *. destruct (Dict.get "Invoices" d) eqn:Ed.
  - apply get_set_same.
  - congruence.
Qed.

Lemma invoices_are_result (d : dict) (invs invs' : list dict) (v : value) :
  invoices_are d invs -> List.length invs' = List.length invs ->
  invoices_are (Dict.set "Summary" v (with_invoices d invs')) invs'.
Proof.
  intros Hi Hl. unfold invoices_are. rewrite get_set_other by discriminate.
  unfold with_invoices. destruct Hi as [H | [H ->]]; rewrite H.
  - left. apply get_set_same.
  - right. split; [exact H |]. destruct invs'; [reflexivity | discriminate].
Qed.

(** The function applied to one of its own results. *)
Lemma calculate_summary_again (d : dict) (invs : list dict) (sm : dict) (a b : float) :
  invoices_are d invs ->
  calculate_summary
    (VDict (Dict.set "Summary" (VDict (with_totals sm a b))
              (with_invoices d (map normalize_invoice invs))))
  = Ok (VDict (Dict.set "Summary"
                 (VDict (with_totals sm
                           (round2 (total_of "Pre_VAT_Amount" (map normalize_invoice invs)))
                           (round2 (total_of "WHT" (map normalize_invoice invs)))))
                 (with_invoices d (map normalize_invoice invs)))).
Proof.
  intros Hi.
  rewrite (calculate_summary_contract _ (map normalize_invoice invs) (with_totals sm a b)).
  - rewrite map_normalize_invoice_idempotent, with_invoices_again, set_set,
      with_totals_overwrite. reflexivity.
  - apply (invoices_are_result d invs); [exact Hi | apply length_map].
  - apply get_set_same.
Qed.

End NormalizerFacts.

Import NormalizerFacts.

(* ================================================================== *)
(** * The properties of the specification *)
(* ================================================================== *)

Module Examples.

Local Open Scope string_scope.


(** The addition agrees with the standard library's binary64 addition. *)
Example fadd_tenths :
  fadd (nearest false (1 # 10)) (nearest false (2 # 10))
  = SFadd 53 1024 (nearest false (1 # 10)) (nearest false (2 # 10)).
Proof. vm_compute. reflexivity. Qed.

Example fadd_cancels :
  fadd (nearest false (1 # 10)) (nearest true (1 # 10)) = pos_zero.
Proof. vm_compute. reflexivity. Qed.

Example float_of_text :
  py_float "50000" = Ok (nearest false 50000)
  /\ py_float " 1_000.5 " = Ok (nearest false (2001 # 2))
  /\ py_float "1e5" = Ok (nearest false 100000)
  /\ py_float "-Infinity" = Ok (S754_infinity true)
  /\ py_float "nan" = Ok S754_nan
  /\ py_float "1e400" = Ok (S754_infinity false)
  /\ py_float "50,000" = Raise ValueError
  /\ py_float "1__0" = Raise ValueError
  /\ py_float "" = Raise ValueError.
Proof. by_computation. Qed.

Example text_of_float :
  float_repr (nearest false (1 # 10)) = "0.1"
  /\ float_repr (nearest false 50000) = "50000.0"
  /\ float_repr (nearest true (240057 # 100)) = "-2400.57"
  /\ float_repr (nearest false (10 ^ 16)) = "1e+16"
  /\ float_repr (nearest false (1 # 100000)) = "1e-05"
  /\ float_repr (fadd (nearest false (1 # 10)) (nearest false (2 # 10)))
     = "0.30000000000000004".
Proof. by_computation. Qed.

(** The roundings of the specification: 1234.567 and 1234.564, and two
    ties, which go to the even neighbour of the exact binary value. *)
Example rounding_to_cents :
  py_round (nearest false (1234567 # 1000)) 2 = Ok (nearest false (123457 # 100))
  /\ py_round (nearest false (1234564 # 1000)) 2 = Ok (nearest false (123456 # 100))
  /\ py_round (nearest false (125 # 1000)) 2 = Ok (nearest false (12 # 100))
  /\ py_round (nearest false (375 # 1000)) 2 = Ok (nearest false (38 # 100))
  /\ py_round (nearest true (1 # 1000)) 2 = Ok neg_zero.
Proof. by_computation. Qed.

Example str_of_values :
  py_str (VList [VInt 1; VStr "a"; VFloat (nearest false (5 # 2)); VNone; VBool true])
  = "[1, 'a', 2.5, None, True]"
  /\ py_str (VDict [("a", VInt (-12))]) = "{'a': -12}"
  /\ py_str (VStr "1,500") = "1,500".
Proof. by_computation. Qed.

(** The example of the prompt: 50000 + 60000 + 80000 and 1500 + 1800 +
    2400. *)
Example prompt_totals :
  exists result,
    calculate_summary
      (VDict [("Invoices",
               VList [VDict [("Pre_VAT_Amount", VInt 50000); ("WHT", VInt 1500)];
                      VDict [("Pre_VAT_Amount", VInt 60000); ("WHT", VInt 1800)];
                      VDict [("Pre_VAT_Amount", VInt 80000); ("WHT", VInt 2400)]]);
              ("Summary", VDict [("Total_Pre_VAT_Amount", VFloat pos_zero);
                                 ("Total_WHT", VFloat pos_zero)])])
    = Ok result
    /\ summary_slot "Total_Pre_VAT_Amount" result = Some (VFloat (nearest false 190000))
    /\ summary_slot "Total_WHT" result = Some (VFloat (nearest false 5700)).
Proof. by_computation. Qed.

(** Inputs outside the contract. *)
Example outside_the_contract :
  calculate_summary (VList []) = Raise AttributeError
  /\ calculate_summary (VDict [("Invoices", VNone)]) = Raise TypeError
  /\ calculate_summary (VDict [("Invoices", VList [VInt 1])]) = Raise AttributeError
  /\ calculate_summary (VDict [("Summary", VList [])]) = Raise TypeError.
Proof. by_computation. Qed.

End Examples.

Module Claims.

Local Open Scope string_scope.

(** C1, as stated, fails: on two invoices of 1.004 each the stored
    amounts are 1.0 and 1.0, whose sum rounds to 2.0, while the total
    written to the Summary is 2.01, the rounding of 1.004 + 1.004. *)
Lemma total_is_not_the_sum_of_the_stored_amounts :
  exists result,
    calculate_summary rounding_example = Ok result
    /\ summary_slot "Total_Pre_VAT_Amount" result
       <> Some (VFloat (round2 (stored_total "Pre_VAT_Amount" (invoices_of result)))).
Proof.
  eexists. split; [vm_compute; reflexivity |]. vm_compute. discriminate.
Qed.

(** C1, amended: each Summary total is the 2-decimal rounding of the
    float sum, in sequence order and starting from 0.0, of the amounts
    as they were parsed, before their own rounding; a value that does
    not parse adds nothing.  Both totals are recomputed whatever the
    Summary held on input. *)
Theorem summary_totals_are_rounded_sums (d : dict) (invs : list dict) (sm : dict) :
  invoices_are d invs ->
  Dict.get "Summary" d = Some (VDict sm) ->
  exists result,
    calculate_summary (VDict d) = Ok result
    /\ py_round (total_of "Pre_VAT_Amount" invs) 2
       = Ok (round2 (total_of "Pre_VAT_Amount" invs))
    /\ py_round (total_of "WHT" invs) 2 = Ok (round2 (total_of "WHT" invs))
    /\ summary_slot "Total_Pre_VAT_Amount" result
       = Some (VFloat (round2 (total_of "Pre_VAT_Amount" invs)))
    /\ summary_slot "Total_WHT" result
       = Some (VFloat (round2 (total_of "WHT" invs))).
Proof.
  intros Hi Hs. eexists. split; [apply (calculate_summary_contract d invs sm Hi Hs) |].
  split; [apply round2_ok, total_of_valid |].
  split; [apply round2_ok, total_of_valid |].
  rewrite !summary_slot_result. unfold with_totals. split.
  - rewrite get_set_other by discriminate. apply get_set_same.
  - apply get_set_same.
Qed.

Lemma summary_totals_are_rounded_sums_witness :
  invoices_are prompt_example prompt_invoices
  /\ Dict.get "Summary" prompt_example = Some (VDict prompt_summary)
  /\ exists result,
       calculate_summary (VDict prompt_example) = Ok result
       /\ py_round (total_of "Pre_VAT_Amount" prompt_invoices) 2
          = Ok (round2 (total_of "Pre_VAT_Amount" prompt_invoices))
       /\ py_round (total_of "WHT" prompt_invoices) 2
          = Ok (round2 (total_of "WHT" prompt_invoices))
       /\ summary_slot "Total_Pre_VAT_Amount" result
          = Some (VFloat (round2 (total_of "Pre_VAT_Amount" prompt_invoices)))
       /\ summary_slot "Total_WHT" result
          = Some (VFloat (round2 (total_of "WHT" prompt_invoices))).
Proof.
  split; [left; reflexivity | split; [reflexivity |]].
  apply (summary_totals_are_rounded_sums prompt_example prompt_invoices prompt_summary);
    [left; reflexivity | reflexivity].
Defined.

(** C2, as stated, fails: on two invoices of 1.004 each the first
    application stores the total 2.01 and the second application, which
    adds the stored amounts 1.0 and 1.0, replaces it by 2.0. *)
Lemma second_application_changes_the_total :
  exists once twice,
    calculate_summary rounding_example = Ok once
    /\ calculate_summary once = Ok twice
    /\ twice <> once.
Proof.
  do 2 eexists. split; [vm_compute; reflexivity |].
  split; [vm_compute; reflexivity |]. discriminate.
Qed.

(** C2, amended: a second application leaves every invoice field and
    every key other than the two totals as the first application left
    them, and sets each total to the rounded sum of the stored, already
    rounded amounts.  The two results are therefore identical exactly
    when these totals agree with the totals of the first application;
    and from the second application on the function is idempotent. *)
Theorem second_application_recomputes_only_the_totals
  (d : dict) (invs : list dict) (sm : dict) :
  invoices_are d invs ->
  Dict.get "Summary" d = Some (VDict sm) ->
  exists once twice,
    calculate_summary (VDict d) = Ok once
    /\ calculate_summary once = Ok twice
    /\ calculate_summary twice = Ok twice
    /\ invoices_of twice = invoices_of once
    /\ (exists d1 d2 sm1 sm2,
          once = VDict d1 /\ twice = VDict d2
          /\ Dict.keys d2 = Dict.keys d1
          /\ (forall k, k <> "Summary" -> Dict.get k d2 = Dict.get k d1)
          /\ Dict.get "Summary" d1 = Some (VDict sm1)
          /\ Dict.get "Summary" d2 = Some (VDict sm2)
          /\ forall k, k <> "Total_Pre_VAT_Amount" -> k <> "Total_WHT" ->
                       Dict.get k sm2 = Dict.get k sm1)
    /\ summary_slot "Total_Pre_VAT_Amount" twice
       = Some (VFloat (round2 (stored_total "Pre_VAT_Amount" (invoices_of once))))
    /\ summary_slot "Total_WHT" twice
       = Some (VFloat (round2 (stored_total "WHT" (invoices_of once))))
    /\ (summary_slot "Total_Pre_VAT_Amount" twice
          = summary_slot "Total_Pre_VAT_Amount" once ->
        summary_slot "Total_WHT" twice = summary_slot "Total_WHT" once ->
        twice = once).
Proof.
  intros Hi Hs.
  set (invs1 := map normalize_invoice invs).
  set (D := with_invoices d invs1).
  set (a := round2 (total_of "Pre_VAT_Amount" invs)).
  set (b := round2 (total_of "WHT" invs)).
  set (a' := round2 (total_of "Pre_VAT_Amount" invs1)).
  set (b' := round2 (total_of "WHT" invs1)).
  exists (VDict (Dict.set "Summary" (VDict (with_totals sm a b)) D)),
         (VDict (Dict.set "Summary" (VDict (with_totals sm a' b')) D)).
  assert (Hinv : forall v, invoices_of (VDict (Dict.set "Summary" v D)) = map VDict invs1).
  { intros v. apply (invoices_of_result d invs); [exact Hi | apply length_map]. }
  assert (Hget : forall t1 t2, 
            Dict.get "Total_Pre_VAT_Amount" (with_totals sm t1 t2) = Some (VFloat t1)
            /\ Dict.get "Total_WHT" (with_totals sm t1 t2) = Some (VFloat t2)).
  { intros t1 t2. unfold with_totals. split; [| apply get_set_same].
    rewrite get_set_other by discriminate. apply get_set_same. }
  split; [apply (calculate_summary_contract d invs sm Hi Hs) |].
  split; [apply (calculate_summary_again d invs sm a b Hi) |].
  split; [apply (calculate_summary_again d invs sm a' b' Hi) |].
  split; [rewrite !Hinv; reflexivity |].
  split.
  { exists (Dict.set "Summary" (VDict (with_totals sm a b)) D),
           (Dict.set "Summary" (VDict (with_totals sm a' b')) D),
           (with_totals sm a b), (with_totals sm a' b').
    assert (HS : Dict.get "Summary" D <> None).
    { unfold D. rewrite with_invoices_get by discriminate. congruence. }
    repeat (split; [reflexivity |]).
    split; [rewrite !keys_set_present by exact HS; reflexivity |].
    split; [intros k Hk; rewrite !get_set_other by congruence; reflexivity |].
    split; [apply get_set_same |]. split; [apply get_set_same |].
    intros k H1 H2. unfold with_totals. rewrite !get_set_other by congruence.
    reflexivity. }
  rewrite !summary_slot_result, Hinv.
  destruct (Hget a b) as [Ga Gb]. destruct (Hget a' b') as [Ga' Gb'].
  rewrite Ga, Gb, Ga', Gb'.
  split; [unfold a', invs1; rewrite total_of_normalized by auto; reflexivity |].
  split; [unfold b', invs1; rewrite total_of_normalized by auto; reflexivity |].
  intros Ea Eb. injection Ea as ->. injection Eb as ->. reflexivity.
Qed.

Lemma second_application_recomputes_only_the_totals_witness :
  invoices_are prompt_example prompt_invoices
  /\ Dict.get "Summary" prompt_example = Some (VDict prompt_summary)
  /\ exists once twice,
       calculate_summary (VDict prompt_example) = Ok once
       /\ calculate_summary once = Ok twice
       /\ calculate_summary twice = Ok twice
       /\ invoices_of twice = invoices_of once.
Proof.
  split; [left; reflexivity | split; [reflexivity |]].
  destruct (second_application_recomputes_only_the_totals prompt_example
              prompt_invoices prompt_summary (or_introl eq_refl) eq_refl)
    as (once & twice & H1 & H2 & H3 & H4 & _).
  exists once, twice. auto.
Defined.

(** C3: every invoice entry is replaced by its normalization, which
    stores in each of the two monetary fields the float obtained by
    rendering the value to text, removing the commas, parsing the text
    as a float and rounding it to 2 decimals; the text "50,000" gives
    50000.0. *)
Theorem monetary_fields_are_normalized (d : dict) (invs : list dict) (sm : dict) :
  invoices_are d invs ->
  Dict.get "Summary" d = Some (VDict sm) ->
  exists result,
    calculate_summary (VDict d) = Ok result
    /\ invoices_of result = map VDict (map normalize_invoice invs)
    /\ (forall inv key x,
          key = "Pre_VAT_Amount" \/ key = "WHT" ->
          py_float (str_replace "," "" (py_str (field key inv))) = Ok x ->
          exists y, py_round x 2 = Ok y
                    /\ Dict.get key (normalize_invoice inv) = Some (VFloat y))
    /\ (forall inv,
          Dict.get "Pre_VAT_Amount" inv = Some (VStr "50,000") ->
          exists y, Dict.get "Pre_VAT_Amount" (normalize_invoice inv) = Some (VFloat y)
                    /\ (F2Q y == 50000)%Q).
Proof.
  intros Hi Hs. eexists. split; [apply (calculate_summary_contract d invs sm Hi Hs) |].
  split; [apply (invoices_of_result d invs); [exact Hi | apply length_map] |].
  split.
  - intros inv key x Hk Hx. exists (round2 x). split.
    + apply round2_ok, (py_float_valid _ _ Hx).
    + rewrite (normalize_invoice_get key inv Hk). unfold normalized, amount.
      rewrite Hx. reflexivity.
  - intros inv H. eexists. split.
    + rewrite normalize_invoice_get_pre. unfold field. rewrite H. reflexivity.
    + vm_compute. reflexivity.
Qed.

Lemma monetary_fields_are_normalized_witness :
  invoices_are prompt_example prompt_invoices
  /\ Dict.get "Summary" prompt_example = Some (VDict prompt_summary)
  /\ exists result,
       calculate_summary (VDict prompt_example) = Ok result
       /\ invoices_of result = map VDict (map normalize_invoice prompt_invoices).
Proof.
  split; [left; reflexivity | split; [reflexivity |]].
  destruct (monetary_fields_are_normalized prompt_example prompt_invoices
              prompt_summary (or_introl eq_refl) eq_refl) as (result & H & Hinv & _).
  exists result. split; assumption.
Defined.

(** C4: a monetary value whose text is not a number after the commas
    are removed (such as "" or "N/A") is replaced by 0.0; no exception
    is raised and every invoice of the list is processed. *)
Theorem unparsable_fields_default_to_zero (d : dict) (invs : list dict) (sm : dict) :
  invoices_are d invs ->
  Dict.get "Summary" d = Some (VDict sm) ->
  exists result,
    calculate_summary (VDict d) = Ok result
    /\ invoices_of result = map VDict (map normalize_invoice invs)
    /\ (forall inv key e,
          key = "Pre_VAT_Amount" \/ key = "WHT" ->
          py_float (str_replace "," "" (py_str (field key inv))) = Raise e ->
          Dict.get key (normalize_invoice inv) = Some (VFloat pos_zero))
    /\ py_float (str_replace "," "" (py_str (VStr ""))) = Raise ValueError
    /\ py_float (str_replace "," "" (py_str (VStr "N/A"))) = Raise ValueError.
Proof.
  intros Hi Hs. eexists. split; [apply (calculate_summary_contract d invs sm Hi Hs) |].
  split; [apply (invoices_of_result d invs); [exact Hi | apply length_map] |].
  split; [| split; reflexivity].
  intros inv key e Hk He. rewrite (normalize_invoice_get key inv Hk).
  unfold normalized, amount. rewrite He. reflexivity.
Qed.

Lemma unparsable_fields_default_to_zero_witness :
  invoices_are prompt_example prompt_invoices
  /\ Dict.get "Summary" prompt_example = Some (VDict prompt_summary)
  /\ exists result,
       calculate_summary (VDict prompt_example) = Ok result
       /\ Dict.get "WHT" (normalize_invoice
                            [("Invoice_No", VStr "INV-Temp");
                             ("Pre_VAT_Amount", VInt 60000); ("WHT", VStr "N/A")])
          = Some (VFloat pos_zero).
Proof.
  split; [left; reflexivity | split; [reflexivity |]].
  destruct (unparsable_fields_default_to_zero prompt_example prompt_invoices
              prompt_summary (or_introl eq_refl) eq_refl)
    as (result & H & _ & Hz & _).
  exists result. split; [exact H |].
  apply (Hz _ "WHT" ValueError); [right; reflexivity | reflexivity].
Defined.


(** C5, as stated, fails: the amount "-5" is stored as -5.0, a negative
    number, and the withholding "inf" as an infinity. *)
Lemma stored_amounts_may_be_negative_or_infinite :
  exists result inv y,
    calculate_summary negative_example = Ok result
    /\ invoices_of result = [VDict inv]
    /\ Dict.get "Pre_VAT_Amount" inv = Some (VFloat y)
    /\ is_negative y = true
    /\ Dict.get "WHT" inv = Some (VFloat (S754_infinity false)).
Proof.
  do 3 eexists. split; [vm_compute; reflexivity |].
  split; [reflexivity |]. split; [reflexivity |]. split; reflexivity.
Qed.

(** C5, amended: after [calculate_summary] every invoice's
    Pre_VAT_Amount and WHT field holds a float that is its own
    2-decimal rounding; it is 0.0 when the input does not parse, and
    otherwise it is finite exactly when the parsed number (the float
    that [float] returns for the text of the field) is finite, and has a
    negative sign exactly when the parsed number has one.  The input
    itself does not decide either: the integer 10^400 and the text
    "1e400" are stored as an infinity, "-0.001" as -0.0 and "nan" as
    NaN. *)
Theorem stored_amounts_are_rounded (d : dict) (invs : list dict) (sm : dict) :
  invoices_are d invs ->
  Dict.get "Summary" d = Some (VDict sm) ->
  exists result,
    calculate_summary (VDict d) = Ok result
    /\ invoices_of result = map VDict (map normalize_invoice invs)
    /\ forall inv key,
         key = "Pre_VAT_Amount" \/ key = "WHT" ->
         exists y,
           Dict.get key (normalize_invoice inv) = Some (VFloat y)
           /\ is_valid y = true
           /\ py_round y 2 = Ok y
           /\ (forall e, py_float (str_replace "," "" (py_str (field key inv))) = Raise e ->
                         y = pos_zero)
           /\ (forall x, py_float (str_replace "," "" (py_str (field key inv))) = Ok x ->
                         is_negative y = is_negative x /\ is_finite y = is_finite x)
           /\ (field key inv = VInt (10 ^ 400) -> y = S754_infinity false)
           /\ (field key inv = VStr "1e400" -> y = S754_infinity false)
           /\ (field key inv = VStr "-0.001" -> y = neg_zero)
           /\ (field key inv = VStr "nan" -> y = S754_nan).
Proof.
  intros Hi Hs. eexists. split; [apply (calculate_summary_contract d invs sm Hi Hs) |].
  split; [apply (invoices_of_result d invs); [exact Hi | apply length_map] |].
  intros inv key Hk. exists (normalized (field key inv)).
  split; [apply normalize_invoice_get, Hk |].
  split; [apply normalized_valid |].
  assert (Hex : (field key inv = VInt (10 ^ 400) ->
                 normalized (field key inv) = S754_infinity false)
                /\ (field key inv = VStr "1e400" ->
                    normalized (field key inv) = S754_infinity false)
                /\ (field key inv = VStr "-0.001" ->
                    normalized (field key inv) = neg_zero)
                /\ (field key inv = VStr "nan" ->
                    normalized (field key inv) = S754_nan)).
  { split; [| split; [| split]]; intros ->; vm_compute; reflexivity. }
  revert Hex. unfold normalized, amount.
  destruct (py_float (str_replace "," "" (py_str (field key inv)))) as [x | e] eqn:E;
    intros Hex.
  - pose proof (py_float_valid _ _ E) as Hv. split; [apply round2_fixed, Hv |].
    split; [discriminate |]. split; [| exact Hex].
    intros x' Hx'. injection Hx' as <-.
    apply round2_sign_finite, Hv.
  - split; [reflexivity |]. split; [reflexivity |]. split; [discriminate | exact Hex].
Qed.

Lemma stored_amounts_are_rounded_witness :
  invoices_are prompt_example prompt_invoices
  /\ Dict.get "Summary" prompt_example = Some (VDict prompt_summary)
  /\ exists result,
       calculate_summary (VDict prompt_example) = Ok result
       /\ invoices_of result = map VDict (map normalize_invoice prompt_invoices).
Proof.
  split; [left; reflexivity | split; [reflexivity |]].
  destruct (stored_amounts_are_rounded prompt_example prompt_invoices
              prompt_summary (or_introl eq_refl) eq_refl) as (result & H & Hinv & _).
  exists result. split; assumption.
Defined.

(** C6: on an input whose "Invoices" is absent or a list of dicts and
    whose "Summary" is a dict, [calculate_summary] returns a result: no
    exception escapes, whatever the invoices hold. *)
Theorem no_exception_under_contract (d : dict) (invs : list dict) (sm : dict) :
  invoices_are d invs ->
  Dict.get "Summary" d = Some (VDict sm) ->
  exists result, calculate_summary (VDict d) = Ok result.
Proof.
  intros Hi Hs. eexists. apply (calculate_summary_contract d invs sm Hi Hs).
Qed.

Lemma no_exception_under_contract_witness :
  invoices_are prompt_example prompt_invoices
  /\ Dict.get "Summary" prompt_example = Some (VDict prompt_summary)
  /\ exists result, calculate_summary (VDict prompt_example) = Ok result.
Proof.
  split; [left; reflexivity | split; [reflexivity |]].
  apply (no_exception_under_contract prompt_example prompt_invoices prompt_summary);
    [left; reflexivity | reflexivity].
Defined.



(** C9: [calculate_summary] changes only the two monetary fields of
    each invoice and the two total slots of the Summary.  The keys of
    the document and the value of every key other than "Invoices" and
    "Summary" are unchanged; the invoices are the same in number and
    order, each keeping its other keys, in order, with their values; the
    Summary keeps its other slots. *)
Theorem only_amounts_and_totals_change (d : dict) (invs : list dict) (sm : dict) :
  invoices_are d invs ->
  Dict.get "Summary" d = Some (VDict sm) ->
  exists d' sm',
    calculate_summary (VDict d) = Ok (VDict d')
    /\ Dict.keys d' = Dict.keys d
    /\ (forall k, k <> "Invoices" -> k <> "Summary" -> Dict.get k d' = Dict.get k d)
    /\ invoices_of (VDict d') = map VDict (map normalize_invoice invs)
    /\ List.length (invoices_of (VDict d')) = List.length invs
    /\ (forall inv k, k <> "Pre_VAT_Amount" -> k <> "WHT" ->
                      Dict.get k (normalize_invoice inv) = Dict.get k inv)
    /\ (forall inv, exists added,
          Dict.keys (normalize_invoice inv) = (Dict.keys inv ++ added)%list)
    /\ Dict.get "Summary" d' = Some (VDict sm')
    /\ (forall k, k <> "Total_Pre_VAT_Amount" -> k <> "Total_WHT" ->
                  Dict.get k sm' = Dict.get k sm).
Proof.
  intros Hi Hs. do 2 eexists.
  split; [apply (calculate_summary_contract d invs sm Hi Hs) |].
  assert (Hinv : invoices_of (VDict (Dict.set "Summary"
                   (VDict (with_totals sm (round2 (total_of "Pre_VAT_Amount" invs))
                                          (round2 (total_of "WHT" invs))))
                   (with_invoices d (map normalize_invoice invs))))
                 = map VDict (map normalize_invoice invs)).
  { apply (invoices_of_result d invs); [exact Hi | apply length_map]. }
  split; [| split; [| split; [exact Hinv | split; [| split; [| split; [| split]]]]]].
  - rewrite keys_set_present.
    + unfold with_invoices. destruct (Dict.get "Invoices" d) eqn:E; [| reflexivity].
      apply keys_set_present. congruence.
    + rewrite with_invoices_get by discriminate. congruence.
  - intros k H1 H2. rewrite get_set_other by congruence.
    apply with_invoices_get, H1.
  - rewrite Hinv, !length_map. reflexivity.
  - intros inv k. apply normalize_invoice_get_other.
  - intros inv. rewrite normalize_invoice_eq.
    set (inv1 := Dict.set "Pre_VAT_Amount" _ inv).
    assert (H1 : exists a, Dict.keys inv1 = (Dict.keys inv ++ a)%list).
    { unfold inv1. destruct (Dict.get "Pre_VAT_Amount" inv) eqn:E.
      - exists []. rewrite keys_set_present by congruence. symmetry. apply app_nil_r.
      - eexists. apply keys_set_absent, E. }
    destruct H1 as [a Ha]. destruct (Dict.get "WHT" inv1) eqn:E.
    + exists a. rewrite keys_set_present by congruence. exact Ha.
    + eexists. rewrite keys_set_absent by exact E. rewrite Ha, <- app_assoc. reflexivity.
  - apply get_set_same.
  - intros k H1 H2. unfold with_totals. rewrite !get_set_other by congruence.
    reflexivity.
Qed.

Lemma only_amounts_and_totals_change_witness :
  invoices_are prompt_example prompt_invoices
  /\ Dict.get "Summary" prompt_example = Some (VDict prompt_summary)
  /\ exists d',
       calculate_summary (VDict prompt_example) = Ok (VDict d')
       /\ Dict.keys d' = Dict.keys prompt_example
       /\ forall k, k <> "Invoices" -> k <> "Summary" ->
                    Dict.get k d' = Dict.get k prompt_example.
Proof.
  split; [left; reflexivity | split; [reflexivity |]].
  destruct (only_amounts_and_totals_change prompt_example prompt_invoices
              prompt_summary (or_introl eq_refl) eq_refl)
    as (d' & sm' & H & Hk & Hg & _).
  exists d'. auto.
Defined.

(** C10, as stated, fails: an input without a "Summary" key does not
    always raise [KeyError].  The loop over the invoices runs first, and
    when it raises, its exception is the one that escapes:
    [AttributeError] for an invoice that is not a mapping, [TypeError]
    for "Invoices" bound to null. *)
Lemma missing_summary_may_raise_another_exception :
  Dict.get "Summary" [("Invoices", VList [VInt 1])] = None
  /\ calculate_summary (VDict [("Invoices", VList [VInt 1])]) = Raise AttributeError
  /\ Dict.get "Summary" [("Invoices", VNone)] = None
  /\ calculate_summary (VDict [("Invoices", VNone)]) = Raise TypeError.
Proof. by_computation. Qed.

(** C10, amended: without a "Summary" key, and with "Invoices" absent or
    a list of dicts (the empty list included), so that the loop
    completes, the function raises [KeyError]. *)
Theorem missing_summary_raises_KeyError (d : dict) (invs : list dict) :
  invoices_are d invs ->
  Dict.get "Summary" d = None ->
  calculate_summary (VDict d) = Raise KeyError.
Proof.
  intros Hi Hs. unfold calculate_summary. cbn [py_get bind].
  assert (Hit : py_iter (match Dict.get "Invoices" d with
                         | Some v => v | None => VList [] end)
                = Ok (map VDict invs)).
  { destruct Hi as [H | [H ->]]; rewrite H; reflexivity. }
  rewrite Hit. cbn [bind]. rewrite normalize_invoices_dicts. cbn [bind fst snd].
  rewrite (store_invoices_eq d invs _ Hi). unfold set_total.
  fold (total_of "Pre_VAT_Amount" invs).
  destruct (round2_ok _ (total_of_valid "Pre_VAT_Amount" invs)) as [Hr _].
  rewrite Hr. cbn [bind py_getitem].
  rewrite with_invoices_get by discriminate. rewrite Hs. reflexivity.
Qed.

Lemma missing_summary_raises_KeyError_witness :
  invoices_are [("Invoices", VList (map VDict prompt_invoices))] prompt_invoices
  /\ Dict.get "Summary" [("Invoices", VList (map VDict prompt_invoices))] = None
  /\ calculate_summary (VDict [("Invoices", VList (map VDict prompt_invoices))])
     = Raise KeyError
  /\ calculate_summary (VDict []) = Raise KeyError
  /\ calculate_summary (VDict [("Invoices", VList [])]) = Raise KeyError.
Proof.
  split; [left; reflexivity | split; [reflexivity |]].
  split; [| split].
  - apply (missing_summary_raises_KeyError _ prompt_invoices); [left |]; reflexivity.
  - apply (missing_summary_raises_KeyError [] []); [right; split |]; reflexivity.
  - apply (missing_summary_raises_KeyError [("Invoices", VList [])] []);
      [left |]; reflexivity.
Defined.


Section BatchClaims.

Local Open Scope list_scope.

Variable b64encode : string -> string.
Variable create : list (list content_part) -> list content_part -> completion.
Variable json_loads : string -> option value.

Local Abbreviation one := (process_one_company b64encode create json_loads).
Local Abbreviation from := (process_from b64encode create json_loads).
Local Abbreviation all := (process_multiple_companies b64encode create json_loads).
Local Abbreviation req := (request_of b64encode).

Lemma requests_app (w1 w2 : world) :
  requests (w1 ++ w2) = (requests w1 ++ requests w2)%list.
Proof.
  induction w1 as [| ev r IH]; [reflexivity |].
  destruct ev; cbn; rewrite IH; reflexivity.
Qed.

Lemma requests_report_usage (r : completion) : requests (report_usage r) = [].
Proof. unfold report_usage. destruct (usage r) as [[[p c] t] |]; reflexivity. Qed.

(** A company sends exactly one request, whatever the outcome. *)
Lemma process_one_company_requests (files : list file) (w : world) :
  requests (snd (one files w)) = (requests w ++ [req files])%list.
Proof.
  unfold process_one_company.
  destruct (json_loads _); cbn [snd];
    rewrite ?requests_app; cbn [requests]; rewrite ?requests_app, requests_report_usage;
    cbn [requests]; rewrite ?app_nil_r; reflexivity.
Qed.

Lemma process_from_app (idx : nat) (before rest : list (list file))
  (companies : list value) (w : world) :
  from idx (before ++ rest)%list companies w
  = match from idx before companies w with
    | (Ok companies', w') => from (idx + List.length before)%nat rest companies' w'
    | (Raise e, w') => (Raise e, w')
    end.
Proof.
  revert idx companies w. induction before as [| files more IH]; intros idx companies w.
  - cbn. rewrite Nat.add_0_r. reflexivity.
  - cbn [app process_from List.length].
    destruct (process_one_company _ _ _ files _) as [[c | e] w2].
    + rewrite IH. replace (S idx + List.length more)%nat
        with (idx + S (List.length more))%nat by lia. reflexivity.
    + reflexivity.
Qed.

Lemma process_from_requests (idx : nat) (sets : list (list file))
  (companies companies' : list value) (w w' : world) :
  from idx sets companies w = (Ok companies', w') ->
  requests w' = (requests w ++ map req sets)%list.
Proof.
  revert idx companies w. induction sets as [| files more IH]; intros idx companies w.
  - cbn. intros H. injection H as _ <-. symmetry. apply app_nil_r.
  - cbn [process_from map].
    pose proof (process_one_company_requests files
                  (w ++ [StWrite (ProcessingCompany idx (List.length files))])) as Hr.
    destruct (process_one_company _ _ _ files _) as [[c | e] w2]; [| discriminate].
    intros H. rewrite (IH _ _ _ H). cbn [snd] in Hr. rewrite Hr, requests_app.
    cbn [requests]. rewrite app_nil_r, <- app_assoc. reflexivity.
Qed.

(** C8: when the reply for company N is not JSON, the batch stops with
    the decode exception: no envelope is returned, so the results of
    the companies before N are lost; company N is asked once and the
    later companies are not asked at all; the user is shown the error
    and the raw reply. *)
Theorem decode_failure_aborts_the_batch
  (before : list (list file)) (files : list file) (after : list (list file))
  (w w1 : world) (companies : list value) :
  from 1%nat before [] w = (Ok companies, w1) ->
  let wN := (w1 ++ [StWrite (ProcessingCompany (S (List.length before))
                                               (List.length files));
                    StWrite WaitingForGPT])%list in
  let response := create (requests wN) (req files) in
  json_loads (message_content response) = None ->
  all (before ++ files :: after)%list w
  = (Raise JSONDecodeError,
     (wN ++ Request (req files) :: report_usage response
         ++ [StError InvalidJSON; StText (message_content response)])%list)
  /\ requests (snd (all (before ++ files :: after)%list w))
     = (requests w ++ map req (before ++ [files]))%list.
Proof.
  intros Hbefore wN response Hbad.
  assert (E : all (before ++ files :: after)%list w
              = (Raise JSONDecodeError,
                 (wN ++ Request (req files) :: report_usage response
                     ++ [StError InvalidJSON; StText (message_content response)])%list)).
  { unfold process_multiple_companies.
    rewrite process_from_app, Hbefore. cbn [process_from Nat.add].
    unfold process_one_company.
    replace ((w1 ++ [StWrite (ProcessingCompany (S (List.length before))
                                                (List.length files))])
               ++ [StWrite WaitingForGPT])%list with wN
      by (unfold wN; rewrite <- app_assoc; reflexivity).
    fold response. rewrite Hbad. rewrite <- !app_assoc. reflexivity. }
  split; [exact E |]. rewrite E. cbn [snd].
  unfold wN. rewrite !requests_app. cbn [requests]. 
  rewrite requests_app, requests_report_usage. cbn [requests].
  rewrite (process_from_requests _ _ _ _ _ _ Hbefore), map_app, !app_nil_r.
  rewrite <- app_assoc. reflexivity.
Qed.

End BatchClaims.

(** The first company of the sample batch is processed, the reply for
    the second is not JSON. *)
Lemma decode_failure_aborts_the_batch_witness :
  process_from (fun f => f) sample_create sample_json_loads 1 [["a.png"]] [] []
  = (Ok [VDict [("Invoices", VList [VDict [("WHT", VFloat (nearest false 1500));
                                           ("Pre_VAT_Amount", VFloat pos_zero)]]);
                ("Summary", VDict [("Total_Pre_VAT_Amount", VFloat pos_zero);
                                   ("Total_WHT", VFloat (nearest false 1500))])]],
     [StWrite (ProcessingCompany 1 1); StWrite WaitingForGPT;
      Request (request_of (fun f => f) ["a.png"]);
      Stdout (TokensUsed 12 34 46); StWrite (TokensUsed 12 34 46)])
  /\ sample_json_loads
       (message_content
          (sample_create [request_of (fun f => f) ["a.png"]]
                         (request_of (fun f => f) ["b.png"; "c.png"])))
     = None
  /\ fst (process_multiple_companies (fun f => f) sample_create sample_json_loads
            [["a.png"]; ["b.png"; "c.png"]; ["d.png"]] [])
     = Raise JSONDecodeError
  /\ requests (snd (process_multiple_companies (fun f => f) sample_create
                      sample_json_loads
                      [["a.png"]; ["b.png"; "c.png"]; ["d.png"]] []))
     = [request_of (fun f => f) ["a.png"];
        request_of (fun f => f) ["b.png"; "c.png"]].
Proof.
  assert (H1 : process_from (fun f => f) sample_create sample_json_loads 1
                 [["a.png"]] [] []
               = (Ok [VDict [("Invoices",
                              VList [VDict [("WHT", VFloat (nearest false 1500));
                                            ("Pre_VAT_Amount", VFloat pos_zero)]]);
                             ("Summary",
                              VDict [("Total_Pre_VAT_Amount", VFloat pos_zero);
                                     ("Total_WHT", VFloat (nearest false 1500))])]],
                  [StWrite (ProcessingCompany 1 1); StWrite WaitingForGPT;
                   Request (request_of (fun f => f) ["a.png"]);
                   Stdout (TokensUsed 12 34 46); StWrite (TokensUsed 12 34 46)]))
    by (vm_compute; reflexivity).
  split; [exact H1 | split; [reflexivity |]].
  destruct (decode_failure_aborts_the_batch (fun f => f) sample_create
              sample_json_loads [["a.png"]] ["b.png"; "c.png"] [["d.png"]]
              [] _ _ H1 eq_refl) as [E R].
  split; [exact (f_equal fst E) | exact R].
Defined.

End Claims.

Import Claims.

(* ================================================================== *)
(** * Further properties of the code *)
(* ================================================================== *)

Module MoreBatch.

Local Open Scope string_scope.

Section Collaborators.

Local Open Scope list_scope.

Variable b64encode : string -> string.
Variable create : list (list content_part) -> list content_part -> completion.
Variable json_loads : string -> option value.

Local Abbreviation one := (process_one_company b64encode create json_loads).
Local Abbreviation from := (process_from b64encode create json_loads).
Local Abbreviation all := (process_multiple_companies b64encode create json_loads).
Local Abbreviation req := (request_of b64encode).

(** A company result is what [calculate_summary] returns on some
    decoded reply. *)
Lemma process_one_company_result (files : list file) (w w' : world) (c : value) :
  one files w = (Ok c, w') ->
  exists raw data, json_loads raw = Some data /\ calculate_summary data = Ok c.
Proof.
  unfold process_one_company.
  set (raw := message_content _). destruct (json_loads raw) as [data |] eqn:E;
    [| discriminate].
  intros H. injection H as H _. exists raw, data. auto.
Qed.

Lemma process_from_companies (idx : nat) (sets : list (list file))
  (companies companies' : list value) (w w' : world) :
  from idx sets companies w = (Ok companies', w') ->
  exists new,
    companies' = companies ++ new
    /\ List.length new = List.length sets
    /\ Forall (fun c => exists raw data,
                   json_loads raw = Some data /\ calculate_summary data = Ok c) new.
Proof.
  revert idx companies w. induction sets as [| files more IH]; intros idx companies w.
  - cbn. intros H. injection H as <- _. exists []. rewrite app_nil_r. auto.
  - cbn [process_from].
    destruct (process_one_company _ _ _ files _) as [[c | e] w2] eqn:E; [| discriminate].
    intros H. destruct (IH _ _ _ H) as (new & -> & Hl & Hf).
    exists (c :: new). rewrite <- app_assoc. split; [reflexivity |].
    split; [cbn; lia |]. constructor; [| exact Hf].
    apply (process_one_company_result _ _ _ _ E).
Qed.

(** What a company that is accepted was computed from: the reply to its
    own request, sent after the requests that the world already holds. *)
Lemma process_one_company_reply (files : list file) (w w' : world) (c : value) :
  one files w = (Ok c, w') ->
  (exists data,
     json_loads (message_content (create (requests w) (req files))) = Some data
     /\ calculate_summary data = Ok c)
  /\ requests w' = requests w ++ [req files].
Proof.
  intros H. split.
  - revert H. unfold process_one_company.
    assert (E : requests (w ++ [StWrite WaitingForGPT]) = requests w)
      by (rewrite requests_app; apply app_nil_r).
    rewrite E.
    destruct (json_loads (message_content (create (requests w) (req files))))
      as [data |]; [| discriminate].
    intros H. injection H as H _. exists data. auto.
  - pose proof (process_one_company_requests b64encode create json_loads files w) as Hr.
    rewrite H in Hr. exact Hr.
Qed.

(** The loop appends one company per group, in order: the company at
    position [i] is computed from the reply to the request of the group
    at position [i], which the endpoint gave after the requests of the
    groups before it. *)
Lemma process_from_entries (idx : nat) (sets : list (list file))
  (companies companies' : list value) (w w' : world) :
  from idx sets companies w = (Ok companies', w') ->
  exists new,
    companies' = companies ++ new
    /\ List.length new = List.length sets
    /\ forall i files,
         nth_error sets i = Some files ->
         exists data c,
           json_loads
             (message_content
                (create (requests w ++ map req (firstn i sets)) (req files)))
           = Some data
           /\ calculate_summary data = Ok c
           /\ nth_error new i = Some c.
Proof.
  revert idx companies w. induction sets as [| files more IH]; intros idx companies w.
  - cbn. intros H. injection H as <- _. exists []. rewrite app_nil_r.
    split; [reflexivity |]. split; [reflexivity |]. intros [| i] f Hf; discriminate.
  - cbn [process_from].
    destruct (process_one_company _ _ _ files _) as [[c | e] w2] eqn:E; [| discriminate].
    intros H. destruct (IH _ _ _ H) as (new & -> & Hl & Hn).
    destruct (process_one_company_reply _ _ _ _ E) as [(data & Hd & Hc) Hq].
    assert (Ew : requests (w ++ [StWrite (ProcessingCompany idx (List.length files))])
                 = requests w) by (rewrite requests_app; apply app_nil_r).
    rewrite Ew in Hd, Hq.
    exists (c :: new). rewrite <- app_assoc. split; [reflexivity |].
    split; [cbn; lia |]. intros [| i] f Hf.
    + cbn in Hf. injection Hf as <-. exists data, c. cbn [firstn map nth_error].
      rewrite app_nil_r. auto.
    + cbn [nth_error] in Hf. destruct (Hn i f Hf) as (data' & c' & Hd' & Hc' & Hi').
      exists data', c'. cbn [firstn map nth_error].
      rewrite Hq, <- app_assoc in Hd'. auto.
Qed.

(** X1.  When [process_multiple_companies] returns, its result is the
    envelope [{"companies": [...]}] with exactly one entry per submitted
    group, in submission order: the entry at position [i] is
    [calculate_summary] of the decoded reply to the request of the group
    at position [i], the reply that the endpoint gave after the requests
    of the groups before it.  Exactly one request was sent per group, in
    that order; a group without files is sent too. *)
Theorem envelope_has_one_company_per_group
  (invoice_sets : list (list file)) (w w' : world) (result : value) :
  all invoice_sets w = (Ok result, w') ->
  exists companies,
    result = VDict [("companies", VList companies)]
    /\ List.length companies = List.length invoice_sets
    /\ (forall i files,
          nth_error invoice_sets i = Some files ->
          exists data c,
            json_loads
              (message_content
                 (create (requests w ++ map req (firstn i invoice_sets)) (req files)))
            = Some data
            /\ calculate_summary data = Ok c
            /\ nth_error companies i = Some c)
    /\ requests w' = requests w ++ map req invoice_sets.
Proof.
  unfold process_multiple_companies.
  destruct (process_from _ _ _ 1 invoice_sets [] w) as [[companies | e] w1] eqn:E;
    [| discriminate].
  intros H. injection H as <- <-. exists companies.
  destruct (process_from_entries _ _ _ _ _ _ E) as (new & -> & Hl & Hn).
  split; [reflexivity |]. split; [exact Hl |]. split; [exact Hn |].
  apply (process_from_requests _ _ _ _ _ _ _ _ _ E).
Qed.

(** The events that a company adds when its reply decodes. *)
Lemma process_one_company_decoded (files : list file) (w : world) (data : value) :
  json_loads
    (message_content (create (requests (w ++ [StWrite WaitingForGPT])) (req files)))
  = Some data ->
  one files w
  = (calculate_summary data,
     (w ++ [StWrite WaitingForGPT])
       ++ Request (req files)
          :: report_usage (create (requests (w ++ [StWrite WaitingForGPT]))
                                  (req files))).
Proof. intros H. unfold process_one_company. rewrite H. reflexivity. Qed.

Lemma report_usage_no_error (r : completion) :
  existsb is_error_event (report_usage r) = false.
Proof. unfold report_usage. destruct (usage r) as [[[p c] t] |]; reflexivity. Qed.

(** X2.  A reply that is JSON but on which [calculate_summary] raises
    (no "Summary", a document that is not an object, ...) aborts the
    batch with that exception: no envelope is returned, the later
    companies are not asked, and, unlike for a reply that is not JSON,
    the code shows no error message and no raw text. *)
Theorem contract_failure_aborts_silently
  (before : list (list file)) (files : list file) (after : list (list file))
  (w w1 : world) (companies : list value) (data : value) (e : exn) :
  from 1%nat before [] w = (Ok companies, w1) ->
  let wN := w1 ++ [StWrite (ProcessingCompany (S (List.length before))
                                              (List.length files));
                   StWrite WaitingForGPT] in
  let response := create (requests wN) (req files) in
  json_loads (message_content response) = Some data ->
  calculate_summary data = Raise e ->
  all (before ++ files :: after) w
  = (Raise e, wN ++ Request (req files) :: report_usage response)
  /\ existsb is_error_event
       (skipn (List.length w1) (snd (all (before ++ files :: after) w))) = false
  /\ requests (snd (all (before ++ files :: after) w))
     = requests w ++ map req (before ++ [files]).
Proof.
  intros Hbefore wN response Hdec Hraise.
  assert (E : all (before ++ files :: after) w
              = (Raise e, wN ++ Request (req files) :: report_usage response)).
  { unfold process_multiple_companies.
    rewrite process_from_app, Hbefore. cbn [process_from Nat.add].
    assert (EwN : (w1 ++ [StWrite (ProcessingCompany (S (List.length before))
                                                     (List.length files))])
                    ++ [StWrite WaitingForGPT] = wN)
      by (unfold wN; rewrite <- app_assoc; reflexivity).
    rewrite (process_one_company_decoded files _ data); rewrite EwN;
      [| exact Hdec].
    fold response. rewrite Hraise. reflexivity. }
  split; [exact E |]. rewrite E. cbn [snd]. split.
  - unfold wN. rewrite <- app_assoc, skipn_app, skipn_all, Nat.sub_diag.
    cbn [skipn app existsb is_error_event orb]. apply report_usage_no_error.
  - unfold wN. rewrite !requests_app. cbn [requests].
    rewrite requests_report_usage.
    rewrite (process_from_requests _ _ _ _ _ _ _ _ _ Hbefore), map_app, !app_nil_r.
    rewrite <- app_assoc. reflexivity.
Qed.

(** X3.  A company whose reply decodes to a document that meets the
    contract is returned normalized, with both totals set to the rounded
    sums; one request is sent and no error is shown. *)
Theorem process_one_company_normalizes
  (files : list file) (w : world) (d : dict) (invs : list dict) (sm : dict) :
  let w1 := w ++ [StWrite WaitingForGPT] in
  let response := create (requests w1) (req files) in
  json_loads (message_content response) = Some (VDict d) ->
  invoices_are d invs ->
  Dict.get "Summary" d = Some (VDict sm) ->
  exists result,
    one files w = (Ok result, w1 ++ Request (req files) :: report_usage response)
    /\ invoices_of result = map VDict (map normalize_invoice invs)
    /\ summary_slot "Total_Pre_VAT_Amount" result
       = Some (VFloat (round2 (total_of "Pre_VAT_Amount" invs)))
    /\ summary_slot "Total_WHT" result
       = Some (VFloat (round2 (total_of "WHT" invs)))
    /\ requests (snd (one files w)) = requests w ++ [req files].
Proof.
  intros w1 response Hdec Hi Hs.
  eexists. split.
  - rewrite (process_one_company_decoded files w (VDict d) Hdec).
    rewrite (calculate_summary_contract d invs sm Hi Hs). reflexivity.
  - split; [apply (invoices_of_result d invs); [exact Hi | apply length_map] |].
    rewrite !summary_slot_result. unfold with_totals.
    split; [rewrite get_set_other by discriminate; apply get_set_same |].
    split; [apply get_set_same |].
    apply process_one_company_requests.
Qed.

End Collaborators.

Lemma envelope_has_one_company_per_group_witness :
  let decode := fun s => if String.eqb s "document"
                         then sample_json_loads s
                         else Some (VDict [("Summary", VDict [])]) in
  exists result w' companies c2,
    process_multiple_companies (fun f => f) sample_create decode
      [["a.png"]; []] [] = (Ok result, w')
    /\ result = VDict [("companies", VList companies)]
    /\ List.length companies = 2%nat
    /\ calculate_summary (VDict [("Summary", VDict [])]) = Ok c2
    /\ nth_error companies 1 = Some c2
    /\ requests w' = [request_of (fun f => f) ["a.png"]; request_of (fun f => f) []].
Proof.
  intros decode.
  destruct (process_multiple_companies (fun f => f) sample_create decode
              [["a.png"]; []] []) as [[result | e] w'] eqn:E;
    [| vm_compute in E; discriminate].
  destruct (envelope_has_one_company_per_group (fun f => f) sample_create
              decode [["a.png"]; []] [] w' result E)
    as (companies & Hr & Hl & Hn & Hq).
  destruct (Hn 1%nat [] eq_refl) as (data & c2 & Hd & Hc & Hi).
  vm_compute in Hd. injection Hd as <-.
  exists result, w', companies, c2. auto 10.
Defined.

Lemma contract_failure_aborts_silently_witness :
  process_from (fun f => f) sample_create (fun _ => Some (VList [])) 1 [] [] []
  = (Ok [], [])
  /\ calculate_summary (VList []) = Raise AttributeError
  /\ fst (process_multiple_companies (fun f => f) sample_create
            (fun _ => Some (VList [])) [["a.png"]; ["b.png"]] [])
     = Raise AttributeError
  /\ requests (snd (process_multiple_companies (fun f => f) sample_create
                      (fun _ => Some (VList [])) [["a.png"]; ["b.png"]] []))
     = [request_of (fun f => f) ["a.png"]].
Proof.
  split; [reflexivity | split; [reflexivity |]].
  destruct (contract_failure_aborts_silently (fun f => f) sample_create
              (fun _ => Some (VList [])) [] ["a.png"] [["b.png"]] [] [] []
              (VList []) AttributeError eq_refl eq_refl eq_refl) as (E & _ & R).
  split; [exact (f_equal fst E) | exact R].
Defined.

Lemma process_one_company_normalizes_witness :
  exists result,
    fst (process_one_company (fun f => f) sample_create sample_json_loads
           ["a.png"] [])
    = Ok result
    /\ summary_slot "Total_WHT" result
       = Some (VFloat (round2 (total_of "WHT" [[("WHT", VStr "1,500")]]))).
Proof.
  destruct (process_one_company_normalizes (fun f => f) sample_create
              sample_json_loads ["a.png"] []
              [("Invoices", VList [VDict [("WHT", VStr "1,500")]]);
               ("Summary", VDict [])]
              [[("WHT", VStr "1,500")]] [] eq_refl (or_introl eq_refl) eq_refl)
    as (result & E & _ & _ & Hw & _).
  exists result. split; [exact (f_equal fst E) | exact Hw].
Defined.

End MoreBatch.

Module MoreNormalizer.

Local Open Scope string_scope.

(** An invoice entry that is not a dict stops the loop. *)
Lemma normalize_invoices_stops (before : list dict) (v : value) (rest : list value)
  (tp tw : float) :
  is_dict v = false ->
  normalize_invoices (map VDict before ++ v :: rest)%list tp tw = Raise AttributeError.
Proof.
  intros Hv. revert tp tw. induction before as [| inv more IH]; intros tp tw.
  - cbn [map app normalize_invoices]. destruct v; try discriminate; reflexivity.
  - cbn [map app normalize_invoices].
    rewrite normalize_field_dict. cbn [bind fst snd].
    rewrite normalize_field_dict. cbn [bind fst snd].
    rewrite IH. reflexivity.
Qed.

(** X4.  If an entry of "Invoices" is not a mapping (a number, a text, a
    list, null), [calculate_summary] raises [AttributeError]: the
    [ValueError] handler does not absorb it, whatever the entries before
    it and after it and whether or not a "Summary" is there. *)
Theorem non_mapping_invoice_raises_AttributeError
  (d : dict) (before : list dict) (v : value) (rest : list value) :
  Dict.get "Invoices" d = Some (VList (map VDict before ++ v :: rest)%list) ->
  is_dict v = false ->
  calculate_summary (VDict d) = Raise AttributeError.
Proof.
  intros Hi Hv. unfold calculate_summary. cbn [py_get bind]. rewrite Hi.
  cbn [py_iter bind]. rewrite (normalize_invoices_stops before v rest _ _ Hv).
  reflexivity.
Qed.

Lemma non_mapping_invoice_raises_AttributeError_witness :
  Dict.get "Invoices"
    [("Invoices", VList (map VDict prompt_invoices ++ VInt 7 :: [VDict []])%list);
     ("Summary", VDict prompt_summary)]
  = Some (VList (map VDict prompt_invoices ++ VInt 7 :: [VDict []])%list)
  /\ is_dict (VInt 7) = false
  /\ calculate_summary
       (VDict [("Invoices",
                VList (map VDict prompt_invoices ++ VInt 7 :: [VDict []])%list);
               ("Summary", VDict prompt_summary)])
     = Raise AttributeError.
Proof.
  split; [reflexivity | split; [reflexivity |]].
  apply (non_mapping_invoice_raises_AttributeError _ prompt_invoices (VInt 7) [VDict []]);
    reflexivity.
Defined.

(** X5.  If "Summary" is bound to something that is not a mapping,
    [calculate_summary] raises [TypeError], after the loop over the
    invoices has completed. *)
Theorem non_mapping_summary_raises_TypeError
  (d : dict) (invs : list dict) (v : value) :
  invoices_are d invs ->
  Dict.get "Summary" d = Some v ->
  is_dict v = false ->
  calculate_summary (VDict d) = Raise TypeError.
Proof.
  intros Hi Hs Hv. unfold calculate_summary. cbn [py_get bind].
  assert (Hit : py_iter (match Dict.get "Invoices" d with
                         | Some x => x | None => VList [] end)
                = Ok (map VDict invs)).
  { destruct Hi as [H | [H ->]]; rewrite H; reflexivity. }
  rewrite Hit. cbn [bind]. rewrite normalize_invoices_dicts. cbn [bind fst snd].
  rewrite (store_invoices_eq d invs _ Hi). unfold set_total.
  fold (total_of "Pre_VAT_Amount" invs).
  destruct (round2_ok _ (total_of_valid "Pre_VAT_Amount" invs)) as [Hr _].
  rewrite Hr. cbn [bind py_getitem].
  rewrite with_invoices_get by discriminate. rewrite Hs. cbn [bind].
  destruct v; try discriminate; reflexivity.
Qed.

Lemma non_mapping_summary_raises_TypeError_witness :
  invoices_are [("Invoices", VList (map VDict prompt_invoices)); ("Summary", VNone)]
               prompt_invoices
  /\ Dict.get "Summary"
       [("Invoices", VList (map VDict prompt_invoices)); ("Summary", VNone)]
     = Some VNone
  /\ is_dict VNone = false
  /\ calculate_summary
       (VDict [("Invoices", VList (map VDict prompt_invoices)); ("Summary", VNone)])
     = Raise TypeError.
Proof.
  split; [left; reflexivity | split; [reflexivity | split; [reflexivity |]]].
  apply (non_mapping_summary_raises_TypeError _ prompt_invoices VNone);
    [left |..]; reflexivity.
Defined.

(** X6.  If "Invoices" is bound to a value that cannot be iterated
    (null, a number, a boolean), [calculate_summary] raises [TypeError];
    the default [[]] applies to a missing key only. *)
Theorem non_iterable_invoices_raises_TypeError (d : dict) (v : value) :
  Dict.get "Invoices" d = Some v ->
  is_iterable v = false ->
  calculate_summary (VDict d) = Raise TypeError.
Proof.
  intros Hi Hv. unfold calculate_summary. cbn [py_get bind]. rewrite Hi.
  destruct v; try discriminate; reflexivity.
Qed.

Lemma non_iterable_invoices_raises_TypeError_witness :
  Dict.get "Invoices" [("Invoices", VNone); ("Summary", VDict prompt_summary)]
  = Some VNone
  /\ is_iterable VNone = false
  /\ calculate_summary
       (VDict [("Invoices", VNone); ("Summary", VDict prompt_summary)])
     = Raise TypeError.
Proof.
  split; [reflexivity | split; [reflexivity |]].
  apply (non_iterable_invoices_raises_TypeError _ VNone); reflexivity.
Defined.


Lemma set_absent (k : string) (v : value) (d : dict) :
  Dict.get k d = None -> Dict.set k v d = (d ++ [(k, v)])%list.
Proof.
  induction d as [| [k0 v0] r IH]; cbn; [reflexivity |].
  destruct (String.eqb k0 k); [discriminate |]. intros H. rewrite (IH H). reflexivity.
Qed.

Lemma fadd_zero_r (t : float) : t <> neg_zero -> fadd t pos_zero = t.
Proof.
  destruct t as [[] | s | | s m e]; try reflexivity. intros H. exfalso. apply H.
  reflexivity.
Qed.

(** X7.  An invoice without the key of a monetary field gets the key,
    with the value 0.0, after its other keys: the default "0" of [get]
    is parsed and stored like any other value, and 0.0 is added to the
    running total, which leaves it as it is. *)
Theorem missing_amount_is_added_as_zero (key : string) (inv : dict) (total : float) :
  Dict.get key inv = None ->
  normalize_field key (VDict inv) total
  = Ok (VDict (inv ++ [(key, VFloat pos_zero)])%list, fadd total pos_zero)
  /\ (total <> neg_zero -> fadd total pos_zero = total).
Proof.
  intros H. split; [| apply fadd_zero_r].
  rewrite normalize_field_dict. unfold add_amount, field. rewrite H.
  rewrite (set_absent key _ inv H). reflexivity.
Qed.

Lemma missing_amount_is_added_as_zero_witness :
  Dict.get "WHT" [("Invoice_No", VStr "INV-Temp")] = None
  /\ normalize_field "WHT" (VDict [("Invoice_No", VStr "INV-Temp")]) (nearest false 1500)
     = Ok (VDict [("Invoice_No", VStr "INV-Temp"); ("WHT", VFloat pos_zero)],
           fadd (nearest false 1500) pos_zero).
Proof.
  split; [reflexivity |].
  apply (missing_amount_is_added_as_zero "WHT" [("Invoice_No", VStr "INV-Temp")]).
  reflexivity.
Defined.

(** The text of a list or of a dict is not a number. *)
Lemma py_float_bracket (c : ascii) (r : string) :
  c = "["%char \/ c = "{"%char ->
  py_float (str_replace "," EmptyString (String c r)) = Raise ValueError.
Proof.
  intros [-> | ->]; cbn [str_replace]; 
    (change (Ascii.eqb _ ",") with false; cbv iota);
    unfold py_float; cbn [map_string];
    (change (to_ascii _) with "["%char || change (to_ascii _) with "{"%char);
    cbn [drop_underscores];
    (change (Ascii.eqb _ "_") with false; cbv iota; cbn [andb]);
    destruct (drop_underscores _ _) as [s |]; cbn [option_map]; reflexivity.
Qed.

Lemma amount_not_numeric (v : value) :
  is_numeric_or_text v = false -> amount v = Raise ValueError.
Proof.
  destruct v as [| b | n | x | s | l | d]; try discriminate; intros _.
  - reflexivity.
  - destruct b; reflexivity.
  - unfold amount. cbn [py_str py_repr]. apply py_float_bracket. left. reflexivity.
  - unfold amount. cbn [py_str py_repr]. apply py_float_bracket. right. reflexivity.
Qed.

(** X8.  A monetary field holding null, a boolean, a list or an object
    is set to 0.0 and adds nothing to the total: the text of such a
    value ("None", "True", "[...]", "{...}") is not a number, and the
    [ValueError] is absorbed. *)
Theorem non_numeric_values_become_zero
  (key : string) (inv : dict) (v : value) (total : float) :
  Dict.get key inv = Some v ->
  is_numeric_or_text v = false ->
  normalize_field key (VDict inv) total
  = Ok (VDict (Dict.set key (VFloat pos_zero) inv), total).
Proof.
  intros Hg Hv. rewrite normalize_field_dict. unfold add_amount, normalized, field.
  rewrite Hg, (amount_not_numeric v Hv). reflexivity.
Qed.

Lemma non_numeric_values_become_zero_witness :
  Dict.get "WHT" [("WHT", VList [VInt 1; VInt 2])] = Some (VList [VInt 1; VInt 2])
  /\ is_numeric_or_text (VList [VInt 1; VInt 2]) = false
  /\ normalize_field "WHT" (VDict [("WHT", VList [VInt 1; VInt 2])]) pos_zero
     = Ok (VDict [("WHT", VFloat pos_zero)], pos_zero).
Proof.
  split; [reflexivity | split; [reflexivity |]].
  exact (non_numeric_values_become_zero "WHT" [("WHT", VList [VInt 1; VInt 2])]
           (VList [VInt 1; VInt 2]) pos_zero eq_refl eq_refl).
Defined.

(** ** Not-a-number *)

Lemma fadd_nan_l (x : float) : fadd S754_nan x = S754_nan.
Proof. reflexivity. Qed.

Lemma fadd_nan_r (x : float) : fadd x S754_nan = S754_nan.
Proof. destruct x; reflexivity. Qed.

Lemma fold_add_amount_nan (key : string) (invs : list dict) :
  fold_left (add_amount key) invs S754_nan = S754_nan.
Proof.
  induction invs as [| inv rest IH]; [reflexivity |]. cbn [fold_left].
  replace (add_amount key S754_nan inv) with S754_nan; [exact IH |].
  unfold add_amount. destruct (amount _); reflexivity.
Qed.

Lemma total_of_nan (key : string) (invs : list dict) (inv : dict) :
  In inv invs -> amount (field key inv) = Ok S754_nan ->
  total_of key invs = S754_nan.
Proof.
  intros Hin Hn. unfold total_of. generalize pos_zero.
  induction invs as [| i rest IH]; [destruct Hin |]. intros acc. cbn [fold_left].
  destruct Hin as [-> | Hin]; [| apply IH, Hin].
  unfold add_amount at 2. rewrite Hn, fadd_nan_r. apply fold_add_amount_nan.
Qed.

(** X9.  One amount that parses to NaN (the text "nan", or a NaN that
    the decoder accepted) makes the total of its column NaN, whatever
    the other invoices hold. *)
Theorem a_nan_amount_makes_the_total_nan
  (d : dict) (invs : list dict) (sm : dict) (inv : dict) :
  invoices_are d invs ->
  Dict.get "Summary" d = Some (VDict sm) ->
  In inv invs ->
  exists result,
    calculate_summary (VDict d) = Ok result
    /\ (amount (field "Pre_VAT_Amount" inv) = Ok S754_nan ->
        summary_slot "Total_Pre_VAT_Amount" result = Some (VFloat S754_nan))
    /\ (amount (field "WHT" inv) = Ok S754_nan ->
        summary_slot "Total_WHT" result = Some (VFloat S754_nan))
    /\ amount (VStr "nan") = Ok S754_nan
    /\ amount (VFloat S754_nan) = Ok S754_nan.
Proof.
  intros Hi Hs Hin. eexists.
  split; [apply (calculate_summary_contract d invs sm Hi Hs) |].
  rewrite !summary_slot_result. unfold with_totals.
  split; [| split; [| split; reflexivity]].
  - intros Hn. rewrite get_set_other by discriminate. rewrite get_set_same.
    rewrite (total_of_nan _ _ _ Hin Hn). reflexivity.
  - intros Hn. rewrite get_set_same. rewrite (total_of_nan _ _ _ Hin Hn). reflexivity.
Qed.

Lemma a_nan_amount_makes_the_total_nan_witness :
  invoices_are [("Invoices", VList (map VDict [[("WHT", VInt 5)]; [("WHT", VStr "nan")]]));
                ("Summary", VDict [])]
               [[("WHT", VInt 5)]; [("WHT", VStr "nan")]]
  /\ In [("WHT", VStr "nan")] [[("WHT", VInt 5)]; [("WHT", VStr "nan")]]
  /\ exists result,
       calculate_summary
         (VDict [("Invoices",
                  VList (map VDict [[("WHT", VInt 5)]; [("WHT", VStr "nan")]]));
                 ("Summary", VDict [])])
       = Ok result
       /\ summary_slot "Total_WHT" result = Some (VFloat S754_nan).
Proof.
  split; [left; reflexivity | split; [right; left; reflexivity |]].
  destruct (a_nan_amount_makes_the_total_nan
              [("Invoices", VList (map VDict [[("WHT", VInt 5)]; [("WHT", VStr "nan")]]));
               ("Summary", VDict [])]
              [[("WHT", VInt 5)]; [("WHT", VStr "nan")]] []
              [("WHT", VStr "nan")] (or_introl eq_refl) eq_refl
              (or_intror (or_introl eq_refl)))
    as (result & H & _ & Hw & _).
  exists result. split; [exact H | apply Hw; reflexivity].
Defined.

End MoreNormalizer.

(* ================================================================== *)
(** * The page *)
(* ================================================================== *)

Module ScriptFacts.

Local Open Scope string_scope.
Local Open Scope nat_scope.
Local Open Scope list_scope.

(** ** The loop over the uploaders *)

Lemma uploaders_groups (groups : list (list file)) (inp : inputs) :
  forall i d, fst (fst (uploaders i groups inp d)) = after_uploads i groups inp.
Proof.
  induction groups as [| g rest IH]; intros i d; [reflexivity |].
  cbn [uploaders after_uploads fst]. rewrite IH. reflexivity.
Qed.

Lemma uploaders_headers (groups : list (list file)) (inp : inputs) :
  forall i d,
    snd (fst (uploaders i groups inp d))
    = map CompanyHeader (seq (S i) (List.length groups)).
Proof.
  induction groups as [| g rest IH]; intros i d; [reflexivity |].
  cbn [uploaders fst snd List.length seq map]. rewrite IH. reflexivity.
Qed.

Lemma after_uploads_length (groups : list (list file)) (inp : inputs) :
  forall i, List.length (after_uploads i groups inp) = List.length groups.
Proof.
  induction groups as [| g rest IH]; intros i; [reflexivity |].
  cbn [after_uploads List.length]. rewrite IH. reflexivity.
Qed.

(** An upload replaces the files of its group; no upload leaves them. *)
Lemma after_uploads_nth (groups : list (list file)) (inp : inputs) :
  forall i j g,
    nth_error groups j = Some g ->
    nth_error (after_uploads i groups inp) j
    = Some (match uploaded inp (i + j) with
            | [] => g
            | f :: more => f :: more
            end).
Proof.
  induction groups as [| g0 rest IH]; intros i j g; [destruct j; discriminate |].
  destruct j as [| j]; cbn [nth_error after_uploads].
  - intros H. injection H as ->. rewrite Nat.add_0_r. reflexivity.
  - intros H. rewrite (IH (S i) j g H).
    replace (S i + j) with (i + S j) by lia. reflexivity.
Qed.

Lemma uploaders_no_click (groups : list (list file)) (inp : inputs) :
  forall i d,
    (forall j, i <= j < i + List.length groups -> delete_clicked inp j = false) ->
    snd (uploaders i groups inp d) = d.
Proof.
  induction groups as [| g rest IH]; intros i d H; [reflexivity |].
  cbn [uploaders snd]. rewrite (H i) by (cbn [List.length]; lia).
  apply IH. intros j Hj. apply H. cbn [List.length]. lia.
Qed.

Lemma uploaders_last_click (groups : list (list file)) (inp : inputs) (k : nat) :
  forall i d,
    i <= k < i + List.length groups ->
    delete_clicked inp k = true ->
    (forall j, k < j < i + List.length groups -> delete_clicked inp j = false) ->
    snd (uploaders i groups inp d) = Some k.
Proof.
  induction groups as [| g rest IH]; intros i d Hk Hc Hlater;
    cbn [List.length] in *; [lia |].
  cbn [uploaders snd]. destruct (Nat.eq_dec i k) as [-> | Hne].
  - rewrite Hc. apply uploaders_no_click. intros j Hj. apply Hlater. lia.
  - apply IH; [lia | exact Hc |]. intros j Hj. apply Hlater. lia.
Qed.

Lemma uploaders_noted (groups : list (list file)) (inp : inputs) (k : nat) :
  forall i d,
    snd (uploaders i groups inp d) = Some k ->
    d = Some k \/ (i <= k < i + List.length groups /\ delete_clicked inp k = true).
Proof.
  induction groups as [| g rest IH]; intros i d; cbn [uploaders snd List.length].
  - auto.
  - intros H. destruct (IH _ _ H) as [Hd | [Hk Hc]]; [| right; split; [lia | exact Hc]].
    destruct (delete_clicked inp i) eqn:E; [| left; exact Hd].
    injection Hd as <-. right. split; [lia | exact E].
Qed.

(** ** [del l[i]] *)

Lemma remove_at_length {A : Type} (i : nat) (l : list A) :
  i < List.length l -> List.length (remove_at i l) = List.length l - 1.
Proof.
  intros H. unfold remove_at. rewrite length_app, length_firstn, length_skipn. lia.
Qed.

Lemma remove_at_nth {A : Type} (i j : nat) (l : list A) :
  i < List.length l ->
  nth_error (remove_at i l) j = nth_error l (if j <? i then j else S j).
Proof.
  intros H. unfold remove_at. destruct (j <? i) eqn:E.
  - apply Nat.ltb_lt in E. rewrite nth_error_app1 by (rewrite length_firstn; lia).
    rewrite nth_error_firstn. apply Nat.ltb_lt in E. rewrite E. reflexivity.
  - apply Nat.ltb_ge in E. rewrite nth_error_app2 by (rewrite length_firstn; lia).
    rewrite length_firstn, nth_error_skipn. f_equal. lia.
Qed.

Lemma uploaders_none (groups : list (list file)) (inp : inputs) :
  forall i d,
    snd (uploaders i groups inp d) = None ->
    d = None
    /\ forall j, i <= j < i + List.length groups -> delete_clicked inp j = false.
Proof.
  induction groups as [| g rest IH]; intros i d; cbn [uploaders snd List.length].
  - intros ->. split; [reflexivity | lia].
  - intros H. destruct (IH _ _ H) as [Hd Hr].
    destruct (delete_clicked inp i) eqn:E; [discriminate |].
    split; [exact Hd |]. intros j Hj.
    destruct (Nat.eq_dec j i) as [-> | Hne]; [exact E | apply Hr; lia].
Qed.

Lemma existsb_headers (f : nat -> shown) (p : shown -> bool) (l : list nat) :
  (forall n, p (f n) = false) -> existsb p (map f l) = false.
Proof.
  intros H. induction l as [| n r IH]; [reflexivity |].
  cbn [map existsb]. rewrite H, IH. reflexivity.
Qed.

Lemma existsb_batch (p : shown -> bool) (l : list event) :
  (forall e, p (FromBatch e) = false) -> existsb p (map FromBatch l) = false.
Proof.
  intros H. induction l as [| n r IH]; [reflexivity |].
  cbn [map existsb]. rewrite H, IH. reflexivity.
Qed.

Section Script.

Variable b64encode : string -> string.
Variable create : list (list content_part) -> list content_part -> completion.
Variable json_loads : string -> option value.
Variable json_dumps : value -> string.

Local Abbreviation run := (Page.run b64encode create json_loads json_dumps).
Local Abbreviation session := (Page.session b64encode create json_loads json_dumps).
Local Abbreviation all := (process_multiple_companies b64encode create json_loads).

(** A run in which neither "Add" nor a delete button is clicked. *)
Lemma run_quiet (secret : option string) (ss : option (list (list file)))
  (w : world) (inp : inputs) :
  api_key secret <> None ->
  add_clicked inp = false ->
  (forall i, i < List.length (session_groups ss) -> delete_clicked inp i = false) ->
  let groups := after_uploads 0 (session_groups ss) inp in
  let top := [Title; Intro]
             ++ map CompanyHeader (seq 1 (List.length (session_groups ss))) in
  run secret ss w inp
  = if process_clicked inp then
      if any_files groups then
        let b := all groups w in
        let batch := map FromBatch (skipn (List.length w) (snd b)) in
        match fst b with
        | Ok result =>
            {| state := Some groups;
               page := top ++ batch
                       ++ [FinalHeader; StJson result;
                           DownloadButton (json_dumps result)];
               history := snd b; outcome_of := Completed |}
        | Raise e =>
            {| state := Some groups; page := top ++ batch;
               history := snd b; outcome_of := Failed (Escaped e) |}
        end
      else
        {| state := Some groups; page := top ++ [Warning];
           history := w; outcome_of := Completed |}
    else
      {| state := Some groups; page := top; history := w;
         outcome_of := Completed |}.
Proof.
  intros Hk Ha Hd groups top. unfold Page.run.
  destruct (api_key secret); [| contradiction]. rewrite Ha.
  change (match ss with None => [[]] | Some g => g end) with (session_groups ss).
  rewrite uploaders_no_click by (intros j Hj; apply Hd; lia).
  rewrite uploaders_groups, uploaders_headers. reflexivity.
Qed.

(** A run in which a delete button is clicked, and not "Add". *)
Lemma run_delete (secret : option string) (ss : option (list (list file)))
  (w : world) (inp : inputs) (i : nat) :
  api_key secret <> None ->
  add_clicked inp = false ->
  snd (uploaders 0 (session_groups ss) inp None) = Some i ->
  run secret ss w inp
  = {| state := Some (match remove_at i (after_uploads 0 (session_groups ss) inp) with
                      | [] => [[]]
                      | remaining => remaining
                      end);
       page := [Title; Intro]
               ++ map CompanyHeader (seq 1 (List.length (session_groups ss)));
       history := w; outcome_of := Rerun |}.
Proof.
  intros Hk Ha Hd. unfold Page.run.
  destruct (api_key secret); [| contradiction]. rewrite Ha.
  change (match ss with None => [[]] | Some g => g end) with (session_groups ss).
  rewrite Hd, uploaders_groups, uploaders_headers. reflexivity.
Qed.

(** X10.  A click on the delete button of company [i] (the last one
    clicked, should several be) removes exactly that group, keeps the
    others in their order with the uploads of this run, sends nothing and
    restarts the script; the only group left is replaced by an empty
    one. *)
Theorem delete_removes_the_clicked_group
  (secret : option string) (ss : option (list (list file))) (w : world)
  (inp : inputs) (i : nat) :
  api_key secret <> None ->
  add_clicked inp = false ->
  i < List.length (session_groups ss) ->
  delete_clicked inp i = true ->
  (forall j, i < j < List.length (session_groups ss) -> delete_clicked inp j = false) ->
  let r := run secret ss w inp in
  let groups := after_uploads 0 (session_groups ss) inp in
  outcome_of r = Rerun
  /\ history r = w
  /\ (List.length groups = 1 -> state r = Some [[]])
  /\ (1 < List.length groups ->
      exists remaining,
        state r = Some remaining
        /\ List.length remaining = List.length groups - 1
        /\ forall j, nth_error remaining j
                     = nth_error groups (if j <? i then j else S j)).
Proof.
  intros Hk Ha Hi Hc Hlater r groups. unfold r.
  rewrite (run_delete secret ss w inp i Hk Ha)
    by (apply uploaders_last_click; [lia | exact Hc | exact Hlater]).
  cbn [outcome_of history state]. fold groups.
  assert (Hl : List.length groups = List.length (session_groups ss))
    by apply after_uploads_length.
  pose proof (remove_at_length i groups ltac:(lia)) as Hr.
  split; [reflexivity | split; [reflexivity |]]. split.
  - intros H1. destruct (remove_at i groups); [reflexivity |].
    cbn [List.length] in Hr. lia.
  - intros H1. exists (remove_at i groups).
    split; [| split; [exact Hr | intros j; apply remove_at_nth; lia]].
    destruct (remove_at i groups); [cbn [List.length] in Hr; lia | reflexivity].
Qed.

Lemma quiet_state (secret : option string) (ss : option (list (list file)))
  (w : world) (inp : inputs) :
  api_key secret <> None ->
  add_clicked inp = false ->
  (forall i, i < List.length (session_groups ss) -> delete_clicked inp i = false) ->
  state (run secret ss w inp) = Some (after_uploads 0 (session_groups ss) inp)
  /\ outcome_of (run secret ss w inp) <> Rerun.
Proof.
  intros Hk Ha Hd. rewrite (run_quiet secret ss w inp Hk Ha Hd).
  destruct (process_clicked inp); [| split; [reflexivity | discriminate]].
  destruct (any_files _); [| split; [reflexivity | discriminate]].
  cbv zeta. destruct (fst (all _ w)); split; (reflexivity || discriminate).
Qed.

(** X11.  A run sends a request only when "Process All Companies" is
    clicked, neither "Add" nor a delete button is, and some group holds
    a file once the uploads of the run are stored; such a run does not
    restart the script. *)
Theorem no_request_unless_processing
  (secret : option string) (ss : option (list (list file))) (w : world)
  (inp : inputs) :
  history (run secret ss w inp) <> w ->
  api_key secret <> None
  /\ add_clicked inp = false
  /\ process_clicked inp = true
  /\ (forall i, i < List.length (session_groups ss) -> delete_clicked inp i = false)
  /\ any_files (after_uploads 0 (session_groups ss) inp) = true
  /\ outcome_of (run secret ss w inp) <> Rerun.
Proof.
  intros H.
  assert (Hk : api_key secret <> None).
  { intros E. apply H. unfold Page.run. rewrite E. reflexivity. }
  assert (Ha : add_clicked inp = false).
  { destruct (add_clicked inp) eqn:E; [| reflexivity]. exfalso. apply H.
    unfold Page.run. destruct (api_key secret); [| contradiction].
    rewrite E. reflexivity. }
  destruct (snd (uploaders 0 (session_groups ss) inp None)) as [i |] eqn:Eu.
  { exfalso. apply H. rewrite (run_delete secret ss w inp i Hk Ha Eu). reflexivity. }
  assert (Hd : forall i, i < List.length (session_groups ss) ->
                         delete_clicked inp i = false).
  { intros i Hi. apply (proj2 (uploaders_none _ _ _ _ Eu)). lia. }
  pose proof (proj2 (quiet_state secret ss w inp Hk Ha Hd)) as Ho.
  rewrite (run_quiet secret ss w inp Hk Ha Hd) in H.
  destruct (process_clicked inp); [| exfalso; apply H; reflexivity].
  destruct (any_files _); [| exfalso; apply H; reflexivity].
  auto 10.
Qed.

(** X12.  When "Process All Companies" is clicked and some group holds a
    file, one request is sent for every group, the groups without files
    included.  If all replies are accepted, the page ends with the final
    header, the JSON view and the download button, for an envelope of as
    many companies as groups; otherwise the run fails with the exception
    and shows none of the three. *)
Theorem processing_asks_for_every_group
  (secret : option string) (ss : option (list (list file))) (w : world)
  (inp : inputs) :
  api_key secret <> None ->
  add_clicked inp = false ->
  (forall i, i < List.length (session_groups ss) -> delete_clicked inp i = false) ->
  process_clicked inp = true ->
  let groups := after_uploads 0 (session_groups ss) inp in
  any_files groups = true ->
  let r := run secret ss w inp in
  state r = Some groups
  /\ history r = snd (all groups w)
  /\ match fst (all groups w) with
     | Ok result =>
         outcome_of r = Completed
         /\ (exists companies before,
               result = VDict [("companies", VList companies)]
               /\ List.length companies = List.length (session_groups ss)
               /\ page r = before ++ [FinalHeader; StJson result;
                                     DownloadButton (json_dumps result)]
               /\ existsb is_output before = false)
         /\ requests (history r) = requests w ++ map (request_of b64encode) groups
     | Raise e =>
         outcome_of r = Failed (Escaped e)
         /\ existsb is_output (page r) = false
     end.
Proof.
  intros Hk Ha Hd Hp groups Hany r. unfold r.
  rewrite (run_quiet secret ss w inp Hk Ha Hd), Hp. fold groups. rewrite Hany.
  cbv zeta.
  assert (Htop : forall l, existsb is_output
                             (([Title; Intro] ++ map CompanyHeader (seq 1 (List.length (session_groups ss))))
                              ++ map FromBatch l) = false).
  { intros l. rewrite existsb_app. cbn [app existsb is_output orb].
    rewrite existsb_headers, existsb_batch by reflexivity. reflexivity. }
  destruct (all groups w) as [[result | e] w'] eqn:E; cbn [fst snd state history
    outcome_of page].
  - split; [reflexivity | split; [reflexivity |]]. split; [reflexivity |].
    unfold process_multiple_companies in E.
    destruct (process_from _ _ _ 1 groups [] w) as [[companies | e] w1] eqn:Ef;
      [| discriminate].
    injection E as <- <-. split.
    + exists companies, (([Title; Intro]
                          ++ map CompanyHeader (seq 1 (List.length (session_groups ss))))
                         ++ map FromBatch (skipn (List.length w) w1)).
      split; [reflexivity |]. split.
      * destruct (MoreBatch.process_from_companies _ _ _ _ _ _ _ _ _ Ef)
          as (new & -> & Hl & _).
        cbn [app]. rewrite Hl. apply after_uploads_length.
      * split; [rewrite <- !app_assoc; reflexivity | apply Htop].
    + apply (process_from_requests _ _ _ _ _ _ _ _ _ Ef).
  - split; [reflexivity | split; [reflexivity |]]. split; [reflexivity |].
    apply Htop.
Qed.

Ltac no_warning H :=
  cbn [page] in H; rewrite ?in_app_iff in H;
  repeat match type of H with _ \/ _ => destruct H as [H | H] end;
  try (apply in_map_iff in H; destruct H as (? & H & _); discriminate);
  cbn [In] in H;
  repeat match type of H with _ \/ _ => destruct H as [H | H]; [discriminate |] end;
  destruct H.

(** X13.  The warning "Please upload at least one invoice." is shown
    exactly when "Process All Companies" is clicked, neither "Add" nor a
    delete button is, and no group holds a file, the uploads of the run
    included. *)
Theorem warning_exactly_when_nothing_uploaded
  (secret : option string) (ss : option (list (list file))) (w : world)
  (inp : inputs) :
  In Warning (page (run secret ss w inp))
  <-> (api_key secret <> None
       /\ add_clicked inp = false
       /\ process_clicked inp = true
       /\ (forall i, i < List.length (session_groups ss) ->
                     delete_clicked inp i = false)
       /\ any_files (after_uploads 0 (session_groups ss) inp) = false).
Proof.
  split.
  - intros H.
    assert (Hk : api_key secret <> None).
    { intros E. unfold Page.run in H. rewrite E in H. destruct H. }
    assert (Ha : add_clicked inp = false).
    { destruct (add_clicked inp) eqn:E; [| reflexivity]. exfalso.
      unfold Page.run in H. destruct (api_key secret); [| contradiction].
      rewrite E in H. no_warning H. }
    destruct (snd (uploaders 0 (session_groups ss) inp None)) as [i |] eqn:Eu.
    { exfalso. rewrite (run_delete secret ss w inp i Hk Ha Eu) in H. no_warning H. }
    assert (Hd : forall i, i < List.length (session_groups ss) ->
                           delete_clicked inp i = false).
    { intros i Hi. apply (proj2 (uploaders_none _ _ _ _ Eu)). lia. }
    rewrite (run_quiet secret ss w inp Hk Ha Hd) in H.
    destruct (process_clicked inp); [| exfalso; no_warning H].
    destruct (any_files _); [| auto 10]. exfalso. cbv zeta in H.
    destruct (fst (all _ w)); no_warning H.
  - intros (Hk & Ha & Hp & Hd & Hany).
    rewrite (run_quiet secret ss w inp Hk Ha Hd), Hp, Hany. cbn [page].
    apply in_or_app. right. left. reflexivity.
Qed.

(** One run keeps at least one group and adds at most one. *)
Lemma run_groups (secret : option string) (ss : option (list (list file)))
  (w : world) (inp : inputs) :
  reachable ss ->
  let r := run secret ss w inp in
  reachable (state r)
  /\ List.length (session_groups (state r))
     <= List.length (session_groups ss) + (if add_clicked inp then 1 else 0).
Proof.
  intros Hr r. unfold r.
  assert (H1 : 1 <= List.length (session_groups ss)).
  { destruct ss as [[| g gs] |]; cbn; [contradiction Hr; reflexivity | lia | lia]. }
  destruct (api_key secret) as [k |] eqn:Ek.
  2: { unfold Page.run. rewrite Ek. cbn [state]. split; [exact Hr | lia]. }
  assert (Hk : api_key secret <> None) by (rewrite Ek; discriminate).
  destruct (add_clicked inp) eqn:Ea.
  { unfold Page.run. rewrite Ek, Ea. cbn [state session_groups reachable].
    change (match ss with None => [[]] | Some g => g end) with (session_groups ss).
    split; [destruct (session_groups ss); discriminate |].
    rewrite length_app. cbn [List.length]. lia. }
  pose proof (after_uploads_length (session_groups ss) inp 0) as Hl.
  destruct (snd (uploaders 0 (session_groups ss) inp None)) as [i |] eqn:Eu.
  - rewrite (run_delete secret ss w inp i Hk Ea Eu). cbn [state session_groups reachable].
    destruct (uploaders_noted _ _ _ _ _ Eu) as [E | [Hi _]]; [discriminate |].
    pose proof (remove_at_length i (after_uploads 0 (session_groups ss) inp)
                  ltac:(lia)) as Hlen.
    destruct (remove_at i _) as [| g gs]; [split; [discriminate | cbn; lia] |].
    split; [discriminate | lia].
  - assert (Hd : forall i, i < List.length (session_groups ss) ->
                           delete_clicked inp i = false).
    { intros i Hi. apply (proj2 (uploaders_none _ _ _ _ Eu)). lia. }
    rewrite (proj1 (quiet_state secret ss w inp Hk Ea Hd)).
    cbn [session_groups reachable]. split; [| lia].
    intros E. rewrite E in Hl. cbn [List.length] in Hl. lia.
Qed.

(** X14.  Through a whole session, whatever is clicked and uploaded,
    there is always at least one group of invoices, and never more than
    one more than the number of clicks on "Add another company". *)
Theorem groups_bounded_by_add_clicks
  (secret : option string) (ss : option (list (list file))) (w : world)
  (interactions : list inputs) :
  reachable ss ->
  let final := fst (session secret ss w interactions) in
  reachable final
  /\ 1 <= List.length (session_groups final)
        <= List.length (session_groups ss) + count_adds interactions.
Proof.
  revert ss w. induction interactions as [| inp rest IH]; intros ss w Hr; cbn zeta.
  - cbn [Page.session fst]. split; [exact Hr |]. unfold count_adds. cbn.
    destruct ss as [[| g gs] |]; cbn; [contradiction Hr; reflexivity | lia | lia].
  - cbn [Page.session]. destruct (run_groups secret ss w inp Hr) as [Hr' Hl].
    destruct (IH _ (history (run secret ss w inp)) Hr') as (Hf & H1 & H2).
    split; [exact Hf |]. split; [exact H1 |].
    unfold count_adds in *. cbn [filter].
    destruct (add_clicked inp); cbn [List.length]; lia.
Qed.

(** X15.  Without a non-empty secret "OPENAI_API_KEY" every run stops
    with a [NameError] at the configuration line, because its fallback
    reads [os.environ] and [os] is not imported: nothing is shown, the
    session state is never set and no request is ever sent, whatever the
    user does. *)
Theorem missing_secret_stops_every_run
  (secret : option string) (ss : option (list (list file))) (w : world) :
  secret = None \/ secret = Some EmptyString ->
  (forall inp,
     run secret ss w inp
     = {| state := ss; page := []; history := w; outcome_of := Failed NameError |})
  /\ forall interactions, session secret ss w interactions = (ss, w).
Proof.
  intros H. assert (Hk : api_key secret = None) by (destruct H as [-> | ->]; reflexivity).
  assert (Hrun : forall inp,
             run secret ss w inp
             = {| state := ss; page := []; history := w;
                  outcome_of := Failed NameError |}).
  { intros inp. unfold Page.run. rewrite Hk. reflexivity. }
  split; [exact Hrun |].
  induction interactions as [| inp rest IH]; [reflexivity |].
  cbn [Page.session]. rewrite Hrun. exact IH.
Qed.

End Script.

Lemma delete_removes_the_clicked_group_witness :
  let r := Page.run (fun f => f) sample_create sample_json_loads (fun _ => "{}")
             (Some "key") (Some [["a.png"]; ["b.png"]; ["c.png"]]) []
             (click_delete 1) in
  outcome_of r = Rerun
  /\ exists remaining,
       state r = Some remaining
       /\ nth_error remaining 0 = Some ["a.png"]
       /\ nth_error remaining 1 = Some ["c.png"].
Proof.
  destruct (delete_removes_the_clicked_group (fun f => f) sample_create
              sample_json_loads (fun _ => "{}") (Some "key")
              (Some [["a.png"]; ["b.png"]; ["c.png"]]) [] (click_delete 1) 1)
    as (Ho & _ & _ & Hs).
  - discriminate.
  - reflexivity.
  - cbn. lia.
  - reflexivity.
  - intros j Hj. cbn in Hj. destruct j as [| [| [| j]]]; (lia || reflexivity).
  - split; [exact Ho |]. destruct Hs as (remaining & Hs & _ & Hn); [cbn; lia |].
    exists remaining. split; [exact Hs |]. rewrite !Hn. split; reflexivity.
Defined.

Lemma no_request_unless_processing_witness :
  history (Page.run (fun f => f) sample_create sample_json_loads (fun _ => "{}")
             (Some "key") None [] click_process) <> []
  /\ process_clicked click_process = true
  /\ any_files (after_uploads 0 (session_groups None) click_process) = true.
Proof.
  assert (H : history (Page.run (fun f => f) sample_create sample_json_loads
                         (fun _ => "{}") (Some "key") None [] click_process) <> [])
    by (vm_compute; discriminate).
  split; [exact H |].
  destruct (no_request_unless_processing (fun f => f) sample_create
              sample_json_loads (fun _ => "{}") (Some "key") None [] click_process H)
    as (_ & _ & Hp & _ & Hany & _).
  split; [exact Hp | exact Hany].
Defined.

Lemma processing_asks_for_every_group_witness :
  let r := Page.run (fun f => f) sample_create sample_json_loads (fun _ => "{}")
             (Some "key") (Some [[]]) [] click_process in
  state r = Some [["a.png"]]
  /\ outcome_of r = Completed
  /\ requests (history r) = [request_of (fun f => f) ["a.png"]].
Proof.
  pose proof (processing_asks_for_every_group (fun f => f) sample_create
                sample_json_loads (fun _ => "{}") (Some "key") (Some [[]]) []
                click_process ltac:(discriminate) eq_refl
                (fun i _ => eq_refl) eq_refl eq_refl) as H.
  cbv zeta in H. destruct H as (Hs & _ & H).
  change (fst (process_multiple_companies (fun f => f) sample_create
                 sample_json_loads
                 (after_uploads 0 (session_groups (Some [[]])) click_process) []))
    with (fst (process_multiple_companies (fun f => f) sample_create
                 sample_json_loads [["a.png"]] [])) in H.
  destruct (fst (process_multiple_companies (fun f => f) sample_create
                   sample_json_loads [["a.png"]] [])) as [result | e] eqn:E;
    [| vm_compute in E; discriminate].
  destruct H as (Ho & _ & Hq). split; [exact Hs | split; [exact Ho | exact Hq]].
Defined.

Lemma groups_bounded_by_add_clicks_witness :
  reachable None
  /\ 1 <= List.length
            (session_groups
               (fst (Page.session (fun f => f) sample_create sample_json_loads
                       (fun _ => "{}") (Some "key") None []
                       [click_delete 0; idle; click_delete 0])))
       <= 1.
Proof.
  split; [exact I |].
  exact (proj2 (groups_bounded_by_add_clicks (fun f => f) sample_create
                  sample_json_loads (fun _ => "{}") (Some "key") None []
                  [click_delete 0; idle; click_delete 0] I)).
Defined.

Lemma missing_secret_stops_every_run_witness :
  Page.session (fun f => f) sample_create sample_json_loads (fun _ => "{}")
    None None [] [click_process; idle] = (None, []).
Proof.
  exact (proj2 (missing_secret_stops_every_run (fun f => f) sample_create
                  sample_json_loads (fun _ => "{}") None None [] (or_introl eq_refl))
               [click_process; idle]).
Defined.

End ScriptFacts.

(* ================================================================== *)
(** * The encoding of the files *)
(* ================================================================== *)

Module Base64Facts.

Local Open Scope string_scope.
Local Open Scope Z_scope.

Lemma code_bounds (c : ascii) : 0 <= code c < 256.
Proof.
  unfold code. pose proof (N_ascii_bounded c) as H. lia.
Qed.

Lemma byte_code (c : ascii) : byte (code c) = c.
Proof. unfold byte, code. rewrite N2Z.id. apply ascii_N_embedding. Qed.

Lemma b64_index_char (n : Z) : 0 <= n < 64 -> b64_index (b64_char n) = Some n.
Proof.
  intros H. rewrite <- (Z2Nat.id n) by lia.
  assert (Hk : (Z.to_nat n < 64)%nat) by lia.
  revert Hk. generalize (Z.to_nat n). clear H. intros k Hk.
  do 64 (destruct k as [| k]; [reflexivity |]). lia.
Qed.

Lemma is_b64_char_char (n : Z) : 0 <= n < 64 -> is_b64_char (b64_char n) = true.
Proof. intros H. unfold is_b64_char. rewrite (b64_index_char n H). reflexivity. Qed.

(** Strings three characters at a time. *)
Lemma string_ind3 (P : string -> Prop) :
  P EmptyString ->
  (forall a, P (String a EmptyString)) ->
  (forall a b, P (String a (String b EmptyString))) ->
  (forall a b c r, P r -> P (String a (String b (String c r)))) ->
  forall s, P s.
Proof.
  intros H0 H1 H2 H3. fix IH 1. intros s.
  destruct s as [| a [| b [| c r]]]; [exact H0 | apply H1 | apply H2 |].
  apply H3, IH.
Qed.

Ltac sextets a b c :=
  pose proof (code_bounds a); pose proof (code_bounds b); pose proof (code_bounds c);
  Z.div_mod_to_equations; lia.

Lemma b64encode_length (s : string) :
  String.length (b64encode s) = (4 * ((String.length s + 2) / 3))%nat.
Proof.
  induction s as [| a | a b | a b c r IH] using string_ind3; try reflexivity.
  cbn [b64encode String.length]. rewrite IH.
  replace (S (S (S (String.length r))) + 2)%nat
    with ((String.length r + 2) + 1 * 3)%nat by lia.
  rewrite Nat.div_add by lia. lia.
Qed.

Lemma b64encode_chars (s : string) :
  string_forall is_b64_char (b64encode s) = true.
Proof.
  induction s as [| a | a b | a b c r IH] using string_ind3.
  - reflexivity.
  - cbn [b64encode string_forall].
    rewrite !is_b64_char_char by sextets a a a. reflexivity.
  - cbn [b64encode string_forall].
    rewrite !is_b64_char_char by sextets a b b. reflexivity.
  - cbn [b64encode string_forall].
    rewrite !is_b64_char_char by sextets a b c. exact IH.
Qed.

Lemma is_b64_char_ascii (c : ascii) : is_b64_char c = true -> code c < 128.
Proof.
  unfold is_b64_char, b64_index.
  destruct ((65 <=? code c) && (code c <=? 90)) eqn:E1; [lia |].
  destruct ((97 <=? code c) && (code c <=? 122)) eqn:E2; [lia |].
  destruct ((48 <=? code c) && (code c <=? 57)) eqn:E3; [lia |].
  destruct (code c =? 43) eqn:E4; [lia |].
  destruct (code c =? 47) eqn:E5; [lia |].
  intros H. apply Ascii.eqb_eq in H. subst c. reflexivity.
Qed.

Lemma string_forall_impl (p q : ascii -> bool) (s : string) :
  (forall c, p c = true -> q c = true) ->
  string_forall p s = true -> string_forall q s = true.
Proof.
  intros H. induction s as [| c r IH]; [reflexivity |]. cbn [string_forall].
  intros E. apply andb_prop in E. destruct E as [E1 E2].
  rewrite (H c E1), (IH E2). reflexivity.
Qed.

(** X16.  The text that [encode_image_to_base64] returns for [n] bytes
    has [4 * ceil (n / 3)] characters, all of them letters, digits, "+",
    "/" or "=", hence 7-bit: decoding it as UTF-8 cannot fail and gives
    the same characters. *)
Theorem encoded_text_is_ascii (s : string) :
  String.length (b64encode s) = (4 * ((String.length s + 2) / 3))%nat
  /\ string_forall is_b64_char (b64encode s) = true
  /\ string_forall (fun c => code c <? 128) (b64encode s) = true.
Proof.
  split; [apply b64encode_length |]. split; [apply b64encode_chars |].
  apply (string_forall_impl is_b64_char); [| apply b64encode_chars].
  intros c H. apply Z.ltb_lt, is_b64_char_ascii, H.
Qed.

Lemma b64decode_b64encode_fuel (s : string) :
  forall fuel, (String.length s <= fuel)%nat ->
               b64decode fuel (b64encode s) = Some s.
Proof.
  induction s as [| a | a b | a b c r IH] using string_ind3; intros fuel Hf.
  - destruct fuel; reflexivity.
  - destruct fuel as [| f]; [cbn in Hf; lia |].
    cbn [b64encode b64decode].
    rewrite !b64_index_char by sextets a a a.
    change (b64_index "=") with (@None Z). cbv iota.
    change (Ascii.eqb "=" "=") with true. cbn [andb].
    replace (code a / 4 * 4 + code a mod 4 * 16 / 16) with (code a)
      by sextets a a a.
    rewrite byte_code. reflexivity.
  - destruct fuel as [| f]; [cbn in Hf; lia |].
    cbn [b64encode b64decode].
    rewrite !b64_index_char by sextets a b b.
    change (b64_index "=") with (@None Z). cbv iota.
    change (Ascii.eqb "=" "=") with true. cbv iota.
    replace (code a / 4 * 4 + (code a mod 4 * 16 + code b / 16) / 16) with (code a)
      by sextets a b b.
    replace ((code a mod 4 * 16 + code b / 16) mod 16 * 16 + code b mod 16 * 4 / 4)
      with (code b) by sextets a b b.
    rewrite !byte_code. reflexivity.
  - destruct fuel as [| f]; [cbn in Hf; lia |].
    cbn [b64encode b64decode].
    rewrite !b64_index_char by sextets a b c.
    rewrite IH by (cbn [String.length] in Hf; lia).
    replace (code a / 4 * 4 + (code a mod 4 * 16 + code b / 16) / 16) with (code a)
      by sextets a b c.
    replace ((code a mod 4 * 16 + code b / 16) mod 16 * 16
             + (code b mod 16 * 4 + code c / 64) / 4)
      with (code b) by sextets a b c.
    replace ((code b mod 16 * 4 + code c / 64) mod 4 * 64 + code c mod 64)
      with (code c) by sextets a b c.
    rewrite !byte_code. reflexivity.
Qed.

(** X17.  The encoding loses nothing: the bytes of a file are read back
    from its encoded text. *)
Theorem encoded_text_reads_back (s : string) :
  b64decode (String.length s) (b64encode s) = Some s.
Proof. apply b64decode_b64encode_fuel. lia. Qed.

Lemma b64encode_injective (s1 s2 : string) :
  b64encode s1 = b64encode s2 -> s1 = s2.
Proof.
  intros H.
  pose proof (b64decode_b64encode_fuel s1 (String.length s1 + String.length s2)
                ltac:(lia)) as H1.
  pose proof (b64decode_b64encode_fuel s2 (String.length s1 + String.length s2)
                ltac:(lia)) as H2.
  rewrite H, H2 in H1. injection H1 as H1. symmetry. exact H1.
Qed.

(** X18.  With the standard encoding, the request of a company
    determines the bytes of its files, their number and their order: two
    groups that differ in any of these give different requests. *)
Theorem different_files_give_different_requests (files1 files2 : list file) :
  files1 <> files2 ->
  request_of b64encode files1 <> request_of b64encode files2.
Proof.
  intros Hne Heq. apply Hne. unfold request_of in Heq. injection Heq as Heq.
  clear Hne. revert files2 Heq.
  induction files1 as [| f1 r1 IH]; intros [| f2 r2]; cbn [map]; try discriminate;
    [reflexivity |].
  intros H. injection H as Hf Hr. unfold encode_image_to_base64 in Hf.
  apply b64encode_injective in Hf. subst f2.
  rewrite (IH r2 Hr). reflexivity.
Qed.

Lemma different_files_give_different_requests_witness :
  ["ab"; "c"] <> ["a"; "bc"]
  /\ request_of b64encode ["ab"; "c"] <> request_of b64encode ["a"; "bc"].
Proof.
  assert (H : ["ab"; "c"] <> ["a"; "bc"]) by discriminate.
  split; [exact H |].
  exact (different_files_give_different_requests ["ab"; "c"] ["a"; "bc"] H).
Defined.

End Base64Facts.

(* ================================================================== *)
(** * Sums that do not vanish *)
(* ================================================================== *)

Module SumFacts.

Local Open Scope Q_scope.

(** A magnitude of at least the smallest subnormal number does not round
    to zero. *)
Lemma nearest_nonzero (s s' : bool) (x : Q) :
  2 ^ (-1074) <= x -> nearest s x <> S754_zero s'.
Proof.
  intros Hx. pose proof (pow2_pos (-1074)) as Hp.
  assert (HM : 2 ^ emin == 2 ^ (-1074)) by reflexivity.
  set (M := 2 ^ (-1074)) in *. clearbody M.
  assert (H0 : 0 < x) by lra.
  rewrite nearest_unfold by exact H0.
  assert (Hm : (1 <= mantissa_of x)%Z).
  { destruct (Z_le_gt_dec (-1074) (Qlog2 x - 52)) as [Hn | Hs].
    - pose proof (mantissa_bounds x H0) as (_ & Hb & _). specialize (Hb Hn). lia.
    - unfold mantissa_of, exponent_of, prec. rewrite Z.max_r by (unfold emin; lia).
      apply (Qrne_ge_inject _ 1). change (inject_Z 1) with 1. rewrite HM.
      apply Qle_shift_div_l; [exact Hp | lra]. }
  destruct (mantissa_of x =? 2 ^ prec)%Z eqn:E.
  - change (2 ^ (prec - 1))%Z with 4503599627370496%Z. cbv beta iota.
    destruct (_ <=? _)%Z; discriminate.
  - cbv beta iota. destruct (mantissa_of x) eqn:Em; [lia | | lia].
    destruct (_ <=? _)%Z; discriminate.
Qed.

(** A finite float is a non-zero multiple of the smallest subnormal
    number. *)
Lemma finite_on_grid (s : bool) (m : positive) (e : Z) :
  is_valid (S754_finite s m e) = true ->
  exists k : Z, F2Q (S754_finite s m e) == inject_Z k * 2 ^ (-1074).
Proof.
  intros H. apply bounded_inv in H. destruct H as [_ He].
  assert (Hge : (-1074 <= e)%Z) by lia. clear He.
  assert (E : 2 ^ e == inject_Z (2 ^ (e + 1074)) * 2 ^ (-1074)).
  { rewrite pow2_inject by lia. rewrite <- pow2_add.
    replace (e + 1074 + -1074)%Z with e by lia. reflexivity. }
  set (M := 2 ^ (-1074)) in *. clearbody M.
  exists ((if s then -1 else 1) * Zpos m * 2 ^ (e + 1074))%Z.
  rewrite !inject_Z_mult.
  destruct s; cbn [F2Q Fabs2Q]; rewrite E;
    [change (inject_Z (-1)) with (-(1)) | change (inject_Z 1) with 1]; ring.
Qed.

Lemma grid_away (k : Z) (M q : Q) :
  0 < M -> q == inject_Z k * M -> 0 < q -> M <= q.
Proof.
  intros HM E Hq. destruct (Z_lt_le_dec k 1) as [Hk | Hk].
  - exfalso. assert (H : inject_Z k <= 0) by (change 0 with (inject_Z 0); rewrite <- Zle_Qle; lia).
    assert (H1 : inject_Z k * M <= 0 * M) by (apply Qmult_le_compat_r; lra).
    lra.
  - assert (H : 1 <= inject_Z k) by (change 1 with (inject_Z 1); rewrite <- Zle_Qle; exact Hk).
    assert (H1 : 1 * M <= inject_Z k * M) by (apply Qmult_le_compat_r; lra).
    lra.
Qed.

Lemma fadd_finite_nonzero (x y : float) (s : bool) :
  is_valid x = true -> is_valid y = true ->
  of_Q (F2Q x + F2Q y) false = S754_zero s -> s = false.
Proof.
  intros Hx Hy.
  assert (G : exists k : Z, F2Q x + F2Q y == inject_Z k * 2 ^ (-1074)).
  { assert (Gx : exists k : Z, F2Q x == inject_Z k * 2 ^ (-1074)).
    { destruct x as [sx | sx | | sx mx ex]; try (exists 0%Z; reflexivity).
      apply finite_on_grid, Hx. }
    assert (Gy : exists k : Z, F2Q y == inject_Z k * 2 ^ (-1074)).
    { destruct y as [sy | sy | | sy my ey]; try (exists 0%Z; reflexivity).
      apply finite_on_grid, Hy. }
    destruct Gx as [k1 E1], Gy as [k2 E2]. exists (k1 + k2)%Z.
    rewrite E1, E2, inject_Z_plus. ring. }
  destruct G as [k E].
  set (q := F2Q x + F2Q y) in *. clearbody q.
  unfold of_Q. destruct (Qcompare_spec q 0) as [E0 | Hlt | Hgt].
  - intros H. injection H as <-. reflexivity.
  - intros H. exfalso. revert H.
    apply nearest_nonzero. apply (grid_away (- k) (2 ^ (-1074))).
    + apply pow2_pos.
    + rewrite inject_Z_opp, E. set (M := 2 ^ (-1074)). ring.
    + clear E. lra.
  - intros H. exfalso. revert H.
    apply nearest_nonzero.
    apply (grid_away k (2 ^ (-1074))); [apply pow2_pos | exact E | exact Hgt].
Qed.

(** Only [-0.0 + -0.0] is [-0.0]. *)
Lemma fadd_neg_zero (x y : float) :
  is_valid x = true -> is_valid y = true ->
  fadd x y = neg_zero -> x = neg_zero /\ y = neg_zero.
Proof.
  intros Hx Hy H.
  destruct x as [sx | sx | | sx mx ex], y as [sy | sy | | sy my ey];
    try discriminate H.
  - destruct sx, sy; try discriminate H. split; reflexivity.
  - cbn [fadd] in H. destruct (Bool.eqb sx sy); discriminate H.
  - cbn [fadd] in H. apply (fadd_finite_nonzero _ _ _ Hx Hy) in H. discriminate H.
Qed.

Local Open Scope string_scope.

(** The running total of a column is never [-0.0]. *)
Lemma running_total (key : string) (invs : list dict) :
  forall t,
    is_valid t = true -> t <> neg_zero ->
    is_valid (fold_left (add_amount key) invs t) = true
    /\ fold_left (add_amount key) invs t <> neg_zero.
Proof.
  induction invs as [| inv rest IH]; intros t Hv Hn; [auto |].
  cbn [fold_left]. apply IH.
  - unfold add_amount. destruct (amount _) as [x |] eqn:E; [| exact Hv].
    apply fadd_valid; [exact Hv | apply (amount_valid _ _ E)].
  - unfold add_amount. destruct (amount _) as [x |] eqn:E; [| exact Hn].
    intros H. apply fadd_neg_zero in H; [apply Hn, H | exact Hv |].
    apply (amount_valid _ _ E).
Qed.

Lemma add_amount_normalized (key : string) (inv : dict) (t : float) :
  key = "Pre_VAT_Amount" \/ key = "WHT" ->
  two_decimal (field key inv) ->
  t <> neg_zero ->
  add_amount key t (normalize_invoice inv) = add_amount key t inv.
Proof.
  intros Hk Hc Hn. unfold add_amount at 1. unfold field at 1.
  rewrite (normalize_invoice_get key inv Hk).
  rewrite amount_of_stored by apply normalized_valid.
  unfold add_amount, normalized. unfold two_decimal in Hc.
  destruct (amount (field key inv)) as [x | err]; [rewrite Hc; reflexivity |].
  destruct t as [[] | s | | s m e]; try reflexivity. contradiction Hn. reflexivity.
Qed.

Lemma total_of_two_decimal (key : string) (invs : list dict) :
  key = "Pre_VAT_Amount" \/ key = "WHT" ->
  Forall (fun inv => two_decimal (field key inv)) invs ->
  total_of key (map normalize_invoice invs) = total_of key invs.
Proof.
  intros Hk Hc. unfold total_of.
  assert (G : forall t, is_valid t = true -> t <> neg_zero ->
                        fold_left (add_amount key) (map normalize_invoice invs) t
                        = fold_left (add_amount key) invs t).
  { induction Hc as [| inv rest Hinv Hrest IH]; intros t Hv Hn; [reflexivity |].
    cbn [map fold_left]. rewrite (add_amount_normalized key inv t Hk Hinv Hn).
    destruct (running_total key [inv] t Hv Hn) as [Hv' Hn']. apply IH; assumption. }
  apply G; [reflexivity | discriminate].
Qed.

(** X19.  On a document that meets the contract and whose monetary
    fields are two-decimal numbers, or do not parse, or are absent,
    [calculate_summary] is idempotent: applied to its own result it
    returns it unchanged, totals included. *)
Theorem idempotent_on_two_decimal_amounts (d : dict) (invs : list dict) (sm : dict) :
  invoices_are d invs ->
  Dict.get "Summary" d = Some (VDict sm) ->
  Forall (fun inv => two_decimal (field "Pre_VAT_Amount" inv)
                     /\ two_decimal (field "WHT" inv)) invs ->
  exists result,
    calculate_summary (VDict d) = Ok result
    /\ calculate_summary result = Ok result.
Proof.
  intros Hi Hs Hc. eexists. split; [apply (calculate_summary_contract d invs sm Hi Hs) |].
  rewrite (calculate_summary_again d invs sm _ _ Hi).
  rewrite !total_of_two_decimal; [reflexivity | | | |]; auto.
  - apply (Forall_impl _ (fun inv H => proj2 H) Hc).
  - apply (Forall_impl _ (fun inv H => proj1 H) Hc).
Qed.

Lemma idempotent_on_two_decimal_amounts_witness :
  exists result,
    calculate_summary
      (VDict [("Invoices",
               VList (map VDict [[("Pre_VAT_Amount", VStr "1,500.25"); ("WHT", VNone)];
                                 [("Pre_VAT_Amount", VInt (-3))]]));
              ("Summary", VDict [])])
    = Ok result
    /\ calculate_summary result = Ok result.
Proof.
  apply (idempotent_on_two_decimal_amounts
           [("Invoices",
             VList (map VDict [[("Pre_VAT_Amount", VStr "1,500.25"); ("WHT", VNone)];
                               [("Pre_VAT_Amount", VInt (-3))]]));
            ("Summary", VDict [])]
           [[("Pre_VAT_Amount", VStr "1,500.25"); ("WHT", VNone)];
            [("Pre_VAT_Amount", VInt (-3))]] []).
  - left. reflexivity.
  - reflexivity.
  - repeat constructor; unfold two_decimal; vm_compute; reflexivity.
Defined.

End SumFacts.

(* ================================================================== *)
(** * Integer amounts *)
(* ================================================================== *)

Module IntegerFacts.

Local Open Scope Q_scope.

Lemma parse_decimal_digits (ds : list Z) :
  Forall digit ds -> ds <> [] ->
  parse_decimal (string_of_digits ds) = Some (ds, [], 0%Z).
Proof.
  intros Hd Hne. unfold parse_decimal. rewrite (span_digits_all ds Hd).
  cbv beta iota. rewrite app_nil_r. destruct ds; [congruence | reflexivity].
Qed.

Lemma dec2Q_zero (c : Z) : dec2Q c 0 == inject_Z c.
Proof. unfold dec2Q. change (10 ^ 0) with 1. ring. Qed.

(** The text of an integer is read as that integer. *)
Lemma amount_int (n : Z) : amount (VInt n) = Ok (float_of_Z n).
Proof.
  unfold amount. cbn [py_str py_repr]. unfold str_of_Z, float_of_Z.
  destruct (Z.ltb_spec n 0) as [Hneg | Hpos].
  - set (ds := digits_of_Z (- n)).
    assert (Hd : Forall digit ds) by (apply digits_of_Z_valid; lia).
    assert (Hne : ds <> []) by apply digits_of_Z_nonempty.
    rewrite py_float_plain
      by (cbn [all_plain]; rewrite (all_plain_digits ds Hd); reflexivity).
    unfold parse_float. cbn [parse_sign]. rewrite (parse_decimal_digits ds Hd Hne).
    rewrite app_nil_r. unfold ds. rewrite digits_of_Z_value. f_equal.
    apply nearest_comp. cbn [List.length]. rewrite dec2Q_zero.
    replace (Z.abs n) with (- n)%Z by lia. reflexivity.
  - set (ds := digits_of_Z n).
    assert (Hd : Forall digit ds) by (apply digits_of_Z_valid; lia).
    assert (Hne : ds <> []) by apply digits_of_Z_nonempty.
    rewrite py_float_plain by apply (all_plain_digits ds Hd).
    unfold parse_float.
    destruct (string_of_digits_head ds EmptyString Hd Hne) as (c & r & E & Hc).
    rewrite append_empty in E. rewrite E, (parse_sign_digit c r Hc), <- E.
    rewrite (parse_decimal_digits ds Hd Hne).
    rewrite app_nil_r. unfold ds. rewrite digits_of_Z_value. f_equal.
    apply nearest_comp. cbn [List.length]. rewrite dec2Q_zero.
    replace (Z.abs n) with n by lia. reflexivity.
Qed.

(** An integer below [2^53] is a float. *)
Lemma nearest_integer (s : bool) (k : Z) :
  (0 < k < 2 ^ 53)%Z ->
  exists m e,
    nearest s (inject_Z k) = S754_finite s m e
    /\ inject_Z (Zpos m) * 2 ^ e == inject_Z k.
Proof.
  intros Hk.
  assert (H1 : 1 <= inject_Z k)
    by (change 1 with (inject_Z 1); rewrite <- Zle_Qle; lia).
  assert (H53 : inject_Z k < 2 ^ 53)
    by (rewrite <- pow2_inject by lia; rewrite <- Zlt_Qlt; lia).
  assert (Hx : 0 < inject_Z k) by lra.
  destruct (nearest_shape s (inject_Z k)) as [Hz | [Hinf | (m & e & Hf)]].
  - exfalso. revert Hz. apply SumFacts.nearest_nonzero.
    assert (2 ^ (-1074) <= 2 ^ 0) by (apply pow2_le; lia).
    change (2 ^ 0) with 1 in *. set (M := 2 ^ (-1074)) in *. clearbody M. lra.
  - exfalso. revert Hinf. apply nearest_not_infinity.
    assert (2 ^ 53 < 2 ^ 1000) by (apply pow2_lt; lia).
    set (A := 2 ^ 53) in *. set (B := 2 ^ 1000) in *. clearbody A B. lra.
  - exists m, e. split; [exact Hf |].
    destruct (nearest_finite_inv _ _ _ _ _ Hf) as (_ & _ & _ & Hv). rewrite Hv.
    pose proof (Qlog2_spec _ Hx) as [Slo _].
    assert (HL : (Qlog2 (inject_Z k) < 53)%Z)
      by (apply pow2_lt_inv; set (A := 2 ^ 53) in *; clearbody A;
          set (B := 2 ^ Qlog2 (inject_Z k)) in *; clearbody B; lra).
    pose proof (exponent_ge_emin (inject_Z k)) as HE.
    assert (HE0 : (exponent_of (inject_Z k) <= 0)%Z)
      by (unfold exponent_of, prec, emin in *; lia).
    set (E := exponent_of (inject_Z k)) in *.
    assert (Hm : mantissa_of (inject_Z k) = (k * 2 ^ (- E))%Z).
    { unfold mantissa_of. fold E. rewrite <- (Qrne_inject (k * 2 ^ (- E))).
      apply Qrne_comp. rewrite inject_Z_mult, pow2_inject by lia.
      rewrite Qpower_opp. reflexivity. }
    rewrite Hm, inject_Z_mult, pow2_inject by lia.
    rewrite <- Qmult_assoc, <- pow2_add. replace (- E + E)%Z with 0%Z by lia.
    change (2 ^ 0) with 1. ring.
Qed.

Lemma float_of_Z_shape (n : Z) :
  (Z.abs n < 2 ^ 53)%Z ->
  (n = 0%Z /\ float_of_Z n = pos_zero)
  \/ (n <> 0%Z
      /\ exists m e,
           float_of_Z n = S754_finite (n <? 0)%Z m e
           /\ inject_Z (Zpos m) * 2 ^ e == inject_Z (Z.abs n)).
Proof.
  intros Hn. destruct (Z.eq_dec n 0) as [-> | Hne]; [left; split; reflexivity |].
  right. split; [exact Hne |]. apply nearest_integer. lia.
Qed.

Lemma float_of_Z_valid (n : Z) : is_valid (float_of_Z n) = true.
Proof. apply nearest_valid. Qed.

Lemma F2Q_float_of_Z (n : Z) :
  (Z.abs n < 2 ^ 53)%Z -> F2Q (float_of_Z n) == inject_Z n.
Proof.
  intros Hn. destruct (float_of_Z_shape n Hn) as [[-> ->] | (Hne & m & e & -> & Hv)];
    [reflexivity |].
  destruct (Z.ltb_spec n 0) as [Hneg | Hpos]; cbn [F2Q Fabs2Q]; rewrite Hv.
  - replace (Z.abs n) with (- n)%Z by lia. rewrite inject_Z_opp. ring.
  - replace (Z.abs n) with n by lia. reflexivity.
Qed.

(** Rounding to two decimals leaves an integer as it is. *)
Lemma round2_float_of_Z (n : Z) :
  (Z.abs n < 2 ^ 53)%Z -> round2 (float_of_Z n) = float_of_Z n.
Proof.
  intros Hn. pose proof (float_of_Z_valid n) as Hval.
  destruct (float_of_Z_shape n Hn) as [[-> ->] | (Hne & m & e & E & Hv)];
    [reflexivity |].
  rewrite E in *. unfold round2. rewrite py_round_2_unfold.
  rewrite (round_cents_exact _ m e (Z.abs n * 100) Hval); [reflexivity |].
  rewrite Hv, inject_Z_mult, ten_pow_2. reflexivity.
Qed.

Lemma of_Q_integer (q : Q) (n : Z) :
  q == inject_Z n -> of_Q q false = float_of_Z n.
Proof.
  intros E. unfold of_Q, float_of_Z.
  destruct (Qcompare_spec q 0) as [H0 | Hlt | Hgt].
  - assert (n = 0%Z) by (rewrite H0 in E; unfold Qeq in E; cbn in E; lia).
    subst n. reflexivity.
  - assert (Hn : (n < 0)%Z) by (rewrite Zlt_Qlt, <- E; exact Hlt).
    rewrite (proj2 (Z.ltb_lt n 0) Hn). apply nearest_comp.
    replace (Z.abs n) with (- n)%Z by lia. rewrite E, inject_Z_opp. reflexivity.
  - assert (Hn : (0 < n)%Z) by (rewrite Zlt_Qlt, <- E; exact Hgt).
    rewrite (proj2 (Z.ltb_ge n 0)) by lia. apply nearest_comp.
    replace (Z.abs n) with n by lia. exact E.
Qed.

(** Sums of integers that stay below [2^53] are exact. *)
Lemma fadd_float_of_Z (a b : Z) :
  (Z.abs a < 2 ^ 53)%Z -> (Z.abs b < 2 ^ 53)%Z ->
  fadd (float_of_Z a) (float_of_Z b) = float_of_Z (a + b).
Proof.
  intros Ha Hb.
  pose proof (F2Q_float_of_Z a Ha) as Qa. pose proof (F2Q_float_of_Z b Hb) as Qb.
  destruct (float_of_Z_shape a Ha) as [[-> Ea] | (Hna & ma & ea & Ea & _)];
    destruct (float_of_Z_shape b Hb) as [[-> Eb] | (Hnb & mb & eb & Eb & _)].
  - reflexivity.
  - rewrite Ea. cbn [Z.add]. rewrite Eb. reflexivity.
  - rewrite Eb, Z.add_0_r. rewrite Ea. reflexivity.
  - rewrite Ea, Eb in *. cbn [fadd]. apply of_Q_integer.
    rewrite Qa, Qb, inject_Z_plus. reflexivity.
Qed.

Local Open Scope string_scope.
Local Open Scope Z_scope.

Lemma Zsum_abs_nonneg (ns : list Z) : 0 <= Zsum (map Z.abs ns).
Proof. induction ns as [| n r IH]; cbn [map Zsum fold_right] in *; unfold Zsum in *; lia. Qed.

Lemma Zsum_abs_bound (ns : list Z) : Z.abs (Zsum ns) <= Zsum (map Z.abs ns).
Proof. induction ns as [| n r IH]; cbn [map Zsum fold_right] in *; unfold Zsum in *; lia. Qed.

Lemma fold_add_amount_integers (key : string) (invs : list dict) (ns : list Z) :
  Forall2 (fun inv n => Dict.get key inv = Some (VInt n)) invs ns ->
  forall acc,
    Z.abs acc + Zsum (map Z.abs ns) < 2 ^ 53 ->
    fold_left (add_amount key) invs (float_of_Z acc) = float_of_Z (acc + Zsum ns).
Proof.
  induction 1 as [| inv n invs ns Hg _ IH]; intros acc Hb.
  - cbn. rewrite Z.add_0_r. reflexivity.
  - pose proof (Zsum_abs_nonneg ns) as Hnn.
    unfold Zsum in *. cbn [map fold_right fold_left] in *.
    unfold add_amount at 2. unfold field. rewrite Hg, amount_int.
    rewrite fadd_float_of_Z by lia. rewrite IH by lia. f_equal. lia.
Qed.

Lemma stored_integers (key : string) (invs : list dict) (ns : list Z) :
  key = "Pre_VAT_Amount" \/ key = "WHT" ->
  Forall2 (fun inv n => Dict.get key inv = Some (VInt n)) invs ns ->
  Zsum (map Z.abs ns) < 2 ^ 53 ->
  Forall2 (fun inv n =>
             Dict.get key (normalize_invoice inv) = Some (VFloat (float_of_Z n))
             /\ (F2Q (float_of_Z n) == inject_Z n)%Q)
          invs ns.
Proof.
  intros Hkey Hints. induction Hints as [| inv n invs' ns' Hg _ IH]; intros Hb;
    [constructor |].
  pose proof (Zsum_abs_nonneg ns') as Hnn.
  unfold Zsum in *. cbn [map fold_right] in Hb.
  constructor; [| apply IH; lia].
  split; [| apply F2Q_float_of_Z; lia].
  rewrite (normalize_invoice_get key inv Hkey). unfold normalized, field.
  rewrite Hg, amount_int, round2_float_of_Z by lia. reflexivity.
Qed.

(** X20.  When the amounts of a column are integers whose magnitudes
    add up to less than [2^53], each is stored as the float of the same
    value and the total is exactly their sum: nothing is lost to
    rounding (compare the amounts with decimals of C1). *)
Theorem integer_amounts_add_up_exactly
  (d : dict) (invs : list dict) (sm : dict) (key slot : string) (ns : list Z) :
  invoices_are d invs ->
  Dict.get "Summary" d = Some (VDict sm) ->
  (key = "Pre_VAT_Amount" /\ slot = "Total_Pre_VAT_Amount")
  \/ (key = "WHT" /\ slot = "Total_WHT") ->
  Forall2 (fun inv n => Dict.get key inv = Some (VInt n)) invs ns ->
  Zsum (map Z.abs ns) < 2 ^ 53 ->
  exists result,
    calculate_summary (VDict d) = Ok result
    /\ summary_slot slot result = Some (VFloat (float_of_Z (Zsum ns)))
    /\ (F2Q (float_of_Z (Zsum ns)) == inject_Z (Zsum ns))%Q
    /\ invoices_of result = map VDict (map normalize_invoice invs)
    /\ Forall2 (fun inv n =>
                  Dict.get key (normalize_invoice inv) = Some (VFloat (float_of_Z n))
                  /\ (F2Q (float_of_Z n) == inject_Z n)%Q)
               invs ns.
Proof.
  intros Hi Hs Hk Hints Hb.
  assert (Hkey : key = "Pre_VAT_Amount" \/ key = "WHT") by (destruct Hk as [[? _] | [? _]]; auto).
  pose proof (Zsum_abs_bound ns) as Hsum.
  assert (Htot : round2 (total_of key invs) = float_of_Z (Zsum ns)).
  { unfold total_of. change pos_zero with (float_of_Z 0).
    rewrite (fold_add_amount_integers key invs ns Hints 0) by (cbn [Z.abs]; lia).
    cbn [Z.add]. apply round2_float_of_Z. lia. }
  eexists. split; [apply (calculate_summary_contract d invs sm Hi Hs) |].
  split; [| split; [apply F2Q_float_of_Z; lia | split]].
  - rewrite summary_slot_result. unfold with_totals.
    destruct Hk as [[-> ->] | [-> ->]].
    + rewrite get_set_other by discriminate. rewrite get_set_same, Htot. reflexivity.
    + rewrite get_set_same, Htot. reflexivity.
  - apply (invoices_of_result d invs); [exact Hi | apply length_map].
  - apply stored_integers; assumption.
Qed.

Lemma integer_amounts_add_up_exactly_witness :
  exists result,
    calculate_summary
      (VDict [("Invoices", VList (map VDict [[("WHT", VInt 1500)]; [("WHT", VInt (-250))]]));
              ("Summary", VDict [])])
    = Ok result
    /\ summary_slot "Total_WHT" result = Some (VFloat (float_of_Z 1250)).
Proof.
  destruct (integer_amounts_add_up_exactly
              [("Invoices", VList (map VDict [[("WHT", VInt 1500)]; [("WHT", VInt (-250))]]));
               ("Summary", VDict [])]
              [[("WHT", VInt 1500)]; [("WHT", VInt (-250))]] [] "WHT" "Total_WHT"
              [1500; -250])
    as (result & H & Ht & _).
  - left. reflexivity.
  - reflexivity.
  - right. split; reflexivity.
  - repeat constructor.
  - reflexivity.
  - exists result. split; [exact H | exact Ht].
Defined.

End IntegerFacts.
